(** * makemira.py: aggregation of the Ebola cohort tables into a Mirador dataset

    A shallow embedding of [src/makemira.py] (with the dictionary readers of
    [src/makecsv.py] and [src/makespss.py]) and the properties proved of it.

    Conventions of the embedding.
    - A CSV/TSV file is the list of rows that [csv.reader] yields, a row being a
      list of strings; [csv.writer] output is the list of rows written.
    - A Python exception that nothing catches aborts the run: every function
      that can raise returns a [result].
    - Text is ASCII: a string is a sequence of characters below 128, as the
      tables of the cohort are.  The Unicode digits and spaces that [int()],
      [str.strip] and [\d] also know are outside the embedding.
    - [collections.OrderedDict] is an association list in first-insertion
      order ([od_get], [od_set]); a plain [dict] that is never iterated is a
      [gmap].
    - Python [float] arithmetic is taken through the interface [FloatOps]; the
      theorems hold for every implementation of it, and an exact rational one
      is used to run the code on concrete readings. *)

From stdpp Require Import base strings list gmap pretty.
From Stdlib Require Import ZArith Ascii.
From Stdlib Require QArith.

(** ** Exceptions and the error monad *)

Inductive exn : Type :=
  | ValueError      (* int(), float(), math.log10, unpacking of the wrong length *)
  | IndexError      (* list or string index out of range *)
  | KeyError        (* missing dictionary key *)
  | StopIteration.  (* next() on an exhausted reader *)

Inductive result (A : Type) : Type :=
  | Ok (a : A)
  | Raise (e : exn).
Arguments Ok {A} a.
Arguments Raise {A} e.

#[export] Instance result_ret : MRet result := fun A a => Ok a.
#[export] Instance result_bind : MBind result := fun A B f m =>
  match m with
  | Ok a => f a
  | Raise e => Raise e
  end.

Definition is_ok {A} (r : result A) : bool :=
  match r with Ok _ => true | Raise _ => false end.

(** [for x in xs: s = body(x, s)], stopping at the first exception. *)
Fixpoint for_each {A S : Type} (body : A → S → result S) (xs : list A) (s : S)
  : result S :=
  match xs with
  | [] => Ok s
  | x :: xs' => s' ← body x s; for_each body xs' s'
  end.

(** [[f(x) for x in xs]], stopping at the first exception. *)
Fixpoint map_each {A B : Type} (f : A → result B) (xs : list A) : result (list B) :=
  match xs with
  | [] => Ok []
  | x :: xs' => y ← f x; ys ← map_each f xs'; Ok (y :: ys)
  end.

(** ** Python primitives *)

Module Py.

(** Truth value of a string: non-empty. *)
Definition truthy (s : string) : bool :=
  match s with EmptyString => false | String _ _ => true end.

(** Truth value of a list-or-None: a non-empty list. *)
Definition truthy_list {A} (o : option (list A)) : bool :=
  match o with Some (_ :: _) => true | _ => false end.

(** [l[i]] with Python's negative indices. *)
Definition getitem {A} (l : list A) (i : Z) : result A :=
  let j := if (0 <=? i)%Z then i else (Z.of_nat (length l) + i)%Z in
  if (0 <=? j)%Z
  then match l !! Z.to_nat j with Some x => Ok x | None => Raise IndexError end
  else Raise IndexError.

(** [s[i]] for a non-negative literal index: a one-character string. *)
Definition char_at (s : string) (i : nat) : result string :=
  match String.get i s with
  | Some c => Ok (String c EmptyString)
  | None => Raise IndexError
  end.

(** [s.split(sep)] for a one-character separator: never empty. *)
Fixpoint split (sep : ascii) (s : string) : list string :=
  match s with
  | EmptyString => [EmptyString]
  | String c s' =>
      if bool_decide (c = sep) then EmptyString :: split sep s'
      else match split sep s' with
           | [] => [String c EmptyString]
           | p :: ps => String c p :: ps
           end
  end.

(** [sep.join(parts)]. *)
Fixpoint join (sep : ascii) (parts : list string) : string :=
  match parts with
  | [] => EmptyString
  | [p] => p
  | p :: ps => p +:+ String sep (join sep ps)
  end.

Definition is_digit (c : ascii) : bool :=
  let n := Ascii.nat_of_ascii c in (48 <=? n)%nat && (n <=? 57)%nat.

Definition is_space (c : ascii) : bool :=
  let n := Ascii.nat_of_ascii c in
  ((9 <=? n)%nat && (n <=? 13)%nat) || (n =? 32)%nat || ((28 <=? n)%nat && (n <=? 31)%nat).

Fixpoint lstrip (s : string) : string :=
  match s with
  | String c s' => if is_space c then lstrip s' else s
  | EmptyString => EmptyString
  end.

Definition rstrip (s : string) : string :=
  String.rev (lstrip (String.rev s)).

(** [s.strip()]. *)
Definition strip (s : string) : string := rstrip (lstrip s).

(** Value of a run of ASCII digits; [None] on any other character. *)
Fixpoint digits_value (s : string) (acc : Z) : option Z :=
  match s with
  | EmptyString => Some acc
  | String c s' =>
      if is_digit c
      then digits_value s' (10 * acc + (Z.of_nat (Ascii.nat_of_ascii c) - 48))%Z
      else None
  end.

Definition unsigned_value (s : string) : result Z :=
  match s with
  | EmptyString => Raise ValueError
  | _ => match digits_value s 0 with Some z => Ok z | None => Raise ValueError end
  end.

(** The characters below 128. *)
Fixpoint is_ascii (s : string) : bool :=
  match s with
  | EmptyString => true
  | String c s' => (Ascii.nat_of_ascii c <? 128)%nat && is_ascii s'
  end.

(** The whitespace that [int()] skips around an ASCII literal: tab, the line
    breaks, vertical tab, form feed and space (not the separators 28 to 31,
    which [str.strip] removes). *)
Definition is_literal_space (c : ascii) : bool :=
  let n := Ascii.nat_of_ascii c in ((9 <=? n)%nat && (n <=? 13)%nat) || (n =? 32)%nat.

Fixpoint skip_space (s : string) : string :=
  match s with
  | String c s' => if is_literal_space c then skip_space s' else s
  | EmptyString => EmptyString
  end.

(** Value of [digit (["_"] digit)*]: decimal digits, single underscores allowed
    between two digits; [None] on anything else.  [after_digit] tells whether
    the character before was a digit. *)
Fixpoint digitpart_value (s : string) (acc : Z) (after_digit : bool) : option Z :=
  match s with
  | EmptyString => if after_digit then Some acc else None
  | String c s' =>
      if is_digit c
      then digitpart_value s' (10 * acc + (Z.of_nat (Ascii.nat_of_ascii c) - 48))%Z true
      else if bool_decide (c = "_"%char) && after_digit
           then digitpart_value s' acc false
           else None
  end.

Definition literal_value (s : string) : result Z :=
  match digitpart_value s 0 false with Some z => Ok z | None => Raise ValueError end.

(** [int(s)] for a string of ASCII characters, in Python 3: whitespace around
    the literal, an optional sign, then decimal digits in which single
    underscores may separate digits; anything else raises ValueError. *)
Definition int (s : string) : result Z :=
  match String.rev (skip_space (String.rev (skip_space s))) with
  | String "-"%char s' => z ← literal_value s'; Ok (- z)%Z
  | String "+"%char s' => literal_value s'
  | s' => literal_value s'
  end.

(** [str(n)] for a non-negative integer. *)
Definition str (n : nat) : string := pretty n.

End Py.

(** ** Dictionaries *)

(** A plain [dict]: lookup raises KeyError on a missing key. *)
Definition dict_get {V} (k : string) (d : gmap string V) : result V :=
  match d !! k with Some v => Ok v | None => Raise KeyError end.

(** [collections.OrderedDict]: keys in first-insertion order; assigning to an
    existing key keeps its position. *)
Section ordered_dict.
Context {K V : Type} `{EqDecision K}.

Fixpoint od_get (k : K) (d : list (K * V)) : option V :=
  match d with
  | [] => None
  | (k', v) :: d' => if decide (k = k') then Some v else od_get k d'
  end.

Fixpoint od_set (k : K) (v : V) (d : list (K * V)) : list (K * V) :=
  match d with
  | [] => [(k, v)]
  | (k', v') :: d' =>
      if decide (k = k') then (k', v) :: d' else (k', v') :: od_set k v d'
  end.

Definition od_keys (d : list (K * V)) : list K := d.*1.

Definition od_mem (k : K) (d : list (K * V)) : bool :=
  match od_get k d with Some _ => true | None => false end.

(** [d[k]]. *)
Definition od_item (k : K) (d : list (K * V)) : result V :=
  match od_get k d with Some v => Ok v | None => Raise KeyError end.

(** The invariant of a dictionary: no key twice. *)
Definition od_wf (d : list (K * V)) : Prop := NoDup (od_keys d).
End ordered_dict.


(** ** Data model *)

(** The missing-value token the aggregation writes: a backslash and an N. *)
Definition sentinel : string := "\N".

(** One qPCR sample, the list [[idx, date, vload]] of [load_master]. *)
Record qpcr_sample : Type := mk_sample {
  q_idx : string;
  q_date : string;
  q_vload : string
}.

(** The per-patient dictionary that [load_master] creates:
    keys group, outcome, sex, demo, case, pico, qpcr; [None] is Python's None. *)
Record patient : Type := mk_patient {
  d_group : string;
  d_outcome : option string;
  d_sex : option string;
  d_demo : option (list string);
  d_case : option (list string);
  d_pico : option (list (list string));
  d_qpcr : list qpcr_sample
}.

(** One entry of a variable dictionary ([load_dict]); the keys ranges and idict
    are present only for a row of seven fields. *)
Record var_info : Type := mk_var {
  v_name : string;
  v_alias : string;
  v_group : string;
  v_table : string;
  v_type : string;
  v_ranges : option string;
  v_idict : option (gmap string string)
}.

(** The entry of [pico_info] for one analyte, as far as the aggregation reads
    it (keys title and column). *)
Record pico_entry : Type := mk_pico {
  pi_title : string;
  pi_column : Z
}.

(** The module-level accumulators of makemira.py. *)
Record state : Type := mk_state {
  src_data : list (string * patient);
  mira_data : list (string * list string);
  variables : list string;
  var_titles : gmap string string;
  var_types : gmap string string;
  var_ranges : gmap string string;
  var_groups : list (string * list (string * list string))
}.

Definition init_state : state :=
  mk_state [] [] [] ∅ ∅ ∅ [].

Definition with_src (src : list (string * patient)) (st : state) : state :=
  mk_state src (mira_data st) (variables st) (var_titles st) (var_types st)
           (var_ranges st) (var_groups st).

Definition with_mira (mira : list (string * list string)) (st : state) : state :=
  mk_state (src_data st) mira (variables st) (var_titles st) (var_types st)
           (var_ranges st) (var_groups st).

(** ** Source loaders *)

(** [load_ignore]: the stripped lines of the file. *)
Definition load_ignore (lines : list string) : list string :=
  map Py.strip lines.

(** [next(reader)]: drop the header row. *)
Definition skip_header {A} (rows : list A) : result (list A) :=
  match rows with
  | [] => Raise StopIteration
  | _ :: rows' => Ok rows'
  end.

Definition master_row (ignore_id : list string) (row : list string)
    (src : list (string * patient)) : result (list (string * patient)) :=
  id ← Py.getitem row 1;
  if bool_decide (id ∈ ignore_id) then Ok src else
  idx ← Py.getitem row 3;
  date ← Py.getitem row 5;
  vload ← Py.getitem row 8;
  _ ← Py.getitem row 9;
  group ← Py.getitem row 10;
  if negb (Py.truthy group) then Ok src else
  match od_get id src with
  | Some data =>
      Ok (od_set id (mk_patient (d_group data) (d_outcome data) (d_sex data)
                       (d_demo data) (d_case data) (d_pico data)
                       (d_qpcr data ++ [mk_sample idx date vload])) src)
  | None =>
      Ok (od_set id (mk_patient group None None None None None
                       [mk_sample idx date vload]) src)
  end.

Definition load_master (ignore_id : list string) (rows : list (list string))
    (src : list (string * patient)) : result (list (string * patient)) :=
  body ← skip_header rows;
  for_each (master_row ignore_id) body src.

Definition demo_row (row : list string) (src : list (string * patient))
  : result (list (string * patient)) :=
  id ← Py.getitem row 1;
  match od_get id src with
  | None => Ok src
  | Some data =>
      sex ← Py.getitem row 3;
      outcome ← Py.getitem row 7;
      Ok (od_set id (mk_patient (d_group data) (Some outcome) (Some sex)
                       (Some row) (d_case data) (d_pico data) (d_qpcr data)) src)
  end.

Definition load_demo (rows : list (list string)) (src : list (string * patient))
  : result (list (string * patient)) :=
  body ← skip_header rows;
  for_each demo_row body src.

Definition case_row (row : list string) (src : list (string * patient))
  : result (list (string * patient)) :=
  id ← Py.getitem row 0;
  match od_get id src with
  | None => Ok src
  | Some data =>
      Ok (od_set id (mk_patient (d_group data) (d_outcome data) (d_sex data)
                       (d_demo data) (Some row) (d_pico data) (d_qpcr data)) src)
  end.

Definition load_case (rows : list (list string)) (src : list (string * patient))
  : result (list (string * patient)) :=
  body ← skip_header rows;
  for_each case_row body src.

Definition pico_row (row : list string) (src : list (string * patient))
  : result (list (string * patient)) :=
  id ← Py.getitem row 3;
  match od_get id src with
  | None => Ok src
  | Some data =>
      let pico_series := match d_pico data with Some s => s | None => [] end in
      Ok (od_set id (mk_patient (d_group data) (d_outcome data) (d_sex data)
                       (d_demo data) (d_case data) (Some (pico_series ++ [row]))
                       (d_qpcr data)) src)
  end.

Definition load_pico_data (rows : list (list string))
    (src : list (string * patient)) : result (list (string * patient)) :=
  body ← skip_header rows;
  for_each pico_row body src.

(** ** The summary counts ([print_summary]) *)

Record summary : Type := mk_summary {
  count_total : nat;
  count_pos : nat;
  count_neg : nat;
  count_case : nat;
  count_pos_pico : nat;
  count_neg_pico : nat;
  count_known_out : nat;
  count_vload : nat;
  count_pos_male : nat;
  count_pos_fem : nat;
  count_pos_unk : nat;
  count_neg_male : nat;
  count_neg_fem : nat;
  count_neg_unk : nat;
  count_novload_fatal : nat;
  count_novload_nonfatal : nat
}.

(** Truth value of a string-or-None. *)
Definition truthy_opt (o : option string) : bool :=
  match o with Some s => Py.truthy s | None => false end.

Definition incr (b : bool) (n : nat) : nat := if b then S n else n.

(** The body of the loop over the store, for one patient. *)
Definition summary_step (c : summary) (p : string * patient) : summary :=
  let data := p.2 in
  let male := bool_decide (d_sex data = Some "Male") in
  let fem := negb male && bool_decide (d_sex data = Some "Female") in
  let unk := negb male && negb fem in
  if bool_decide (d_group data = "Epos") then
    let known := truthy_opt (d_outcome data) in
    let vload := existsb (fun qpcr => Py.truthy (q_vload qpcr)) (d_qpcr data) in
    let fatal := bool_decide (d_outcome data = Some "Died") in
    let nonfatal := negb fatal && bool_decide (d_outcome data = Some "Discharged") in
    mk_summary (count_total c) (S (count_pos c)) (count_neg c)
      (incr (known && Py.truthy_list (d_case data)) (count_case c))
      (incr (known && Py.truthy_list (d_pico data)) (count_pos_pico c))
      (count_neg_pico c)
      (incr known (count_known_out c))
      (incr (known && vload) (count_vload c))
      (incr male (count_pos_male c)) (incr fem (count_pos_fem c))
      (incr unk (count_pos_unk c))
      (count_neg_male c) (count_neg_fem c) (count_neg_unk c)
      (incr (known && negb vload && fatal) (count_novload_fatal c))
      (incr (known && negb vload && nonfatal) (count_novload_nonfatal c))
  else
    mk_summary (count_total c) (count_pos c) (S (count_neg c))
      (count_case c) (count_pos_pico c)
      (incr (Py.truthy_list (d_pico data)) (count_neg_pico c))
      (count_known_out c) (count_vload c)
      (count_pos_male c) (count_pos_fem c) (count_pos_unk c)
      (incr male (count_neg_male c)) (incr fem (count_neg_fem c))
      (incr unk (count_neg_unk c))
      (count_novload_fatal c) (count_novload_nonfatal c).

(** The counts that [print_summary] prints. *)
Definition print_summary (src : list (string * patient)) : summary :=
  foldl summary_step
        (mk_summary (length src) 0 0 0 0 0 0 0 0 0 0 0 0 0 0 0) src.

(** ** Variable dictionary loader *)

(** [[value, key] = p.split(":")]: exactly two parts, or ValueError. *)
Definition unpack_pair (p : string) : result (string * string) :=
  match Py.split ":" p with
  | [value; key] => Ok (value, key)
  | _ => Raise ValueError
  end.

(** The loop over the parts of a code spec: [idict[key] = value] for every
    non-empty part. *)
Definition idict_part (p : string) (idict : gmap string string)
  : result (gmap string string) :=
  if Py.truthy p
  then '(value, key) ← unpack_pair p; Ok (<[key := value]> idict)
  else Ok idict.

Definition parse_idict (rstr : string) : result (gmap string string) :=
  for_each idict_part (Py.split ";" rstr) {[ "" := "" ]}.

Definition dict_row (row : list string) (dict : list (Z * var_info))
  : result (list (Z * var_info)) :=
  r0 ← Py.getitem row 0;
  col ← Py.int r0;
  name ← Py.getitem row 1;
  alias ← Py.getitem row 2;
  group ← Py.getitem row 3;
  table ← Py.getitem row 4;
  type ← Py.getitem row 5;
  if bool_decide (length row = 7%nat) then
    rstr ← Py.getitem row 6;
    idict ← parse_idict rstr;
    Ok (od_set col (mk_var name alias group table type (Some rstr) (Some idict)) dict)
  else
    Ok (od_set col (mk_var name alias group table type None None) dict).

Definition load_dict (rows : list (list string)) : result (list (Z * var_info)) :=
  for_each dict_row rows [].

(** ** Identifier normalizer *)

(** [re.search("\d", id)]: position of the first ASCII digit. *)
Fixpoint search_digit (s : string) : option nat :=
  match s with
  | EmptyString => None
  | String c s' => if Py.is_digit c then Some 0%nat else S <$> search_digit s'
  end.

Definition normalize_id (id : string) : string :=
  match search_digit id with
  | Some pos =>
      String.substring 0 pos id +:+ "-" +:+
      String.substring pos (String.length id - pos) id
  | None => id
  end.

(** What [normalize_id] prints. *)
Definition normalize_id_warning (id : string) : list string :=
  match search_digit id with
  | Some _ => []
  | None => ["  Warning: patient ID is malformed: " +:+ id]
  end.

(** ** Cluster table loader *)

(** A dictionary of per-patient dictionaries: [d[var][id] = v]. *)
Definition table_set (var id v : string) (d : gmap string (gmap string string))
  : result (gmap string (gmap string string)) :=
  inner ← dict_get var d;
  Ok (<[var := <[id := v]> inner]> d).

(** The decoding of one compound code, [row[2]]:
    the four values (cvalue, cmutat, svalue, smutat). *)
Definition decode_cluster (code : string)
  : result (string * string * string * string) :=
  let parts := Py.split "." code in
  cvalue ← Py.getitem parts 0;
  extra ← Py.getitem parts 1;
  if (0 <? String.length extra)%nat then
    cmutat ← Py.char_at extra 0;
    if (1 <? String.length extra)%nat then
      svalue ← Py.char_at extra 1;
      if (2 <? String.length extra)%nat then
        smutat ← Py.char_at extra 2;
        Ok (cvalue, cmutat, svalue, smutat)
      else Ok (cvalue, cmutat, svalue, "0")
    else Ok (cvalue, cmutat, "", "")
  else Ok (cvalue, "", "", "").

Definition cluster_row (row : list string) (cl_data : gmap string (gmap string string))
  : result (gmap string (gmap string string)) :=
  r0 ← Py.getitem row 0;
  let id := normalize_id r0 in
  code ← Py.getitem row 2;
  '(cvalue, cmutat, svalue, smutat) ← decode_cluster code;
  d1 ← table_set "CLUST" id cvalue cl_data;
  d2 ← table_set "MCLUST" id cmutat d1;
  d3 ← table_set "SCLUST" id svalue d2;
  table_set "MSCLUST" id smutat d3.

Definition cl_vars_init : list (string * string) :=
  [("CLUST", "Cluster"); ("MCLUST", "# mutations from cluster");
   ("SCLUST", "Sub-cluster"); ("MSCLUST", "# mutations from sub-cluster")].

Definition cl_data_init : gmap string (gmap string string) :=
  <["MSCLUST" := ∅]> (<["SCLUST" := ∅]> (<["MCLUST" := ∅]> (<["CLUST" := ∅]> ∅))).

Definition load_cluster_data (rows : list (list string))
  : result (list (string * string) * gmap string (gmap string string)) :=
  body ← skip_header rows;
  cl_data ← for_each cluster_row body cl_data_init;
  Ok (cl_vars_init, cl_data).


(** ** Aggregation engine: declaring variables *)

Definition add_variable (name title type gname tname : string) (st : state) : state :=
  let group := match od_get gname (var_groups st) with Some g => g | None => [] end in
  let table := match od_get tname group with Some t => t | None => [] end in
  mk_state (src_data st) (mira_data st)
           (variables st ++ [name])
           (<[name := title]> (var_titles st))
           (<[name := type]> (var_types st))
           (var_ranges st)
           (od_set gname (od_set tname (table ++ [name]) group) (var_groups st)).

Definition set_var_ranges (name ranges : string) (st : state) : state :=
  mk_state (src_data st) (mira_data st) (variables st) (var_titles st)
           (var_types st) (<[name := ranges]> (var_ranges st)) (var_groups st).

(** The schema loop shared by [add_demo_data] and [add_case_data]. *)
Definition declare_var (entry : Z * var_info) (st : state) : state :=
  let var := entry.2 in
  let st' := add_variable (v_name var) (v_alias var) (v_type var) (v_group var)
                          (v_table var) st in
  match v_ranges var with
  | Some r => set_var_ranges (v_name var) r st'
  | None => st'
  end.

Definition declare_vars (dict : list (Z * var_info)) (st : state) : state :=
  foldl (fun st entry => declare_var entry st) st dict.

(** ** Aggregation engine: demographics *)

(** The raw cell of a positional table row, or the empty string when the
    patient has no such row. *)
Definition raw_cell (row : option (list string)) (col : Z) : result string :=
  if Py.truthy_list row
  then match row with Some r => Py.getitem r col | None => Ok "" end
  else Ok "".

Definition demo_cell (data : patient) (entry : Z * var_info) : result string :=
  val ← raw_cell (d_demo data) entry.1;
  match v_idict entry.2 with
  | Some idict =>
      match idict !! val with
      | Some v => Ok v
      | None => Ok ""
      end
  | None => Ok val
  end.

Definition demo_patient (demo_dict : list (Z * var_info))
    (p : string * patient) (mira : list (string * list string))
  : result (list (string * list string)) :=
  let '(id, data) := p in
  let diag := if bool_decide (d_group data = "Epos") then "1" else "0" in
  cells ← map_each (demo_cell data) demo_dict;
  Ok (od_set id ([id; diag] ++ cells) mira).

Definition add_demo_data (demo_dict : list (Z * var_info)) (st : state)
  : result state :=
  let st1 := set_var_ranges "GID" "label"
               (add_variable "GID" "Patient ID" "String" "Demographics"
                             "Basic Information" st) in
  let st2 := set_var_ranges "DIAG" "1:Positive;0:Negative"
               (add_variable "DIAG" "Diagnosis" "category" "Demographics"
                             "Basic Information" st1) in
  let st3 := declare_vars demo_dict st2 in
  mira ← for_each (demo_patient demo_dict) (src_data st3) (mira_data st3);
  Ok (with_mira mira st3).

(** ** Aggregation engine: case notification *)

Definition case_cell (data : patient) (entry : Z * var_info) : result string :=
  val ← raw_cell (d_case data) entry.1;
  match v_idict entry.2 with
  | Some idict => dict_get val idict
  | None => Ok val
  end.

Definition case_patient (case_dict : list (Z * var_info))
    (p : string * patient) (mira : list (string * list string))
  : result (list (string * list string)) :=
  let '(id, data) := p in
  row ← od_item id mira;
  cells ← map_each (case_cell data) case_dict;
  Ok (od_set id (row ++ cells) mira).

Definition add_case_data (case_dict : list (Z * var_info)) (st : state)
  : result state :=
  let st1 := declare_vars case_dict st in
  mira ← for_each (case_patient case_dict) (src_data st1) (mira_data st1);
  Ok (with_mira mira st1).

(** ** Aggregation engine: metabolic panel *)

(** The maximum length of a series over the store. *)
Definition max_series_len {A} (series : patient → option (list A))
    (src : list (string * patient)) : nat :=
  foldl (fun max_len p =>
           if Py.truthy_list (series p.2)
           then match series p.2 with
                | Some s => Nat.max max_len (length s)
                | None => max_len
                end
           else max_len) 0%nat src.

Definition pico_declare_name (pico_info : gmap string pico_entry) (i : nat)
    (name : string) (st : state) : result state :=
  info ← dict_get name pico_info;
  Ok (add_variable (name +:+ "_" +:+ Py.str i)
                   (pi_title info +:+ " day " +:+ Py.str i) "float" "Laboratory"
                   ("Metabolic Panel Day " +:+ Py.str i) st).

Definition pico_declare_day (pico_names : list string)
    (pico_info : gmap string pico_entry) (i : nat) (st : state) : result state :=
  for_each (pico_declare_name pico_info i) pico_names
    (add_variable ("DOPANEL_" +:+ Py.str i)
                  ("Date of metabolic panel " +:+ Py.str i) "date" "Laboratory"
                  ("Metabolic Panel Day " +:+ Py.str i) st).

(** The cells of one panel: its date and one value per analyte. *)
Definition pico_block (pico_names : list string) (pico_info : gmap string pico_entry)
    (pico : list string) : result (list string) :=
  date ← Py.getitem pico 6;
  vals ← map_each (fun name => info ← dict_get name pico_info;
                               Py.getitem pico (pi_column info)) pico_names;
  Ok (date :: vals).

Definition pico_cells (pico_names : list string) (pico_info : gmap string pico_entry)
    (count : nat) (data : patient) : result (list string) :=
  if Py.truthy_list (d_pico data) then
    let series := match d_pico data with Some s => s | None => [] end in
    let count1 := length series in
    blocks ← map_each (pico_block pico_names pico_info) series;
    Ok (concat blocks ++
        replicate (count - count1 * (1 + length pico_names)) sentinel)
  else Ok (replicate count sentinel).

Definition pico_patient (pico_names : list string) (pico_info : gmap string pico_entry)
    (count : nat) (p : string * patient) (mira : list (string * list string))
  : result (list (string * list string)) :=
  let '(id, data) := p in
  row ← od_item id mira;
  cells ← pico_cells pico_names pico_info count data;
  Ok (od_set id (row ++ cells) mira).

Definition add_pico_data (pico_names : list string)
    (pico_info : gmap string pico_entry) (st : state) : result state :=
  let max_len := max_series_len d_pico (src_data st) in
  let count := (max_len * (1 + length pico_names))%nat in
  st1 ← for_each (pico_declare_day pico_names pico_info) (seq 1 max_len) st;
  mira ← for_each (pico_patient pico_names pico_info count) (src_data st1)
                  (mira_data st1);
  Ok (with_mira mira st1).


(** ** Aggregation engine: viral load (qPCR) *)

(** The operations on Python floats that [add_qpcr_data] uses. *)
Class FloatOps : Type := {
  float : Type;
  float_of_str : string → result float;  (* float(s); ValueError *)
  log10_1p : float → result float;       (* math.log10(1 + x); ValueError *)
  float_lt : float → float → bool;       (* x < y *)
  float_add : float → float → float;     (* x + y *)
  float_div : float → nat → float;       (* x / n, for n > 0 *)
  float_bool : float → bool;             (* truth value: x != 0 *)
  float_str : float → string             (* str(x) *)
}.

Section qpcr.
Context `{FloatOps}.

(** [max(a, b)] and [min(a, b)]: the first argument wins ties. *)
Definition py_max (a b : float) : float := if float_lt a b then b else a.
Definition py_min (a b : float) : float := if float_lt b a then b else a.

(** The four running statistics; [add_qpcr_data] assigns them together, so
    they are None together. *)
Record qpcr_stats : Type := mk_stats {
  first_qpcr : float;
  max_qpcr : float;
  min_qpcr : float;
  ave_qpcr : float
}.

(** Truth value of [first_qpcr]: neither None nor zero. *)
Definition first_truthy (acc : option qpcr_stats) : bool :=
  match acc with
  | Some a => float_bool (first_qpcr a)
  | None => false
  end.

Definition to_fval (convert_qpcr_log : bool) (value : string) : result float :=
  x ← float_of_str value;
  if convert_qpcr_log then log10_1p x else Ok x.

(** One step of the statistics: the body of [if value:] without the rewrite. *)
Definition stats_step (acc : option qpcr_stats) (fval : float) : option qpcr_stats :=
  match acc with
  | Some a =>
      if float_bool (first_qpcr a)
      then Some (mk_stats (first_qpcr a) (py_max (max_qpcr a) fval)
                          (py_min (min_qpcr a) fval) (float_add (ave_qpcr a) fval))
      else Some (mk_stats fval fval fval fval)
  | None => Some (mk_stats fval fval fval fval)
  end.

(** The first loop over the series: the statistics, the count [slen] and the
    series with every non-empty value rewritten in place. *)
Fixpoint scan_series (convert_qpcr_log : bool) (series : list qpcr_sample)
    (acc : option qpcr_stats) (slen : nat)
  : result (list qpcr_sample * option qpcr_stats * nat) :=
  match series with
  | [] => Ok ([], acc, slen)
  | qpcr :: rest =>
      if Py.truthy (q_vload qpcr) then
        fval ← to_fval convert_qpcr_log (q_vload qpcr);
        '(rest', acc', slen') ←
          scan_series convert_qpcr_log rest (stats_step acc fval) (S slen);
        Ok (mk_sample (q_idx qpcr) (q_date qpcr) (float_str fval) :: rest',
            acc', slen')
      else
        '(rest', acc', slen') ← scan_series convert_qpcr_log rest acc slen;
        Ok (qpcr :: rest', acc', slen')
  end.

(** The four derived cells PCR, PCR_MAX, PCR_MIN, PCR_AVE. *)
Definition derived_cells (acc : option qpcr_stats) (slen : nat) : list string :=
  match acc with
  | Some a =>
      if float_bool (first_qpcr a)
      then [float_str (first_qpcr a); float_str (max_qpcr a);
            float_str (min_qpcr a); float_str (float_div (ave_qpcr a) slen)]
      else replicate 4 sentinel
  | None => replicate 4 sentinel
  end.

(** The second loop: one (date, value) pair per sample. *)
Definition slot_cells (series : list qpcr_sample) : list string :=
  concat (map (fun qpcr => [q_date qpcr; q_vload qpcr]) series).

(** The row part of one patient: the rewritten series and the cells appended. *)
Definition qpcr_cells (convert_qpcr_log : bool) (count : nat)
    (series : list qpcr_sample) : result (list qpcr_sample * list string) :=
  match series with
  | _ :: _ =>
      let count1 := length series in
      '(series', acc, slen) ← scan_series convert_qpcr_log series None 0;
      Ok (series',
          derived_cells acc slen ++ slot_cells series' ++
          replicate (count - 4 - count1 * 2) sentinel)
  | [] => Ok ([], replicate count sentinel)
  end.

Definition with_qpcr (series : list qpcr_sample) (data : patient) : patient :=
  mk_patient (d_group data) (d_outcome data) (d_sex data) (d_demo data)
             (d_case data) (d_pico data) series.

(** The loop state is the pair of the store entries already visited (their
    series rewritten) and the output rows. *)
Definition qpcr_patient (convert_qpcr_log : bool) (count : nat)
    (p : string * patient)
    (acc : list (string * patient) * list (string * list string))
  : result (list (string * patient) * list (string * list string)) :=
  let '(id, data) := p in
  let '(done, mira) := acc in
  row ← od_item id mira;
  '(series', cells) ← qpcr_cells convert_qpcr_log count (d_qpcr data);
  Ok (done ++ [(id, with_qpcr series' data)], od_set id (row ++ cells) mira).

Definition qpcr_declare_day (log_str : string) (i : nat) (st : state) : state :=
  add_variable ("PCR_" +:+ Py.str i)
               ("EBOV copies/mL plasma" +:+ log_str +:+ " day " +:+ Py.str i)
               "float" "Laboratory" ("Viral Load (qPCR) day " +:+ Py.str i)
    (add_variable ("DOPCR_" +:+ Py.str i) ("Date of qPCR " +:+ Py.str i) "date"
                  "Laboratory" ("Viral Load (qPCR) day " +:+ Py.str i) st).

Definition add_qpcr_data (convert_qpcr_log : bool) (st : state) : result state :=
  let max_len := max_series_len (fun data => Some (d_qpcr data)) (src_data st) in
  let count := (4 + max_len * 2)%nat in
  let log_str := if convert_qpcr_log then " (log units)" else "" in
  let summary := "Viral Load (qPCR) summary" in
  let st1 := add_variable "PCR" ("First measured viral load" +:+ log_str)
                          "float" "Laboratory" summary st in
  let st2 := add_variable "PCR_MAX" ("Maximum measured viral load" +:+ log_str)
                          "float" "Laboratory" summary st1 in
  let st3 := add_variable "PCR_MIN" ("Minimum measured viral load" +:+ log_str)
                          "float" "Laboratory" summary st2 in
  let st4 := add_variable "PCR_AVE" ("Averaged viral load" +:+ log_str)
                          "float" "Laboratory" summary st3 in
  let st5 := foldl (fun st i => qpcr_declare_day log_str i st) st4 (seq 1 max_len) in
  '(src, mira) ← for_each (qpcr_patient convert_qpcr_log count) (src_data st5)
                          ([], mira_data st5);
  Ok (with_src src (with_mira mira st5)).

End qpcr.


(** ** Aggregation engine: sequencing data *)

(** [for id in mira_data: row.append(data[var][id] if id in data[var] else "")]. *)
Definition seq_column (data : gmap string (gmap string string))
    (var : string) (mira : list (string * list string))
  : result (list (string * list string)) :=
  map_each (fun '(id, row) =>
              inner ← dict_get var data;
              Ok (id, row ++ [match inner !! id with Some v => v | None => "" end]))
           mira.

Definition seq_declare_snp (p : string * string) (st : state) : state :=
  set_var_ranges p.1 "1:Yes;0:No"
    (add_variable p.1 p.2 "category" "Sequencing" "Viral SNPs" st).

Definition seq_declare_af (p : string * string) (st : state) : state :=
  add_variable p.1 p.2 "float" "Sequencing" "Allele Frequencies" st.

Definition add_seq_data
    (snp_vars : list (string * string)) (snp_data : gmap string (gmap string string))
    (af_vars : list (string * string)) (af_data : gmap string (gmap string string))
    (cl_vars : list (string * string)) (cl_data : gmap string (gmap string string))
    (st : state) : result state :=
  let st1 := foldl (fun st p => seq_declare_snp p st) st snp_vars in
  let st2 := foldl (fun st p => seq_declare_af p st) st1 af_vars in
  t1 ← od_item "CLUST" cl_vars;
  let st3 := set_var_ranges "CLUST" "1:Cluster 1;2:Cluster 2;3:Cluster 3"
               (add_variable "CLUST" t1 "category" "Sequencing" "Clustering" st2) in
  t2 ← od_item "MCLUST" cl_vars;
  let st4 := add_variable "MCLUST" t2 "int" "Sequencing" "Clustering" st3 in
  t3 ← od_item "SCLUST" cl_vars;
  let st5 := set_var_ranges "SCLUST" "1:Sub-cluster a;2:Sub-cluster b;3:Sub-cluster c"
               (add_variable "SCLUST" t3 "category" "Sequencing" "Clustering" st4) in
  t4 ← od_item "MSCLUST" cl_vars;
  let st6 := add_variable "MSCLUST" t4 "int" "Sequencing" "Clustering" st5 in
  m1 ← for_each (seq_column snp_data) (od_keys snp_vars) (mira_data st6);
  m2 ← for_each (seq_column af_data) (od_keys af_vars) m1;
  m3 ← for_each (seq_column cl_data) (od_keys cl_vars) m2;
  Ok (with_mira m3 st6).

(** ** Exporters *)

(** [save_data]: the rows written, header first; an empty cell is written as
    the sentinel (and the stored row is overwritten with what is written). *)
Definition render_cell (c : string) : string :=
  if Py.truthy c then c else sentinel.

Definition save_data (st : state) : list (list string) * state :=
  let rows := map (fun p => (p.1, map render_cell p.2)) (mira_data st) in
  (variables st :: map snd rows, with_mira rows st).

(** [save_dict]: one row per declared variable. *)
Definition dict_export_row (st : state) (var : string) : result (list string) :=
  match var_ranges st !! var with
  | Some r =>
      if Py.truthy r then
        title ← dict_get var (var_titles st);
        type ← dict_get var (var_types st);
        Ok [title; type; r]
      else
        title ← dict_get var (var_titles st);
        type ← dict_get var (var_types st);
        Ok [title; type]
  | None =>
      title ← dict_get var (var_titles st);
      type ← dict_get var (var_types st);
      Ok [title; type]
  end.

Definition save_dict (st : state) : result (list (list string)) :=
  map_each (dict_export_row st) (variables st).

(** ** The main program *)

(** The input tables of a run, as read from the files named in the script. *)
Record inputs : Type := mk_inputs {
  in_ignore : list string;                 (* lines of idignore *)
  in_master : list (list string);
  in_demo : list (list string);
  in_demo_dict : list (list string);
  in_case : list (list string);
  in_case_dict : list (list string);
  in_pico : list (list string);
  in_pico_names : list string;             (* result of load_pico_info *)
  in_pico_info : gmap string pico_entry;
  in_snp_vars : list (string * string);    (* result of load_snp_data *)
  in_snp_data : gmap string (gmap string string);
  in_af_vars : list (string * string);     (* result of load_af_data *)
  in_af_data : gmap string (gmap string string);
  in_clusters : list (list string)
}.

(** What the loading part of the script leaves in memory. *)
Record loaded : Type := mk_loaded {
  ld_src : list (string * patient);
  ld_demo_dict : list (Z * var_info);
  ld_case_dict : list (Z * var_info);
  ld_clusters : option (list (string * string) * gmap string (gmap string string))
}.

Definition load_all (aggregate_seq_data : bool) (i : inputs) : result loaded :=
  let ignore_id := load_ignore (in_ignore i) in
  src1 ← load_master ignore_id (in_master i) [];
  src2 ← load_demo (in_demo i) src1;
  demo_dict ← load_dict (in_demo_dict i);
  src3 ← load_case (in_case i) src2;
  case_dict ← load_dict (in_case_dict i);
  src4 ← load_pico_data (in_pico i) src3;
  if aggregate_seq_data then
    cl ← load_cluster_data (in_clusters i);
    Ok (mk_loaded src4 demo_dict case_dict (Some cl))
  else Ok (mk_loaded src4 demo_dict case_dict None).

Definition aggregate `{FloatOps} (aggregate_seq_data convert_qpcr_log : bool)
    (i : inputs) : result state :=
  ld ← load_all aggregate_seq_data i;
  st1 ← add_demo_data (ld_demo_dict ld) (with_src (ld_src ld) init_state);
  st2 ← add_case_data (ld_case_dict ld) st1;
  st3 ← add_pico_data (in_pico_names i) (in_pico_info i) st2;
  st4 ← add_qpcr_data convert_qpcr_log st3;
  match ld_clusters ld with
  | Some (cl_vars, cl_data) =>
      add_seq_data (in_snp_vars i) (in_snp_data i) (in_af_vars i) (in_af_data i)
                   cl_vars cl_data st4
  | None => Ok st4
  end.


(** ** The downstream converters (makecsv.py, makespss.py) *)

Module Convert.

(** ASCII [str.lower]. *)
Definition lower_char (c : ascii) : ascii :=
  let n := Ascii.nat_of_ascii c in
  if (65 <=? n)%nat && (n <=? 90)%nat then Ascii.ascii_of_nat (n + 32) else c.

Fixpoint lower (s : string) : string :=
  match s with
  | EmptyString => EmptyString
  | String c s' => String (lower_char c) (lower s')
  end.

(** What the converters read from config.mira. *)
Record config : Type := mk_config {
  data_name : string;
  dict_name : string;
  miss_src : string
}.

Definition config_line (line : string) (c : config) : result config :=
  match Py.split "=" (Py.strip line) with
  | [key; val] =>
      let c1 := if bool_decide (key = "data.source")
                then mk_config val (dict_name c) (miss_src c) else c in
      let c2 := if bool_decide (key = "data.dictionary")
                then mk_config (data_name c1) val (miss_src c1) else c1 in
      let c3 := if bool_decide (key = "missing.string")
                then mk_config (data_name c2) (dict_name c2) val else c2 in
      Ok c3
  | _ => Raise ValueError
  end.

Definition read_config (lines : list string) : result config :=
  for_each config_line lines (mk_config "" "" sentinel).

(** [codes[parts[0]] = parts[1]] for one piece of a code spec. *)
Definition code_piece (piece : string) (codes : gmap string string)
  : result (gmap string string) :=
  let parts := Py.split ":" piece in
  k ← Py.getitem parts 0;
  v ← Py.getitem parts 1;
  Ok (<[k := v]> codes).

Definition read_codes (spec : string) : result (gmap string string) :=
  for_each code_piece (Py.split ";" spec) ∅.

(** The three parallel lists that the dictionary loop builds. *)
Record dictionary : Type := mk_dictionary {
  long_names : list string;
  var_types : list string;
  code_dict : list (gmap string string)
}.

Definition dictionary_row (row : list string) (d : dictionary) : result dictionary :=
  name ← Py.getitem row 0;
  type ← Py.getitem row 1;
  codes ← (if bool_decide (lower type = "category") && (2 <? length row)%nat
           then spec ← Py.getitem row 2; read_codes spec
           else Ok ∅);
  Ok (mk_dictionary (long_names d ++ [name]) (var_types d ++ [type])
                    (code_dict d ++ [codes])).

Definition read_dictionary (rows : list (list string)) : result dictionary :=
  for_each dictionary_row rows (mk_dictionary [] [] []).

(** makecsv.py: the translation of one cell at column [index]. *)
Definition convert_cell (d : dictionary) (miss_src miss_dst : string)
    (index : nat) (value : string) : result string :=
  type ← Py.getitem (var_types d) (Z.of_nat index);
  value1 ← (if bool_decide (type = "category")
            then codes ← Py.getitem (code_dict d) (Z.of_nat index);
                 Ok (match codes !! value with Some v => v | None => value end)
            else Ok value);
  Ok (if bool_decide (value1 = miss_src) then miss_dst else value1).

Definition convert_row (d : dictionary) (miss_src miss_dst : string)
    (row : list string) : result (list string) :=
  map_each (fun p => convert_cell d miss_src miss_dst p.1 p.2)
           (zip (seq 0 (length row)) row).

(** makecsv.py: the rows written, from the dictionary rows and the data rows. *)
Definition makecsv (miss_src miss_dst : string)
    (dict_rows data_rows : list (list string)) : result (list (list string)) :=
  d ← read_dictionary dict_rows;
  body ← skip_header data_rows;
  out ← map_each (convert_row d miss_src miss_dst) body;
  Ok (long_names d :: out).

(** makespss.py *)
Definition spss_type (mtype : string) : string :=
  if bool_decide (mtype = "int") then "F"
  else if bool_decide (mtype = "float") then "f"
  else if bool_decide (mtype = "date") then "DATE"
  else "A".

End Convert.


(** ** An exact implementation of the float interface

    Rationals stand for the floats that are computed without rounding: decimal
    literals, their sums, comparisons and quotients.  [log10_1p] is exact when
    [1 + x] is a power of ten and is rounded to an integer elsewhere; [float_str]
    prints the finite decimal expansion, which is Python's [str] for the short
    values used below.  It serves to run the code on concrete readings. *)

Module ExactFloat.
Import QArith_base Qreduction.
#[local] Close Scope Q_scope.

Definition of_Z (z : Z) : Q := Qmake z 1.

(** Digits, optionally followed by a point and digits. *)
Definition parse_unsigned (s : string) : result Q :=
  match Py.split "." s with
  | [ip] =>
      z ← Py.unsigned_value ip; Ok (of_Z z)
  | [ip; fp] =>
      match ip, fp with
      | EmptyString, EmptyString => Raise ValueError
      | _, _ =>
          match Py.digits_value ip 0, Py.digits_value fp 0 with
          | Some a, Some b =>
              Ok (Qred (Qplus (of_Z a)
                              (Qdiv (of_Z b) (of_Z (10 ^ Z.of_nat (String.length fp))))))
          | _, _ => Raise ValueError
          end
      end
  | _ => Raise ValueError
  end.

Definition parse (s : string) : result Q :=
  match Py.strip s with
  | String "-"%char s' => q ← parse_unsigned s'; Ok (Qopp q)
  | String "+"%char s' => parse_unsigned s'
  | s' => parse_unsigned s'
  end.

(** Number of decimal digits of [z] minus one, for [z >= 1]. *)
Fixpoint ilog10 (fuel : nat) (z : Z) : Z :=
  match fuel with
  | O => 0
  | S fuel' => if (z <? 10)%Z then 0%Z else (1 + ilog10 fuel' (z / 10))%Z
  end.

Definition log10p (x : Q) : result Q :=
  let q := Qred (Qplus (of_Z 1) x) in
  if (Qnum q <=? 0)%Z then Raise ValueError
  else if (Z.pos (Qden q) <=? Qnum q)%Z
       then Ok (of_Z (ilog10 (Z.to_nat (Qnum q)) (Qnum q / Z.pos (Qden q))))
       else Ok (of_Z (- ilog10 (Pos.to_nat (Qden q)) (Z.pos (Qden q) / Qnum q))).

Definition lt (a b : Q) : bool := negb (Qle_bool b a).

Definition div (a : Q) (n : nat) : Q := Qred (Qdiv a (of_Z (Z.of_nat n))).

Definition nonzero (a : Q) : bool := negb (Qnum a =? 0)%Z.

Fixpoint frac_digits (fuel : nat) (r d : Z) : string :=
  match fuel with
  | O => EmptyString
  | S fuel' =>
      if (r =? 0)%Z then EmptyString
      else pretty (10 * r / d)%Z +:+ frac_digits fuel' ((10 * r) mod d)%Z d
  end.

Definition str (a : Q) : string :=
  let q := Qred a in
  let n := Z.abs (Qnum q) in
  let d := Z.pos (Qden q) in
  let frac := frac_digits 17 (n mod d)%Z d in
  (if (Qnum q <? 0)%Z then "-" else "") +:+ pretty (n / d)%Z +:+ "." +:+
  (match frac with EmptyString => "0" | _ => frac end).

#[export] Instance ops : FloatOps := {|
  float := Q;
  float_of_str := parse;
  log10_1p := log10p;
  float_lt := lt;
  float_add := fun a b => Qred (Qplus a b);
  float_div := div;
  float_bool := nonzero;
  float_str := str
|}.

End ExactFloat.

#[export] Existing Instance ExactFloat.ops.


(** ** Vocabulary of the statements *)

(** A master row that creates or extends the record of [id]. *)
Definition admits_row (ignore_id : list string) (row : list string) (id : string) : Prop :=
  Py.getitem row 1 = Ok id ∧ (id ∉ ignore_id) ∧
  ∃ group, Py.getitem row 10 = Ok group ∧ group ≠ "".

(** An identifier the master table admits: some row after the header does. *)
Definition master_admits (ignore_id : list string) (rows : list (list string))
    (id : string) : Prop :=
  ∃ row, row ∈ tail rows ∧ admits_row ignore_id row id.

(** A row with cells appended. *)
Definition app_row (p : string * list string) (cells : list string)
  : string * list string := (p.1, p.2 ++ cells).

(** The store is a dictionary, the rows have the keys of the store in the same
    order, and every row has one cell per declared variable. *)
Definition aligned (st : state) : Prop :=
  od_wf (src_data st) ∧
  od_keys (mira_data st) = od_keys (src_data st) ∧
  Forall (fun p => length p.2 = length (variables st)) (mira_data st).

Section qpcr_vocabulary.
Context `{FloatOps}.

(** How the first loop rewrites one sample. *)
Definition rewritten (convert_qpcr_log : bool) (q q' : qpcr_sample) : Prop :=
  q_idx q' = q_idx q ∧ q_date q' = q_date q ∧
  if Py.truthy (q_vload q)
  then ∃ fval, to_fval convert_qpcr_log (q_vload q) = Ok fval ∧
               q_vload q' = float_str fval
  else q_vload q' = "".

(** The non-empty values of a series, in order. *)
Definition readings (series : list qpcr_sample) : list string :=
  filter (fun v => Py.truthy v = true) (map q_vload series).

(** The cells that [qpcr_patient] appends, and the record it leaves. *)
Definition qpcr_row_cells (log : bool) (count : nat) (data : patient)
  : result (list string) :=
  '(_, cells) ← qpcr_cells log count (d_qpcr data); Ok cells.

Definition qpcr_rewrite (log : bool) (count : nat) (p : string * patient)
  : result (string * patient) :=
  '(series', _) ← qpcr_cells log count (d_qpcr p.2); Ok (p.1, with_qpcr series' p.2).

(** The value cell of a sample in its slot: empty for an empty reading;
    otherwise the reading read as a float, taken to [log10(1 + x)] when the
    conversion is on, and printed. *)
Definition slot_value (log : bool) (value cell : string) : Prop :=
  if bool_decide (value = "") then cell = ""
  else ∃ x, float_of_str value = Ok x ∧
            if log then ∃ y, log10_1p x = Ok y ∧ cell = float_str y
            else cell = float_str x.

(** The slot block of a sample: its date and its value cell. *)
Definition sample_block (log : bool) (q : qpcr_sample) (block : list string) : Prop :=
  ∃ cell, block = [q_date q; cell] ∧ slot_value log (q_vload q) cell.

(** The viral-load cells of a patient whose series has [k] samples: four
    derived cells, one slot block per sample of the series in source order,
    then [max_len - k] pairs of sentinels; all sentinels when the series is
    empty. *)
Definition qpcr_padded (log : bool) (max_len : nat) (data : patient)
    (part : list string) : Prop :=
  match d_qpcr data with
  | [] => part = replicate (4 + max_len * 2) sentinel
  | series =>
      ∃ derived blocks,
        length derived = 4%nat ∧
        Forall2 (sample_block log) series blocks ∧
        part = derived ++ concat blocks ++
               replicate ((max_len - length series) * 2) sentinel
  end.

End qpcr_vocabulary.

(** ** A small cohort to run the code on *)

Module Cohort.

(** A master row: identifier, sample index, date, viral load, group. *)
Definition master (id idx date vload group : string) : list string :=
  ["1"; id; "KGH"; idx; "plasma"; date; "a"; "b"; vload; "result"; group].

Definition header : list string := ["header"].

Definition tables : inputs := {|
  in_ignore := ["X9 "];
  in_master := [header;
                master "EP1" "1" "2014-06-01" "1000" "Epos";
                master "EP1" "2" "2014-06-03" "4000" "Epos";
                master "X9" "1" "2014-06-02" "5" "Epos";
                master "EN2" "1" "2014-06-04" "" "Eneg";
                master "Q7" "1" "2014-06-05" "" ""];
  in_demo := [header;
              ["1"; "EP1"; "x"; "Male"; "30"; "y"; "z"; "Died"];
              ["2"; "ZZ3"; "x"; "Male"; "41"; "y"; "z"; "Died"]];
  in_demo_dict := [["3"; "SEX"; "Sex"; "Demographics"; "Basic"; "category";
                    "1:Male;0:Female"];
                   ["7"; "OUT"; "Outcome"; "Demographics"; "Basic"; "String"]];
  in_case := [header; ["EP1"; "Yes"; "x"]];
  in_case_dict := [["1"; "FEVER"; "Fever"; "Clinical"; "Symptoms"; "category";
                    "1:Yes;0:No"]];
  in_pico := [header; ["a"; "b"; "c"; "EN2"; "d"; "e"; "2014-06-02"; "7.5"]];
  in_pico_names := ["ALB"];
  in_pico_info := {[ "ALB" := mk_pico "Albumin [g/dL]" 7 ]};
  in_snp_vars := [("SNP10", "SNP @10")];
  in_snp_data := {[ "SNP10" := {[ "EP-1" := "1" ]} ]};
  in_af_vars := [];
  in_af_data := ∅;
  in_clusters := [header; ["EP1"; "x"; "2.1a"]]
|}.

(** A state as the case-notification phase leaves it: two patients, two
    declared variables. *)
Definition two_patients : state :=
  mk_state
    [("A1", mk_patient "Epos" None None None None None
              [mk_sample "1" "d1" "9"; mk_sample "2" "d2" ""; mk_sample "3" "d3" "99"]);
     ("B2", mk_patient "Eneg" None None None None
              (Some [["a"; "b"; "c"; "B2"; "d"; "e"; "2014-06-02"; "7.5"]])
              [mk_sample "1" "d4" ""])]
    [("A1", ["A1"; "1"]); ("B2", ["B2"; "0"])]
    ["GID"; "DIAG"]
    ∅ ∅ ∅ [].

(** A state as the case-notification phase leaves it: three patients whose
    series have different lengths. *)
Definition panel (id date alb : string) : list string :=
  ["a"; "b"; "c"; id; "d"; "e"; date; alb].

Definition uneven_series : state :=
  mk_state
    [("A1", mk_patient "Epos" None None None None
              (Some [panel "A1" "2014-06-01" "3.1"; panel "A1" "2014-06-03" "2.8"])
              [mk_sample "1" "d1" "9"; mk_sample "2" "d2" ""; mk_sample "3" "d3" "99"]);
     ("B2", mk_patient "Eneg" None None None None
              (Some [panel "B2" "2014-06-02" "7.5"])
              [mk_sample "1" "d4" "1000"; mk_sample "2" "d5" ""]);
     ("C3", mk_patient "Eneg" None None None None None [])]
    [("A1", ["A1"; "1"]); ("B2", ["B2"; "0"]); ("C3", ["C3"; "0"])]
    ["GID"; "DIAG"]
    ∅ ∅ ∅ [].

End Cohort.

(** The slot block of one panel: the date of the panel, cell 6 of its row, and
    for each analyte name in order the cell of the row at the column that the
    panel description gives for the name. *)
Definition panel_block (pico_names : list string) (pico_info : gmap string pico_entry)
    (pico : list string) (block : list string) : Prop :=
  ∃ date vals,
    block = date :: vals ∧ pico !! 6%nat = Some date ∧
    Forall2 (fun name val => ∃ entry, pico_info !! name = Some entry ∧
                                      Py.getitem pico (pi_column entry) = Ok val)
            pico_names vals.

(** The metabolic-panel cells of a patient whose series has [k] panels: one
    slot block per panel of the series in source order, then [max_len - k]
    blocks of sentinels; all sentinels when the patient has no series. *)
Definition pico_padded (pico_names : list string) (pico_info : gmap string pico_entry)
    (max_len : nat) (data : patient) (part : list string) : Prop :=
  match d_pico data with
  | Some (pico :: series) =>
      ∃ blocks,
        Forall2 (panel_block pico_names pico_info) (pico :: series) blocks ∧
        part = concat blocks ++
               replicate ((max_len - length (pico :: series)) * (1 + length pico_names))
                         sentinel
  | _ => part = replicate (max_len * (1 + length pico_names)) sentinel
  end.

(** A malformed row of a variable dictionary: the position field is ASCII text
    that is not an integer literal, or there are fewer than the six mandatory
    fields, or the row has exactly seven fields and its code spec, the seventh,
    has a non-empty part that does not split at colons into exactly a code and
    a label. *)
Inductive malformed_dict_row (row : list string) : Prop :=
  | bad_position r0 rest :
      row = r0 :: rest → Py.is_ascii r0 = true → is_ok (Py.int r0) = false →
      malformed_dict_row row
  | too_few_fields :
      (length row < 6)%nat → malformed_dict_row row
  | bad_code_pair rstr p :
      length row = 7%nat → row !! 6%nat = Some rstr →
      p ∈ Py.split ";" rstr → p ≠ "" → length (Py.split ":" p) ≠ 2%nat →
      malformed_dict_row row.

(** No pair of the entry's code spec has an empty label. *)
Definition no_empty_label (info : var_info) : Prop :=
  ∀ r p code, v_ranges info = Some r → p ∈ Py.split ";" r →
              unpack_pair p ≠ Ok (code, "").

(** The variable names of the group hierarchy, group by group and table by
    table. *)
Definition hierarchy_names (groups : list (string * list (string * list string)))
  : list string :=
  concat (map (fun g => concat (map snd g.2)) groups).

(** [declares G st st']: [st'] is reached from [st] by calls of [add_variable],
    calls of [set_var_ranges] with a range string satisfying [G], and changes
    of the store and of the rows.  Every aggregation phase is such a path. *)
Inductive declares (G : string → Prop) (st : state) : state → Prop :=
  | declares_refl : declares G st st
  | declares_add st' name title type gname tname :
      declares G st st' →
      declares G st (add_variable name title type gname tname st')
  | declares_ranges st' name ranges :
      declares G st st' → G ranges →
      declares G st (set_var_ranges name ranges st')
  | declares_rows st' src mira :
      declares G st st' →
      declares G st (with_src src (with_mira mira st')).

(** The metadata of a state is complete: the hierarchy lists exactly the
    declared variables, and each of them has a title and a type. *)
Definition metadata_complete (st : state) : Prop :=
  hierarchy_names (var_groups st) ≡ₚ variables st ∧
  ∀ var, var ∈ variables st →
         is_Some (var_titles st !! var) ∧ is_Some (var_types st !! var).

(** The group cell and the qPCR sample that a master row contributes to the
    record of [id]; [None] when the row is for another identifier, is ignored
    or has an empty group cell. *)
Definition admitted (ignore_id : list string) (id : string) (row : list string)
  : option (string * qpcr_sample) :=
  if bool_decide (row !! 1%nat = Some id) && bool_decide (id ∉ ignore_id) then
    match row !! 3%nat, row !! 5%nat, row !! 8%nat, row !! 10%nat with
    | Some idx, Some date, Some vload, Some group =>
        if Py.truthy group then Some (group, mk_sample idx date vload) else None
    | _, _, _, _ => None
    end
  else None.

(** The record built from the contributions of the master rows of one
    identifier, in file order. *)
Definition master_record (l : list (string * qpcr_sample)) : option patient :=
  match l with
  | [] => None
  | (group, _) :: _ => Some (mk_patient group None None None None None l.*2)
  end.

(** The rows of a table whose cell at position [col] is [id]. *)
Definition rows_of (col : nat) (id : string) (rows : list (list string))
  : list (list string) :=
  filter (fun row => row !! col = Some id) rows.

(** What one demographics row, one case-notification row and the panel rows
    of a patient do to the patient's record. *)
Definition demo_update (data : patient) (row : list string) : patient :=
  mk_patient (d_group data) (row !! 7%nat) (row !! 3%nat) (Some row)
             (d_case data) (d_pico data) (d_qpcr data).

Definition case_update (data : patient) (row : list string) : patient :=
  mk_patient (d_group data) (d_outcome data) (d_sex data) (d_demo data)
             (Some row) (d_pico data) (d_qpcr data).

Definition pico_update (data : patient) (row : list string) : patient :=
  mk_patient (d_group data) (d_outcome data) (d_sex data) (d_demo data)
             (d_case data) (Some (default [] (d_pico data) ++ [row])) (d_qpcr data).

(** No character of the string is an ASCII digit. *)
Definition no_digit (s : string) : Prop :=
  ∀ i c, String.get i s = Some c → Py.is_digit c = false.

(** The character of [s] at position [i] as a string, empty when absent. *)
Definition char_or_empty (s : string) (i : nat) : string :=
  match String.get i s with
  | Some c => String c EmptyString
  | None => ""
  end.

(** The sequencing cell of patient [id] for variable [var]. *)
Definition seq_cell (data : gmap string (gmap string string)) (id var : string)
  : string :=
  match data !! var with
  | Some inner => default "" (inner !! id)
  | None => ""
  end.

(** The variable names of slot [i] of the two repeated-measurement families. *)
Definition pico_day_vars (pico_names : list string) (i : nat) : list string :=
  ("DOPANEL_" +:+ Py.str i) :: map (fun name => name +:+ "_" +:+ Py.str i) pico_names.

Definition qpcr_day_vars (i : nat) : list string :=
  ["DOPCR_" +:+ Py.str i; "PCR_" +:+ Py.str i].

(** The diagnosis cell of a patient. *)
Definition diag_cell (data : patient) : string :=
  if bool_decide (d_group data = "Epos") then "1" else "0".

(** The values that the lines of config.mira assign to [key], in order. *)
Definition config_values (key : string) (lines : list string) : list string :=
  omap (fun line => match Py.split "=" (Py.strip line) with
                    | [k; v] => if bool_decide (k = key) then Some v else None
                    | _ => None
                    end) lines.


(** The position that a dictionary row declares. *)
Definition row_position (row : list string) : option Z :=
  match row with
  | r0 :: _ => match Py.int r0 with Ok col => Some col | Raise _ => None end
  | [] => None
  end.

(** The rows of a dictionary file that declare position [col], in file order. *)
Definition rows_at (col : Z) (rows : list (list string)) : list (list string) :=
  filter (fun row => row_position row = Some col) rows.

(** The code map of a code spec: the non-empty parts of the spec are
    [code:label] pairs; a label is sent to the code of the last pair that has
    it, and the empty string to itself when no pair has it for label. *)
Definition code_map_of (rstr : string) (idict : gmap string string) : Prop :=
  ∃ pairs : list (string * string),
    Forall2 (fun p cl => Py.split ":" p = [cl.1; cl.2])
            (filter (fun p => p ≠ "") (Py.split ";" rstr)) pairs ∧
    ∀ label,
      idict !! label =
        match last (filter (fun cl => cl.2 = label) pairs) with
        | Some cl => Some cl.1
        | None => if bool_decide (label = "") then Some "" else None
        end.

(** The entry that a dictionary row describes: fields 1 to 5 are the name,
    alias, group, table and type; a row of seven fields gives the entry its
    seventh field as code spec, with the code map of that spec, and a row of
    any other length gives it neither. *)
Definition describes (row : list string) (info : var_info) : Prop :=
  row !! 1%nat = Some (v_name info) ∧ row !! 2%nat = Some (v_alias info) ∧
  row !! 3%nat = Some (v_group info) ∧ row !! 4%nat = Some (v_table info) ∧
  row !! 5%nat = Some (v_type info) ∧
  if bool_decide (length row = 7%nat)
  then ∃ r idict, row !! 6%nat = Some r ∧ v_ranges info = Some r ∧
                  v_idict info = Some idict ∧ code_map_of r idict
  else v_ranges info = None ∧ v_idict info = None.


(** * Properties *)

(** ** The error monad and the loops *)

Lemma bind_ok {A B} (m : result A) (f : A → result B) (b : B) :
  (m ≫= f) = Ok b → ∃ a, m = Ok a ∧ f a = Ok b.
Proof. destruct m as [a|e]; [by exists a | done]. Qed.

(** Splits a hypothesis [x ← m; k = Ok b] into its two runs. *)
Ltac bind_inv H :=
  let a := fresh "a" in
  let Ha := fresh "Hrun" in
  apply bind_ok in H as (a & Ha & H).

(** Refutes a hypothesis [E : t = Raise e] for a closed run [t] that ends
    normally, by running it. *)
Ltac run_ok E :=
  match type of E with
  | ?t = Raise _ =>
      let H := fresh "Hok" in
      assert (is_ok t = true) as H by (vm_compute; reflexivity);
      rewrite E in H; discriminate H
  end.

Lemma for_each_cons {A S} (body : A → S → result S) x xs s :
  for_each body (x :: xs) s = (s' ← body x s; for_each body xs s').
Proof. done. Qed.

Lemma map_each_cons {A B} (f : A → result B) x xs :
  map_each f (x :: xs) = (y ← f x; ys ← map_each f xs; Ok (y :: ys)).
Proof. done. Qed.

Lemma for_each_app {A S} (body : A → S → result S) (xs ys : list A) (s : S) :
  for_each body (xs ++ ys) s = (for_each body xs s ≫= for_each body ys).
Proof.
  revert s. induction xs as [|x xs IH]; intros s; simpl; [done|].
  destruct (body x s) as [s'|e]; simpl; [apply IH | done].
Qed.

(** An invariant of the loop state is kept by a loop that ends normally. *)
Lemma for_each_invariant {A S} (P : S → Prop) (body : A → S → result S) xs :
  (∀ x s s', x ∈ xs → P s → body x s = Ok s' → P s') →
  ∀ s s', P s → for_each body xs s = Ok s' → P s'.
Proof.
  induction xs as [|x xs IH]; intros Hstep s s' Hs Hrun; simpl in Hrun.
  - by inversion Hrun; subst.
  - bind_inv Hrun. eapply IH; [| |exact Hrun].
    + intros y t t' Hy. apply Hstep. by right.
    + eapply Hstep; [by left | exact Hs | exact Hrun0].
Qed.

(** A loop that ends normally ran every one of its steps normally. *)
Lemma for_each_ok_step {A S} (body : A → S → result S) xs s s' x :
  for_each body xs s = Ok s' → x ∈ xs → ∃ s1 s2, body x s1 = Ok s2.
Proof.
  revert s. induction xs as [|y xs IH]; intros s Hrun Hx.
  - by apply elem_of_nil in Hx.
  - simpl in Hrun. bind_inv Hrun.
    apply elem_of_cons in Hx as [->|Hx]; [by eauto | by eapply IH].
Qed.

Lemma map_each_length {A B} (f : A → result B) xs ys :
  map_each f xs = Ok ys → length ys = length xs.
Proof.
  revert ys. induction xs as [|x xs IH]; intros ys Hrun; simpl in Hrun.
  - by inversion Hrun.
  - bind_inv Hrun. bind_inv Hrun. inversion Hrun; subst. simpl. f_equal. by apply IH.
Qed.

Lemma map_each_lookup {A B} (f : A → result B) xs ys i x :
  map_each f xs = Ok ys → xs !! i = Some x → ∃ y, f x = Ok y ∧ ys !! i = Some y.
Proof.
  revert ys i. induction xs as [|x' xs IH]; intros ys i Hrun Hi; [done|].
  simpl in Hrun. bind_inv Hrun. bind_inv Hrun. inversion Hrun; subst.
  destruct i as [|i]; simpl in *.
  - inversion Hi; subst. by eauto.
  - by eapply IH.
Qed.

Lemma map_each_ok_elem {A B} (f : A → result B) xs ys x :
  map_each f xs = Ok ys → x ∈ xs → ∃ y, f x = Ok y.
Proof.
  intros Hrun [i Hi]%list_elem_of_lookup.
  destruct (map_each_lookup _ _ _ _ _ Hrun Hi) as (y & Hy & _). by eauto.
Qed.

Lemma map_each_total {A B} (f : A → result B) (g : A → B) xs :
  (∀ x, x ∈ xs → f x = Ok (g x)) → map_each f xs = Ok (map g xs).
Proof.
  induction xs as [|x xs IH]; intros Hf; simpl; [done|].
  rewrite Hf by (by left). simpl. rewrite IH; [done|].
  intros y Hy. apply Hf. by right.
Qed.

(** ** Ordered dictionaries *)

Section ordered_dict_facts.
Context {K V : Type} `{EqDecision K}.
Implicit Types (d : list (K * V)) (k : K) (v : V).

Lemma od_get_None d k : od_get k d = None ↔ k ∉ od_keys d.
Proof.
  unfold od_keys. induction d as [|[k' v'] d IH]; simpl.
  - split; [intros _; apply not_elem_of_nil | done].
  - rewrite not_elem_of_cons. destruct (decide (k = k')) as [->|Hne]; [|rewrite IH; tauto].
    split; [done | by intros []].
Qed.

Lemma od_get_Some_elem d k v : od_get k d = Some v → (k, v) ∈ d.
Proof.
  induction d as [|[k' v'] d IH]; simpl; [done|].
  destruct (decide (k = k')) as [->|]; [intros [= ->]; by left | intros; right; auto].
Qed.

Lemma od_get_is_Some d k : is_Some (od_get k d) ↔ k ∈ od_keys d.
Proof.
  destruct (od_get k d) eqn:E.
  - split; [intros _ | by eauto]. apply od_get_Some_elem in E.
    unfold od_keys. apply list_elem_of_fmap. by exists (k, v).
  - apply od_get_None in E. split; [by intros [] | done].
Qed.

Lemma od_elem_get d k v : od_wf d → (k, v) ∈ d → od_get k d = Some v.
Proof.
  unfold od_wf, od_keys. induction d as [|[k' v'] d IH]; simpl; intros Hwf Hin.
  - by apply elem_of_nil in Hin.
  - apply NoDup_cons in Hwf as [Hk' Hwf].
    apply elem_of_cons in Hin as [[= -> ->]|Hin].
    + by rewrite decide_True.
    + rewrite decide_False; [by apply IH|].
      intros ->. apply Hk'. apply list_elem_of_fmap. by exists (k', v).
Qed.

Lemma od_get_set_eq d k v : od_get k (od_set k v d) = Some v.
Proof.
  induction d as [|[k' v'] d IH]; simpl.
  - by rewrite decide_True.
  - destruct (decide (k = k')) as [->|Hne]; simpl.
    + by rewrite decide_True.
    + by rewrite decide_False.
Qed.

Lemma od_get_set_ne d k k' v : k ≠ k' → od_get k' (od_set k v d) = od_get k' d.
Proof.
  intros Hne. induction d as [|[k0 v0] d IH]; simpl.
  - by rewrite decide_False.
  - destruct (decide (k = k0)) as [->|]; simpl.
    + by rewrite !decide_False.
    + by destruct (decide (k' = k0)).
Qed.

Lemma od_set_present d k v :
  k ∈ od_keys d → od_keys (od_set k v d) = od_keys d.
Proof.
  unfold od_keys. induction d as [|[k' v'] d IH]; simpl; intros Hin.
  - by apply elem_of_nil in Hin.
  - destruct (decide (k = k')) as [->|Hne]; simpl; [done|].
    f_equal. apply IH. by apply elem_of_cons in Hin as [?|?].
Qed.

Lemma od_set_absent d k v : k ∉ od_keys d → od_set k v d = d ++ [(k, v)].
Proof.
  unfold od_keys. induction d as [|[k' v'] d IH]; simpl; intros Hin; [done|].
  apply not_elem_of_cons in Hin as [Hne Hin].
  rewrite decide_False by done. f_equal. by apply IH.
Qed.

Lemma od_keys_set_elem d k k' v :
  k' ∈ od_keys (od_set k v d) ↔ k' = k ∨ k' ∈ od_keys d.
Proof.
  destruct (decide (k ∈ od_keys d)) as [Hin|Hout].
  - rewrite od_set_present by done. naive_solver.
  - rewrite od_set_absent by done. unfold od_keys.
    rewrite fmap_app, elem_of_app. simpl. rewrite list_elem_of_singleton. naive_solver.
Qed.

Lemma od_set_wf d k v : od_wf d → od_wf (od_set k v d).
Proof.
  unfold od_wf. intros Hwf. destruct (decide (k ∈ od_keys d)) as [Hin|Hout].
  - by rewrite od_set_present.
  - rewrite od_set_absent by done. unfold od_keys in *. rewrite fmap_app. simpl.
    apply NoDup_app. split_and!; [done| |apply NoDup_singleton].
    intros x Hx ->%list_elem_of_singleton. done.
Qed.

Lemma od_set_elem d k v k' v' :
  (k', v') ∈ od_set k v d → (k' = k ∧ v' = v) ∨ (k', v') ∈ d.
Proof.
  induction d as [|[k0 v0] d IH]; simpl.
  - intros ?%list_elem_of_singleton. left. by simplify_eq.
  - destruct (decide (k = k0)) as [->|Hne].
    + intros [?|?]%elem_of_cons; [left; by simplify_eq | right; by right].
    + intros [?|Hin]%elem_of_cons; [simplify_eq; right; by left|].
      destruct (IH Hin) as [?|?]; [by left | right; by right].
Qed.

Lemma od_get_app_r (pre d : list (K * V)) k :
  k ∉ od_keys pre → od_get k (pre ++ d) = od_get k d.
Proof.
  unfold od_keys. induction pre as [|[k' v'] pre IH]; simpl; intros Hk; [done|].
  apply not_elem_of_cons in Hk as [Hne Hk]. rewrite decide_False by done. auto.
Qed.

Lemma od_set_app_r (pre d : list (K * V)) k v :
  k ∉ od_keys pre → od_set k v (pre ++ d) = pre ++ od_set k v d.
Proof.
  unfold od_keys. induction pre as [|[k' v'] pre IH]; simpl; intros Hk; [done|].
  apply not_elem_of_cons in Hk as [Hne Hk]. rewrite decide_False by done.
  f_equal. auto.
Qed.

End ordered_dict_facts.

(** ** Source loaders and the patient store *)

Lemma truthy_nonempty (s : string) : Py.truthy s = true ↔ s ≠ "".
Proof. by destruct s. Qed.

Lemma master_row_keys ignore_id row src src' :
  master_row ignore_id row src = Ok src' →
  ∀ id, id ∈ od_keys src' ↔ id ∈ od_keys src ∨ admits_row ignore_id row id.
Proof.
  unfold master_row, admits_row. intros Hrun id.
  bind_inv Hrun. rename a into rid. case_bool_decide as Hign.
  { inversion Hrun; subst. split; [by left|]. intros [?|(Hid & ? & _)]; [done|].
    rewrite Hrun0 in Hid. by simplify_eq. }
  do 5 bind_inv Hrun. rename a3 into group.
  destruct (Py.truthy group) eqn:Hg; simpl in Hrun.
  - assert (id ∈ od_keys src' ↔ id = rid ∨ id ∈ od_keys src) as ->.
    { destruct (od_get rid src); inversion Hrun; subst; apply od_keys_set_elem. }
    apply truthy_nonempty in Hg. split.
    + intros [->|?]; [right|by left]. split_and!; [done..|]. by exists group.
    + intros [?|(Hid & _)]; [by right|left]. rewrite Hrun0 in Hid. by simplify_eq.
  - inversion Hrun; subst. split; [by left|].
    intros [?|(_ & _ & g & Hg' & Hne)]; [done|]. rewrite Hrun5 in Hg'. simplify_eq.
    by destruct g.
Qed.

Lemma master_row_wf ignore_id row src src' :
  master_row ignore_id row src = Ok src' → od_wf src → od_wf src'.
Proof.
  unfold master_row. intros Hrun Hwf. bind_inv Hrun.
  case_bool_decide; [by inversion Hrun; subst|]. do 5 bind_inv Hrun.
  destruct (Py.truthy _); simpl in Hrun; [|by inversion Hrun; subst].
  destruct (od_get _ src); inversion Hrun; subst; by apply od_set_wf.
Qed.

Lemma skip_header_tail {A} (rows body : list A) :
  skip_header rows = Ok body → body = tail rows.
Proof. destruct rows; [done|]. by intros [= <-]. Qed.

Lemma load_master_keys ignore_id rows src src' :
  load_master ignore_id rows src = Ok src' →
  ∀ id, id ∈ od_keys src' ↔ id ∈ od_keys src ∨ master_admits ignore_id rows id.
Proof.
  unfold load_master, master_admits. intros Hrun. bind_inv Hrun.
  apply skip_header_tail in Hrun0 as <-. clear rows.
  revert src Hrun. induction a as [|row body IH]; intros src Hrun id; simpl in Hrun.
  - inversion Hrun; subst. split; [by left|]. intros [?|(? & []%elem_of_nil & _)]. done.
  - bind_inv Hrun. rewrite (IH _ Hrun id), (master_row_keys _ _ _ _ Hrun0 id).
    split.
    + intros [[?|?]|(r & ? & ?)]; [by left|right..].
      * exists row. split; [by left|done].
      * exists r. split; [by right|done].
    + intros [?|(r & [->|?]%elem_of_cons & ?)]; [by left; left|by left; right|].
      right. by exists r.
Qed.

Lemma load_master_wf ignore_id rows src src' :
  load_master ignore_id rows src = Ok src' → od_wf src → od_wf src'.
Proof.
  unfold load_master. intros Hrun Hwf. bind_inv Hrun.
  eapply (for_each_invariant od_wf); [|exact Hwf|exact Hrun].
  intros x s s' _ Hs Hx. by eapply master_row_wf.
Qed.

(** The later loaders only overwrite records that exist. *)
Lemma demo_row_keys row src src' :
  demo_row row src = Ok src' → od_keys src' = od_keys src.
Proof.
  unfold demo_row. intros Hrun. bind_inv Hrun.
  destruct (od_get a src) eqn:Hget; [|by inversion Hrun].
  do 2 bind_inv Hrun. inversion Hrun; subst.
  apply od_set_present, od_get_is_Some. by rewrite Hget.
Qed.

Lemma case_row_keys row src src' :
  case_row row src = Ok src' → od_keys src' = od_keys src.
Proof.
  unfold case_row. intros Hrun. bind_inv Hrun.
  destruct (od_get a src) eqn:Hget; inversion Hrun; subst; [|done].
  apply od_set_present, od_get_is_Some. by rewrite Hget.
Qed.

Lemma pico_row_keys row src src' :
  pico_row row src = Ok src' → od_keys src' = od_keys src.
Proof.
  unfold pico_row. intros Hrun. bind_inv Hrun.
  destruct (od_get a src) eqn:Hget; inversion Hrun; subst; [|done].
  apply od_set_present, od_get_is_Some. by rewrite Hget.
Qed.

Lemma for_each_keys {A V} (body : A → list (string * V) → result (list (string * V))) xs :
  (∀ x s s', body x s = Ok s' → od_keys s' = od_keys s) →
  ∀ s s', for_each body xs s = Ok s' → od_keys s' = od_keys s.
Proof.
  intros Hstep s s' Hrun.
  eapply (for_each_invariant (fun t => od_keys t = od_keys s)); [|done|exact Hrun].
  intros x t t' _ Ht Hx. rewrite <- Ht. by eapply Hstep.
Qed.

Lemma load_demo_keys rows src src' :
  load_demo rows src = Ok src' → od_keys src' = od_keys src.
Proof.
  unfold load_demo. intros Hrun. bind_inv Hrun.
  eapply for_each_keys; [apply demo_row_keys | exact Hrun].
Qed.

Lemma load_case_keys rows src src' :
  load_case rows src = Ok src' → od_keys src' = od_keys src.
Proof.
  unfold load_case. intros Hrun. bind_inv Hrun.
  eapply for_each_keys; [apply case_row_keys | exact Hrun].
Qed.

Lemma load_pico_data_keys rows src src' :
  load_pico_data rows src = Ok src' → od_keys src' = od_keys src.
Proof.
  unfold load_pico_data. intros Hrun. bind_inv Hrun.
  eapply for_each_keys; [apply pico_row_keys | exact Hrun].
Qed.

(** The store that the loading part builds. *)
Lemma load_all_store seq i ld :
  load_all seq i = Ok ld →
  od_wf (ld_src ld) ∧
  ∀ id, id ∈ od_keys (ld_src ld) ↔
        master_admits (load_ignore (in_ignore i)) (in_master i) id.
Proof.
  unfold load_all. intros Hrun.
  bind_inv Hrun. rename a into src1, Hrun0 into H1.
  bind_inv Hrun. rename a into src2, Hrun0 into H2.
  bind_inv Hrun. bind_inv Hrun. rename a0 into src3, Hrun1 into H3.
  bind_inv Hrun. bind_inv Hrun. rename a1 into src4, Hrun2 into H4.
  assert (ld_src ld = src4) as ->.
  { destruct seq; [bind_inv Hrun|]; by inversion Hrun. }
  assert (od_keys src4 = od_keys src1) as Hk.
  { rewrite (load_pico_data_keys _ _ _ H4), (load_case_keys _ _ _ H3).
    apply (load_demo_keys _ _ _ H2). }
  split.
  - unfold od_wf. rewrite Hk. apply (load_master_wf _ _ _ _ H1). apply NoDup_nil_2.
  - intros id. rewrite Hk, (load_master_keys _ _ _ _ H1 id). unfold od_keys. simpl.
    rewrite elem_of_nil. naive_solver.
Qed.

(** ** The row loops of the aggregation *)

Lemma map_each_Forall {A B} (P : B → Prop) (f : A → result B) xs ys :
  map_each f xs = Ok ys → (∀ x y, x ∈ xs → f x = Ok y → P y) → Forall P ys.
Proof.
  revert ys. induction xs as [|x xs IH]; intros ys Hrun HP; simpl in Hrun.
  - inversion Hrun. constructor.
  - bind_inv Hrun. bind_inv Hrun. inversion Hrun; subst. constructor.
    + eapply HP; [by left | done].
    + apply IH; [done|]. intros y b Hy. apply HP. by right.
Qed.

(** The loop [for id in src_data: row = mira_data[id]; row.extend(f(data))]
    over a store and rows with the same keys: every row gets its own cells. *)
Lemma row_loop (f : patient → result (list string))
    (body : string * patient → list (string * list string) →
            result (list (string * list string))) :
  (∀ p mira, body p mira =
     (row ← od_item p.1 mira; cells ← f p.2; Ok (od_set p.1 (row ++ cells) mira))) →
  ∀ src pre suf out,
    od_wf src → od_keys suf = od_keys src →
    (∀ k, k ∈ od_keys pre → k ∉ od_keys src) →
    for_each body src (pre ++ suf) = Ok out →
    ∃ cellss, map_each f src.*2 = Ok cellss ∧ out = pre ++ zip_with app_row suf cellss.
Proof.
  intros Hbody. induction src as [|[id data] src IH]; intros pre suf out Hwf Hkeys Hpre Hrun.
  - destruct suf; [|done]. simpl in Hrun. inversion Hrun; subst. by exists [].
  - destruct suf as [|[id' row] suf]; [done|]. unfold od_keys in Hkeys. simpl in Hkeys.
    injection Hkeys as -> Hkeys.
    unfold od_wf, od_keys in Hwf. simpl in Hwf. apply NoDup_cons in Hwf as [Hid Hwf].
    assert (id ∉ od_keys pre) as Hnp.
    { intros Hin. apply (Hpre _ Hin). unfold od_keys. simpl. by left. }
    simpl in Hrun. bind_inv Hrun. rename a into mira1, Hrun0 into Hstep.
    rewrite Hbody in Hstep. simpl in Hstep. unfold od_item in Hstep.
    rewrite od_get_app_r in Hstep by done. simpl in Hstep.
    rewrite decide_True in Hstep by done. simpl in Hstep.
    bind_inv Hstep. rename a into cells.
    rewrite od_set_app_r in Hstep by done. simpl in Hstep.
    rewrite decide_True in Hstep by done. inversion Hstep; subst mira1. clear Hstep.
    replace (pre ++ (id, row ++ cells) :: suf)
      with ((pre ++ [(id, row ++ cells)]) ++ suf) in Hrun by (by rewrite <- app_assoc).
    apply IH in Hrun as (cellss & Hcs & ->); [|done|done|].
    + exists (cells :: cellss). split; [|by rewrite <- app_assoc].
      change (map_each f ((id, data) :: src).*2)
        with (y ← f data; ys ← map_each f src.*2; Ok (y :: ys)).
      rewrite Hrun0. simpl. by rewrite Hcs.
    + intros k. unfold od_keys. rewrite fmap_app, elem_of_app. simpl.
      rewrite list_elem_of_singleton. intros [Hk| ->]; [|done].
      intros Hin. apply (Hpre k Hk). unfold od_keys. simpl. by right.
Qed.

Lemma row_loop_top (f : patient → result (list string)) body
    (src : list (string * patient)) (mira out : list (string * list string)) :
  (∀ p m, body p m =
     (row ← od_item p.1 m; cells ← f p.2; Ok (od_set p.1 (row ++ cells) m))) →
  od_wf src → od_keys mira = od_keys src →
  for_each body src mira = Ok out →
  ∃ cellss, map_each f src.*2 = Ok cellss ∧ out = zip_with app_row mira cellss.
Proof.
  intros Hbody Hwf Hkeys Hrun.
  apply (row_loop f body Hbody src [] mira out Hwf Hkeys); [|done].
  intros k []%elem_of_nil.
Qed.

Lemma zip_app_row_keys mira (cellss : list (list string)) :
  length cellss = length mira → od_keys (zip_with app_row mira cellss) = od_keys mira.
Proof.
  unfold od_keys. revert cellss. induction mira as [|p mira IH]; intros [|c cs] Hlen;
    simpl in *; try done. f_equal. apply IH. lia.
Qed.

Lemma zip_app_row_width mira (cellss : list (list string)) n m :
  Forall (fun p => length p.2 = n) mira →
  Forall (fun c => length c = m) cellss →
  Forall (fun p => length p.2 = (n + m)%nat) (zip_with app_row mira cellss).
Proof.
  intros Hm. revert cellss. induction Hm as [|p mira Hp Hm IH]; intros cellss Hc; simpl.
  - constructor.
  - destruct Hc as [|c cs Hc Hcs]; constructor; [|by apply IH].
    simpl. rewrite length_app. lia.
Qed.

Lemma zip_app_row_lookup mira (cellss : list (list string)) i id row cells :
  mira !! i = Some (id, row) → cellss !! i = Some cells →
  zip_with app_row mira cellss !! i = Some (id, row ++ cells).
Proof. intros Hm Hc. rewrite lookup_zip_with, Hm. simpl. by rewrite Hc. Qed.

(** ** Declared variables *)

Lemma declare_vars_app dict1 dict2 st :
  declare_vars (dict1 ++ dict2) st = declare_vars dict2 (declare_vars dict1 st).
Proof. unfold declare_vars. by rewrite foldl_app. Qed.

Lemma declare_var_frame entry st :
  src_data (declare_var entry st) = src_data st ∧
  mira_data (declare_var entry st) = mira_data st ∧
  variables (declare_var entry st) = variables st ++ [v_name entry.2].
Proof. unfold declare_var. by destruct (v_ranges entry.2). Qed.

Lemma declare_vars_frame dict st :
  src_data (declare_vars dict st) = src_data st ∧
  mira_data (declare_vars dict st) = mira_data st ∧
  variables (declare_vars dict st) = variables st ++ map (fun e => v_name e.2) dict.
Proof.
  revert st. induction dict as [|e dict IH]; intros st; simpl.
  - by rewrite app_nil_r.
  - destruct (IH (declare_var e st)) as (-> & -> & ->).
    destruct (declare_var_frame e st) as (-> & -> & ->).
    by rewrite <- app_assoc.
Qed.

(** ** Alignment of rows and declared variables *)

(** A phase that declares [m] variables and appends [m] cells to every row. *)
Lemma aligned_extend (f : patient → result (list string)) st st1 cellss m :
  aligned st →
  src_data st1 = src_data st →
  length (variables st1) = (length (variables st) + m)%nat →
  map_each f (src_data st).*2 = Ok cellss →
  (∀ data cells, data ∈ (src_data st).*2 → f data = Ok cells → length cells = m) →
  aligned (with_mira (zip_with app_row (mira_data st) cellss) st1).
Proof.
  intros (Hwf & Hkeys & Hwidth) Hsrc Hvars Hcs Hlen.
  assert (length cellss = length (mira_data st)) as Hl.
  { rewrite (map_each_length _ _ _ Hcs), length_fmap.
    rewrite <- (length_fmap fst (mira_data st)), <- (length_fmap fst (src_data st)).
    unfold od_keys in Hkeys. by rewrite Hkeys. }
  unfold aligned. simpl. rewrite Hsrc, Hvars. split_and!; [done| |].
  - by rewrite zip_app_row_keys.
  - apply zip_app_row_width; [done|]. by eapply map_each_Forall.
Qed.

Lemma demo_loop dict (src : list (string * patient)) :
  ∀ (pre out : list (string * list string)),
    od_wf src → (∀ k, k ∈ od_keys pre → k ∉ od_keys src) →
    for_each (demo_patient dict) src pre = Ok out →
    od_keys out = od_keys pre ++ od_keys src ∧
    ∀ n, Forall (fun p => length p.2 = n) pre → n = (2 + length dict)%nat →
         Forall (fun p => length p.2 = n) out.
Proof.
  induction src as [|[id data] src IH]; intros pre out Hwf Hpre Hrun; simpl in Hrun.
  - inversion Hrun; subst. unfold od_keys. simpl. by rewrite app_nil_r.
  - bind_inv Hrun. rename a into mira1, Hrun0 into Hstep.
    bind_inv Hstep. rename a into cells. inversion Hstep; subst mira1. clear Hstep.
    unfold od_wf, od_keys in Hwf. simpl in Hwf. apply NoDup_cons in Hwf as [Hid Hwf].
    assert (id ∉ od_keys pre) as Hnp.
    { intros Hin. apply (Hpre _ Hin). unfold od_keys. simpl. by left. }
    rewrite od_set_absent in Hrun by done.
    apply IH in Hrun as [Hk Hw]; [|done|].
    + split.
      * rewrite Hk. unfold od_keys. rewrite fmap_app. simpl. by rewrite <- app_assoc.
      * intros n Hn ->. apply Hw; [|done]. apply Forall_app. split; [done|].
        constructor; [|constructor]. simpl. f_equal. f_equal.
        by apply map_each_length in Hrun0.
    + intros k. unfold od_keys. rewrite fmap_app, elem_of_app. simpl.
      rewrite list_elem_of_singleton. intros [Hk| ->]; [|done].
      intros Hin. apply (Hpre k Hk). unfold od_keys. simpl. by right.
Qed.

Lemma add_variable_frame name title type gname tname st :
  src_data (add_variable name title type gname tname st) = src_data st ∧
  mira_data (add_variable name title type gname tname st) = mira_data st ∧
  variables (add_variable name title type gname tname st) = variables st ++ [name].
Proof. done. Qed.

Lemma add_demo_data_aligned dict st st' :
  od_wf (src_data st) → mira_data st = [] → variables st = [] →
  add_demo_data dict st = Ok st' →
  aligned st' ∧ src_data st' = src_data st.
Proof.
  unfold add_demo_data. intros Hwf Hmira Hvars Hrun. bind_inv Hrun.
  inversion Hrun; subst st'. clear Hrun.
  match type of Hrun0 with for_each _ (src_data (declare_vars _ ?s)) _ = _ =>
    destruct (declare_vars_frame dict s) as (Hs & Hm & Hv) end.
  rewrite Hs, Hm in Hrun0. simpl in Hrun0. rewrite Hmira in Hrun0.
  apply demo_loop in Hrun0 as [Hk Hw]; [|done|intros k []%elem_of_nil].
  unfold aligned. simpl. rewrite Hs, Hv. simpl. rewrite Hvars. simpl.
  split; [|done]. split_and!; [done|done|].
  apply Hw; [constructor|]. by rewrite length_map.
Qed.

Lemma case_patient_body dict p mira :
  case_patient dict p mira =
    (row ← od_item p.1 mira; cells ← map_each (case_cell p.2) dict;
     Ok (od_set p.1 (row ++ cells) mira)).
Proof. by destruct p. Qed.

(** The rows after the case-notification phase. *)
Lemma add_case_data_rows dict st st' :
  aligned st → add_case_data dict st = Ok st' →
  src_data st' = src_data st ∧
  variables st' = variables st ++ map (fun e => v_name e.2) dict ∧
  ∃ cellss,
    map_each (fun data => map_each (case_cell data) dict) (src_data st).*2 = Ok cellss ∧
    mira_data st' = zip_with app_row (mira_data st) cellss.
Proof.
  unfold add_case_data. intros (Hwf & Hkeys & _) Hrun. bind_inv Hrun.
  inversion Hrun; subst st'. clear Hrun. simpl.
  destruct (declare_vars_frame dict st) as (Hs & Hm & Hv).
  rewrite Hs, Hm in Hrun0. rewrite Hs, Hv. split_and!; [done..|].
  apply (row_loop_top (fun data => map_each (case_cell data) dict)) in Hrun0
    as (cellss & Hcs & ->); [|apply case_patient_body|done|done].
  by exists cellss.
Qed.

Lemma add_case_data_aligned dict st st' :
  aligned st → add_case_data dict st = Ok st' → aligned st' ∧ src_data st' = src_data st.
Proof.
  intros Hal Hrun. pose proof Hrun as Hrun'. unfold add_case_data in Hrun'.
  bind_inv Hrun'. inversion Hrun'; subst st'. clear Hrun' Hrun0.
  destruct (add_case_data_rows dict st _ Hal Hrun) as (Hs & Hv & cellss & Hcs & Hm).
  simpl in Hs, Hv, Hm. split; [|done]. rewrite Hm.
  eapply aligned_extend with (m := length dict); [done|done| |exact Hcs|].
  - destruct (declare_vars_frame dict st) as (_ & _ & ->).
    by rewrite length_app, length_map.
  - intros data cells _ Hc. by apply map_each_length in Hc.
Qed.

(** ** Series lengths *)

Lemma foldl_max_ge {A} (series : patient → option (list A)) src (a : nat) :
  let step := fun (max_len : nat) (p : string * patient) =>
           if Py.truthy_list (series p.2)
           then match series p.2 with
                | Some s => Nat.max max_len (length s)
                | None => max_len
                end
           else max_len in
  (a ≤ foldl step a src)%nat ∧
  ∀ p s, p ∈ src → series p.2 = Some s → (length s ≤ foldl step a src)%nat.
Proof.
  intros step. revert a. induction src as [|p src IH]; intros a; simpl.
  - split; [done|]. intros p s []%elem_of_nil.
  - destruct (IH (step a p)) as [Hge Hall]. 
    assert (a ≤ step a p)%nat as Ha.
    { unfold step. destruct (Py.truthy_list _); [|done]. destruct (series p.2); lia. }
    split; [lia|]. intros q s [->|Hq]%elem_of_cons Hs; [|by eapply Hall].
    assert (length s ≤ step a p)%nat; [|lia].
    unfold step. rewrite Hs. destruct s; simpl; lia.
Qed.

(** No series in the store is longer than the maximum. *)
Lemma max_series_len_ge {A} (series : patient → option (list A)) src data s :
  data ∈ src.*2 → series data = Some s → (length s ≤ max_series_len series src)%nat.
Proof.
  intros ([id d] & -> & Hin)%list_elem_of_fmap Hs.
  by apply (proj2 (foldl_max_ge series src 0) (id, d) s).
Qed.

Lemma concat_length_uniform {A} (blocks : list (list A)) m :
  Forall (fun b => length b = m) blocks → length (concat blocks) = (length blocks * m)%nat.
Proof.
  induction 1 as [|b blocks Hb _ IH]; simpl; [done|]. rewrite length_app. lia.
Qed.

(** ** Metabolic panel phase *)

Lemma pico_declare_names_frame names info i st st' :
  for_each (pico_declare_name info i) names st = Ok st' →
  src_data st' = src_data st ∧ mira_data st' = mira_data st ∧
  length (variables st') = (length (variables st) + length names)%nat.
Proof.
  revert st. induction names as [|name names IH]; intros st Hrun; simpl in Hrun.
  - inversion Hrun. by rewrite Nat.add_0_r.
  - bind_inv Hrun. destruct (IH _ Hrun) as (-> & -> & ->).
    unfold pico_declare_name in Hrun0. bind_inv Hrun0. inversion Hrun0; subst.
    simpl. rewrite length_app. simpl. split_and!; [done..|lia].
Qed.

Lemma pico_declare_day_frame names info i st st' :
  pico_declare_day names info i st = Ok st' →
  src_data st' = src_data st ∧ mira_data st' = mira_data st ∧
  length (variables st') = (length (variables st) + (1 + length names))%nat.
Proof.
  unfold pico_declare_day. intros Hrun.
  apply pico_declare_names_frame in Hrun as (-> & -> & ->). simpl.
  rewrite length_app. simpl. split_and!; [done..|lia].
Qed.

Lemma pico_declare_frame names info days st st' :
  for_each (pico_declare_day names info) days st = Ok st' →
  src_data st' = src_data st ∧ mira_data st' = mira_data st ∧
  length (variables st') =
    (length (variables st) + length days * (1 + length names))%nat.
Proof.
  revert st. induction days as [|i days IH]; intros st Hrun; simpl in Hrun.
  - inversion Hrun. split_and!; [done..|simpl; lia].
  - bind_inv Hrun. destruct (IH _ Hrun) as (-> & -> & ->).
    apply pico_declare_day_frame in Hrun0 as (-> & -> & ->).
    split_and!; [done..|simpl; lia].
Qed.

Lemma pico_block_length names info pico block :
  pico_block names info pico = Ok block → length block = (1 + length names)%nat.
Proof.
  unfold pico_block. intros Hrun. do 2 bind_inv Hrun. inversion Hrun; subst.
  simpl. f_equal. by apply map_each_length in Hrun1.
Qed.

(** The cells of one patient in the metabolic-panel family: the blocks of the
    panels in source order, then sentinels up to [count]. *)
Lemma pico_cells_shape names info count data cells :
  pico_cells names info count data = Ok cells →
  match d_pico data with
  | Some (pico :: series) =>
      ∃ blocks,
        map_each (pico_block names info) (pico :: series) = Ok blocks ∧
        cells = concat blocks ++
                replicate (count - length (pico :: series) * (1 + length names))
                          sentinel
  | _ => cells = replicate count sentinel
  end.
Proof.
  unfold pico_cells. destruct (d_pico data) as [[|pico series]|]; simpl;
    intros Hrun; [by inversion Hrun| |by inversion Hrun].
  bind_inv Hrun. rename a into blocks. inversion Hrun; subst. by exists blocks.
Qed.

Lemma pico_cells_length names info count data cells :
  pico_cells names info count data = Ok cells →
  (∀ s, d_pico data = Some s → (length s * (1 + length names) ≤ count)%nat) →
  length cells = count.
Proof.
  intros Hrun Hle. apply pico_cells_shape in Hrun.
  destruct (d_pico data) as [[|pico series]|] eqn:Hp;
    [subst; apply length_replicate| |subst; apply length_replicate].
  destruct Hrun as (blocks & Hb & ->). specialize (Hle _ eq_refl).
  rewrite length_app, length_replicate.
  rewrite (concat_length_uniform blocks (1 + length names)).
  - rewrite (map_each_length _ _ _ Hb). lia.
  - eapply map_each_Forall; [exact Hb|]. intros x y _. apply pico_block_length.
Qed.

Lemma pico_patient_body names info count p mira :
  pico_patient names info count p mira =
    (row ← od_item p.1 mira; cells ← pico_cells names info count p.2;
     Ok (od_set p.1 (row ++ cells) mira)).
Proof. by destruct p. Qed.

(** The rows after the metabolic-panel phase. *)
Lemma add_pico_data_rows names info st st' :
  aligned st → add_pico_data names info st = Ok st' →
  let max_len := max_series_len d_pico (src_data st) in
  let count := (max_len * (1 + length names))%nat in
  src_data st' = src_data st ∧
  length (variables st') = (length (variables st) + count)%nat ∧
  ∃ cellss,
    map_each (pico_cells names info count) (src_data st).*2 = Ok cellss ∧
    mira_data st' = zip_with app_row (mira_data st) cellss.
Proof.
  intros (Hwf & Hkeys & _) Hrun. cbv zeta. unfold add_pico_data in Hrun.
  bind_inv Hrun. rename a into st1. bind_inv Hrun. inversion Hrun; subst st'. clear Hrun.
  apply pico_declare_frame in Hrun0 as (Hs & Hm & Hv). rewrite length_seq in Hv.
  rewrite Hs, Hm in Hrun1. simpl. rewrite Hs, Hv. split_and!; [done..|].
  apply (row_loop_top (pico_cells names info
           (max_series_len d_pico (src_data st) * (1 + length names)))) in Hrun1
    as (cellss & Hcs & ->); [|apply pico_patient_body|done|done].
  by exists cellss.
Qed.

Lemma add_pico_data_aligned names info st st' :
  aligned st → add_pico_data names info st = Ok st' →
  aligned st' ∧ src_data st' = src_data st.
Proof.
  intros Hal Hrun.
  destruct (add_pico_data_rows names info st st' Hal Hrun) as (Hs & Hv & cellss & Hcs & Hm).
  split; [|done].
  replace st' with (with_mira (zip_with app_row (mira_data st) cellss) st').
  - eapply aligned_extend; [done|done|exact Hv|exact Hcs|].
    intros data cells Hin Hc. apply (pico_cells_length _ _ _ _ _ Hc).
    intros s Hsome. apply Nat.mul_le_mono_r. by eapply max_series_len_ge.
  - rewrite <- Hm. by destruct st'.
Qed.

(** ** Viral load phase *)

Section qpcr_facts.
Context `{FloatOps}.

Lemma scan_series_spec log series acc slen series' acc' slen' :
  scan_series log series acc slen = Ok (series', acc', slen') →
  Forall2 (rewritten log) series series' ∧
  ∃ fvals, map_each (to_fval log) (readings series) = Ok fvals ∧
           acc' = foldl stats_step acc fvals ∧
           slen' = (slen + length fvals)%nat.
Proof.
  unfold readings.
  revert acc slen series' acc' slen'.
  induction series as [|q series IH]; intros acc slen series' acc' slen' Hrun;
    simpl in Hrun.
  - inversion Hrun; subst. split; [constructor|]. exists []. simpl.
    split_and!; [done..|lia].
  - destruct (Py.truthy (q_vload q)) eqn:Hv.
    + bind_inv Hrun. rename a into fval. bind_inv Hrun. destruct a as [[r a'] n].
      inversion Hrun; subst. clear Hrun.
      apply IH in Hrun1 as (Hall & fvals & Hf & -> & ->). split.
      * constructor; [|done]. unfold rewritten. simpl. rewrite Hv. by eauto.
      * exists (fval :: fvals). simpl. rewrite filter_cons_True by done. simpl.
        rewrite Hrun0. simpl. rewrite Hf. simpl. split_and!; [done..|lia].
    + bind_inv Hrun. destruct a as [[r a'] n]. inversion Hrun; subst. clear Hrun.
      apply IH in Hrun0 as (Hall & fvals & Hf & -> & ->). split.
      * constructor; [|done]. unfold rewritten. rewrite Hv. by destruct (q_vload q).
      * exists fvals. simpl. rewrite filter_cons_False by (by rewrite Hv). done.
Qed.

Lemma derived_cells_length acc slen : length (derived_cells acc slen) = 4%nat.
Proof. unfold derived_cells. destruct acc as [a|]; [|done]. by destruct (float_bool _). Qed.

Lemma slot_cells_length series : length (slot_cells series) = (length series * 2)%nat.
Proof.
  unfold slot_cells. rewrite (concat_length_uniform _ 2).
  - by rewrite length_map.
  - apply Forall_forall. intros b (q & -> & _)%list_elem_of_fmap. done.
Qed.

Lemma slot_cells_lookup series i q :
  series !! i = Some q →
  slot_cells series !! (2 * i)%nat = Some (q_date q) ∧
  slot_cells series !! (2 * i + 1)%nat = Some (q_vload q).
Proof.
  unfold slot_cells. revert i. induction series as [|q' series IH]; intros i Hi; [done|].
  destruct i as [|i]; simpl in *.
  - by inversion Hi; subst.
  - replace (i + S (i + 0))%nat with (S (2 * i)) by lia.
    replace (i + S (i + 0) + 1)%nat with (S (2 * i + 1)) by lia.
    simpl. by apply IH.
Qed.

(** The cells of one patient in the viral-load family: the four derived cells,
    then one (date, value) pair per sample of the rewritten series, then
    sentinels up to [count]. *)
Lemma qpcr_cells_shape log count series series' cells :
  qpcr_cells log count series = Ok (series', cells) →
  match series with
  | [] => series' = [] ∧ cells = replicate count sentinel
  | _ :: _ =>
      Forall2 (rewritten log) series series' ∧
      ∃ acc slen,
        scan_series log series None 0 = Ok (series', acc, slen) ∧
        cells = derived_cells acc slen ++ slot_cells series' ++
                replicate (count - 4 - length series * 2) sentinel
  end.
Proof.
  unfold qpcr_cells. destruct series as [|q series]; intros Hrun.
  - by inversion Hrun.
  - bind_inv Hrun. destruct a as [[s acc] slen]. inversion Hrun; subst. clear Hrun.
    split; [by apply scan_series_spec in Hrun0 as [? _]|]. by exists acc, slen.
Qed.

Lemma qpcr_cells_length log count series series' cells :
  qpcr_cells log count series = Ok (series', cells) →
  (4 + length series * 2 ≤ count)%nat →
  length series' = length series ∧ length cells = count.
Proof.
  intros Hrun Hle. apply qpcr_cells_shape in Hrun. destruct series as [|q series].
  - destruct Hrun as [-> ->]. by rewrite length_replicate.
  - destruct Hrun as (Hall & acc & slen & _ & ->).
    apply Forall2_length in Hall. split; [done|].
    rewrite !length_app, derived_cells_length, slot_cells_length, length_replicate.
    rewrite <- Hall. lia.
Qed.

Lemma qpcr_loop log count src :
  ∀ done mira done' mira',
    for_each (qpcr_patient log count) src (done, mira) = Ok (done', mira') →
    (∃ rest, map_each (qpcr_rewrite log count) src = Ok rest ∧ done' = done ++ rest) ∧
    for_each (fun p m => row ← od_item p.1 m; cells ← qpcr_row_cells log count p.2;
                         Ok (od_set p.1 (row ++ cells) m)) src mira = Ok mira'.
Proof.
  induction src as [|[id data] src IH]; intros done mira done' mira' Hrun; simpl in Hrun.
  - inversion Hrun; subst. split; [|done]. exists []. by rewrite app_nil_r.
  - bind_inv Hrun. destruct a as [done1 mira1]. rename Hrun0 into Hstep.
    bind_inv Hstep. rename a into row. bind_inv Hstep. destruct a as [series' cells].
    inversion Hstep; subst. clear Hstep.
    apply IH in Hrun as ((rest & Hrest & ->) & Hloop). split.
    + exists ((id, with_qpcr series' data) :: rest).
      split; [|by rewrite <- app_assoc].
      rewrite map_each_cons.
      assert (qpcr_rewrite log count (id, data) = Ok (id, with_qpcr series' data)) as ->.
      { unfold qpcr_rewrite. cbn [fst snd]. by rewrite Hrun1. }
      simpl. by rewrite Hrest.
    + rewrite for_each_cons. cbn [fst snd]. rewrite Hrun0. simpl.
      assert (qpcr_row_cells log count data = Ok cells) as ->.
      { unfold qpcr_row_cells. by rewrite Hrun1. }
      exact Hloop.
Qed.

Lemma qpcr_rewrite_keys log count (src rest : list (string * patient)) :
  map_each (qpcr_rewrite log count) src = Ok rest → od_keys rest = od_keys src.
Proof.
  unfold od_keys. revert rest. induction src as [|p src IH]; intros rest Hrun;
    simpl in Hrun.
  - by inversion Hrun.
  - bind_inv Hrun. bind_inv Hrun. inversion Hrun; subst. simpl. f_equal; [|by apply IH].
    unfold qpcr_rewrite in Hrun0. bind_inv Hrun0. destruct a1 as [s' c'].
    by inversion Hrun0.
Qed.

Lemma qpcr_declare_frame log_str days st :
  let st' := foldl (fun st i => qpcr_declare_day log_str i st) st days in
  src_data st' = src_data st ∧ mira_data st' = mira_data st ∧
  length (variables st') = (length (variables st) + length days * 2)%nat.
Proof.
  cbv zeta. revert st. induction days as [|i days IH]; intros st; simpl.
  - split_and!; [done..|lia].
  - destruct (IH (qpcr_declare_day log_str i st)) as (-> & -> & ->).
    unfold qpcr_declare_day. simpl. rewrite !length_app. simpl.
    split_and!; [done..|lia].
Qed.

(** The state after the viral-load phase. *)
Lemma add_qpcr_data_rows log st st' :
  aligned st → add_qpcr_data log st = Ok st' →
  let max_len := max_series_len (fun data => Some (d_qpcr data)) (src_data st) in
  let count := (4 + max_len * 2)%nat in
  map_each (qpcr_rewrite log count) (src_data st) = Ok (src_data st') ∧
  length (variables st') = (length (variables st) + count)%nat ∧
  ∃ cellss,
    map_each (qpcr_row_cells log count) (src_data st).*2 = Ok cellss ∧
    mira_data st' = zip_with app_row (mira_data st) cellss.
Proof.
  intros (Hwf & Hkeys & _) Hrun. cbv zeta. unfold add_qpcr_data in Hrun.
  bind_inv Hrun. destruct a as [src mira]. inversion Hrun; subst st'. clear Hrun.
  match type of Hrun0 with
  | for_each _ (src_data (foldl _ ?s ?days)) _ = _ =>
      destruct (qpcr_declare_frame (if log then " (log units)" else "") days s)
        as (Hs & Hm & Hv)
  end.
  rewrite length_seq in Hv. simpl in Hs, Hm, Hv. rewrite !length_app in Hv. simpl in Hv.
  rewrite Hs, Hm in Hrun0. simpl.
  apply qpcr_loop in Hrun0 as ((rest & Hrest & ->) & Hloop). simpl.
  split_and!; [done|rewrite Hv; lia|].
  apply (row_loop_top (qpcr_row_cells log
           (4 + max_series_len (fun data => Some (d_qpcr data)) (src_data st) * 2)))
    in Hloop as (cellss & Hcs & ->); [|done|done|done].
  by exists cellss.
Qed.

Lemma add_qpcr_data_aligned log st st' :
  aligned st → add_qpcr_data log st = Ok st' →
  aligned st' ∧ od_keys (src_data st') = od_keys (src_data st).
Proof.
  intros Hal Hrun.
  destruct (add_qpcr_data_rows log st st' Hal Hrun) as (Hs & Hv & cellss & Hcs & Hm).
  pose proof (qpcr_rewrite_keys _ _ _ _ Hs) as Hk. split; [|done].
  assert (aligned (with_mira (zip_with app_row (mira_data st) cellss)
                     (with_src (src_data st) st'))) as (_ & Hk' & Hw).
  { eapply aligned_extend; [done|done|exact Hv|exact Hcs|].
    intros data cells Hin Hc. unfold qpcr_row_cells in Hc. bind_inv Hc.
    destruct a as [s c]. inversion Hc; subst.
    apply (qpcr_cells_length _ _ _ _ _ Hrun0).
    assert (length (d_qpcr data) ≤
            max_series_len (fun data => Some (d_qpcr data)) (src_data st))%nat; [|lia].
    by eapply (max_series_len_ge (fun data => Some (d_qpcr data))). }
  simpl in Hk', Hw. destruct Hal as (Hwf & _ & _).
  unfold aligned. rewrite Hm. unfold od_wf. rewrite Hk. done.
Qed.

End qpcr_facts.

(** ** Sequencing phase *)

Lemma seq_column_spec data var (mira mira' : list (string * list string)) :
  seq_column data var mira = Ok mira' →
  od_keys mira' = od_keys mira ∧
  ∀ n, Forall (fun p => length p.2 = n) mira →
       Forall (fun p => length p.2 = (n + 1)%nat) mira'.
Proof.
  unfold seq_column, od_keys. revert mira'.
  induction mira as [|[id row] mira IH]; intros mira' Hrun.
  - inversion Hrun. split; [done|]. constructor.
  - rewrite map_each_cons in Hrun. bind_inv Hrun. bind_inv Hrun.
    inversion Hrun; subst. clear Hrun. bind_inv Hrun0. inversion Hrun0; subst.
    destruct (IH _ Hrun1) as [Hk Hw]. split; [simpl; by f_equal|].
    intros n [Hrow Hrest]%Forall_cons. constructor; [|by apply Hw].
    simpl in *. rewrite length_app. simpl. lia.
Qed.

Lemma seq_columns_spec data vars (mira mira' : list (string * list string)) :
  for_each (seq_column data) vars mira = Ok mira' →
  od_keys mira' = od_keys mira ∧
  ∀ n, Forall (fun p => length p.2 = n) mira →
       Forall (fun p => length p.2 = (n + length vars)%nat) mira'.
Proof.
  revert mira. induction vars as [|var vars IH]; intros mira Hrun; simpl in Hrun.
  - inversion Hrun; subst. split; [done|]. intros n. by rewrite Nat.add_0_r.
  - bind_inv Hrun. destruct (IH _ Hrun) as [Hk Hw].
    destruct (seq_column_spec _ _ _ _ Hrun0) as [Hk0 Hw0].
    split; [by rewrite Hk|]. intros n Hn. simpl.
    replace (n + S (length vars))%nat with (n + 1 + length vars)%nat by lia.
    by apply Hw, Hw0.
Qed.

Lemma seq_declare_snp_frame vars st :
  let st' := foldl (fun st p => seq_declare_snp p st) st vars in
  src_data st' = src_data st ∧ mira_data st' = mira_data st ∧
  length (variables st') = (length (variables st) + length vars)%nat.
Proof.
  cbv zeta. revert st. induction vars as [|p vars IH]; intros st; simpl.
  - split_and!; [done..|lia].
  - destruct (IH (seq_declare_snp p st)) as (-> & -> & ->). simpl.
    rewrite length_app. simpl. split_and!; [done..|lia].
Qed.

Lemma seq_declare_af_frame vars st :
  let st' := foldl (fun st p => seq_declare_af p st) st vars in
  src_data st' = src_data st ∧ mira_data st' = mira_data st ∧
  length (variables st') = (length (variables st) + length vars)%nat.
Proof.
  cbv zeta. revert st. induction vars as [|p vars IH]; intros st; simpl.
  - split_and!; [done..|lia].
  - destruct (IH (seq_declare_af p st)) as (-> & -> & ->). simpl.
    rewrite length_app. simpl. split_and!; [done..|lia].
Qed.

Lemma add_seq_data_aligned snp_vars snp_data af_vars af_data cl_vars cl_data st st' :
  aligned st → length cl_vars = 4%nat →
  add_seq_data snp_vars snp_data af_vars af_data cl_vars cl_data st = Ok st' →
  aligned st' ∧ src_data st' = src_data st.
Proof.
  unfold add_seq_data. intros (Hwf & Hkeys & Hwidth) Hcl Hrun.
  destruct (seq_declare_snp_frame snp_vars st) as (Hs1 & Hm1 & Hv1).
  destruct (seq_declare_af_frame af_vars
              (foldl (fun st p => seq_declare_snp p st) st snp_vars)) as (Hs2 & Hm2 & Hv2).
  do 4 bind_inv Hrun. simpl in Hrun.
  bind_inv Hrun. rename a3 into m1, Hrun4 into H1.
  bind_inv Hrun. rename a3 into m2, Hrun4 into H2.
  bind_inv Hrun. rename a3 into m3, Hrun4 into H3.
  inversion Hrun; subst st'. clear Hrun.
  rewrite Hm2, Hm1 in H1.
  destruct (seq_columns_spec _ _ _ _ H1) as [Hk1 Hw1].
  destruct (seq_columns_spec _ _ _ _ H2) as [Hk2 Hw2].
  destruct (seq_columns_spec _ _ _ _ H3) as [Hk3 Hw3].
  unfold aligned. simpl. rewrite Hs2, Hs1. split; [|done]. split_and!; [done| |].
  - by rewrite Hk3, Hk2, Hk1.
  - rewrite !length_app. simpl. rewrite Hv2, Hv1.
    unfold od_keys in *. rewrite !length_fmap in *. rewrite Hcl in Hw3.
    specialize (Hw3 _ (Hw2 _ (Hw1 _ Hwidth))).
    eapply Forall_impl; [exact Hw3|]. simpl. intros p ->. lia.
Qed.

(** ** The whole aggregation *)

Lemma load_cluster_data_vars rows cl_vars cl_data :
  load_cluster_data rows = Ok (cl_vars, cl_data) → cl_vars = cl_vars_init.
Proof.
  unfold load_cluster_data. intros Hrun. do 2 bind_inv Hrun. by inversion Hrun.
Qed.

Lemma load_all_clusters seq i ld cl_vars cl_data :
  load_all seq i = Ok ld → ld_clusters ld = Some (cl_vars, cl_data) →
  cl_vars = cl_vars_init.
Proof.
  unfold load_all. intros Hrun Hcl. do 6 bind_inv Hrun. destruct seq.
  - bind_inv Hrun. inversion Hrun; subst. simpl in Hcl. inversion Hcl; subst.
    by eapply load_cluster_data_vars.
  - inversion Hrun; subst. done.
Qed.

(** After a run that ends normally the rows are aligned with the declared
    variables, and the store has the keys it had after loading. *)
Lemma aggregate_aligned `{FloatOps} seq log i st :
  aggregate seq log i = Ok st →
  aligned st ∧
  ∃ ld, load_all seq i = Ok ld ∧ od_keys (src_data st) = od_keys (ld_src ld).
Proof.
  unfold aggregate. intros Hrun. bind_inv Hrun. rename a into ld, Hrun0 into Hld.
  destruct (load_all_store _ _ _ Hld) as [Hwf _].
  bind_inv Hrun. rename a into st1.
  apply add_demo_data_aligned in Hrun0 as [Hal1 Hs1]; [|done..].
  bind_inv Hrun. rename a into st2.
  apply add_case_data_aligned in Hrun0 as [Hal2 Hs2]; [|done].
  bind_inv Hrun. rename a into st3.
  apply add_pico_data_aligned in Hrun0 as [Hal3 Hs3]; [|done].
  bind_inv Hrun. rename a into st4.
  apply add_qpcr_data_aligned in Hrun0 as [Hal4 Hs4]; [|done].
  assert (od_keys (src_data st4) = od_keys (ld_src ld)) as Hk.
  { rewrite Hs4, Hs3, Hs2, Hs1. done. }
  destruct (ld_clusters ld) as [[cl_vars cl_data]|] eqn:Hcl.
  - apply add_seq_data_aligned in Hrun as [Hal5 Hs5]; [|done|].
    + split; [done|]. exists ld. by rewrite Hs5.
    + by rewrite (load_all_clusters _ _ _ _ _ Hld Hcl).
  - inversion Hrun; subst. split; [done|]. by exists ld.
Qed.

(** ** Row width *)

(** C3: after all aggregation phases have run, every patient row of the output
    mapping has exactly one cell per declared variable: all rows have the
    length of the ordered variable list, whatever records the patients have. *)
Theorem rows_have_declared_width `{FloatOps} (seq log : bool) (i : inputs) (st : state) :
  aggregate seq log i = Ok st →
  Forall (fun p => length p.2 = length (variables st)) (mira_data st).
Proof. intros Hrun. by destruct (aggregate_aligned _ _ _ _ Hrun) as [(_ & _ & Hw) _]. Qed.

Lemma rows_have_declared_width_witness :
  ∃ st, aggregate true false Cohort.tables = Ok st ∧
        Forall (fun p => length p.2 = length (variables st)) (mira_data st).
Proof.
  destruct (aggregate true false Cohort.tables) as [st|e] eqn:E.
  - exists st. split; [reflexivity|]. exact (rows_have_declared_width _ _ _ _ E).
  - run_ok E.
Defined.

(** ** The master table is authoritative *)

(** C5: an identifier has a record in the store, and a row in the output, if
    and only if some master row after the header names it, it is not on the
    ignore list and that row's disease-group cell is non-empty; the
    demographics, case-notification and metabolic-panel loaders never add a
    key to the store. *)
Theorem master_is_authoritative `{FloatOps} (seq log : bool) (i : inputs) (st : state) :
  aggregate seq log i = Ok st →
  (∀ id, id ∈ od_keys (src_data st) ↔
         master_admits (load_ignore (in_ignore i)) (in_master i) id) ∧
  (∀ id, id ∈ od_keys (mira_data st) ↔
         master_admits (load_ignore (in_ignore i)) (in_master i) id) ∧
  (∀ rows src src', load_demo rows src = Ok src' → od_keys src' = od_keys src) ∧
  (∀ rows src src', load_case rows src = Ok src' → od_keys src' = od_keys src) ∧
  (∀ rows src src', load_pico_data rows src = Ok src' → od_keys src' = od_keys src).
Proof.
  intros Hrun.
  destruct (aggregate_aligned _ _ _ _ Hrun) as [(_ & Hk & _) (ld & Hld & Hsrc)].
  destruct (load_all_store _ _ _ Hld) as [_ Hadm].
  split_and!.
  - intros id. rewrite Hsrc. apply Hadm.
  - intros id. rewrite Hk, Hsrc. apply Hadm.
  - apply load_demo_keys.
  - apply load_case_keys.
  - apply load_pico_data_keys.
Qed.

Lemma master_is_authoritative_witness :
  ∃ st, aggregate true false Cohort.tables = Ok st ∧
        ("ZZ3" ∈ od_keys (mira_data st) ↔
         master_admits (load_ignore (in_ignore Cohort.tables))
                       (in_master Cohort.tables) "ZZ3").
Proof.
  destruct (aggregate true false Cohort.tables) as [st|e] eqn:E.
  - exists st. split; [reflexivity|].
    exact (proj1 (proj2 (master_is_authoritative _ _ _ _ E)) "ZZ3").
  - run_ok E.
Defined.

(** ** Padding of the repeated-measurement families *)

Lemma od_get_lookup {V} (d : list (string * V)) k v :
  od_get k d = Some v → ∃ i, d !! i = Some (k, v).
Proof. intros Hget%od_get_Some_elem. by apply list_elem_of_lookup. Qed.

Lemma od_lookup_get {V} (d : list (string * V)) i k v :
  od_wf d → d !! i = Some (k, v) → od_get k d = Some v.
Proof. intros Hwf Hi. apply od_elem_get; [done|]. by eapply list_elem_of_lookup_2. Qed.

(** In an aligned state the record and the row of an identifier sit at the
    same position. *)
Lemma aligned_position st id data row :
  aligned st →
  od_get id (src_data st) = Some data → od_get id (mira_data st) = Some row →
  ∃ i, src_data st !! i = Some (id, data) ∧ mira_data st !! i = Some (id, row).
Proof.
  intros (Hwf & Hkeys & _) Hs Hm. apply od_get_lookup in Hs as [i Hi].
  exists i. split; [done|].
  assert (od_keys (mira_data st) !! i = Some id) as Hki.
  { rewrite Hkeys. unfold od_keys. by rewrite list_lookup_fmap, Hi. }
  unfold od_keys in Hki. rewrite list_lookup_fmap in Hki.
  destruct (mira_data st !! i) as [[id' row']|] eqn:Hmi; [|done].
  simpl in Hki. inversion Hki; subst id'.
  assert (od_wf (mira_data st)) as Hwfm by (unfold od_wf; by rewrite Hkeys).
  rewrite (od_lookup_get _ _ _ _ Hwfm Hmi) in Hm. by inversion Hm.
Qed.

(** The row of an identifier after a phase that appends cells row by row. *)
Lemma extended_row (f : patient → result (list string)) st mira' cellss id data row :
  aligned st →
  map_each f (src_data st).*2 = Ok cellss →
  mira' = zip_with app_row (mira_data st) cellss →
  od_get id (src_data st) = Some data → od_get id (mira_data st) = Some row →
  ∃ cells, f data = Ok cells ∧ od_get id mira' = Some (row ++ cells).
Proof.
  intros Hal Hcs -> Hs Hm.
  destruct (aligned_position _ _ _ _ Hal Hs Hm) as (i & Hsi & Hmi).
  destruct (map_each_lookup f _ _ i data Hcs) as (cells & Hf & Hci).
  { by rewrite list_lookup_fmap, Hsi. }
  exists cells. split; [done|].
  destruct Hal as (Hwf & Hkeys & _).
  apply (od_lookup_get _ i).
  - unfold od_wf. rewrite zip_app_row_keys; [by rewrite Hkeys|].
    rewrite (map_each_length _ _ _ Hcs), length_fmap.
    rewrite <- (length_fmap fst (mira_data st)), <- (length_fmap fst (src_data st)).
    unfold od_keys in Hkeys. by rewrite Hkeys.
  - by apply zip_app_row_lookup.
Qed.

Lemma map_each_Forall2 {A B} (f : A → result B) xs ys :
  map_each f xs = Ok ys → Forall2 (fun x y => f x = Ok y) xs ys.
Proof.
  revert ys. induction xs as [|x xs IH]; intros ys Hrun.
  - inversion Hrun. constructor.
  - rewrite map_each_cons in Hrun. do 2 bind_inv Hrun. inversion Hrun; subst.
    constructor; [done|by apply IH].
Qed.

(** [pico_block] reads the cells that [panel_block] names. *)
Lemma pico_block_spec names info pico block :
  pico_block names info pico = Ok block → panel_block names info pico block.
Proof.
  unfold pico_block. intros Hrun. do 2 bind_inv Hrun. inversion Hrun; subst.
  rename a into date, a0 into vals. exists date, vals. split_and!; [done| |].
  - revert Hrun0. unfold Py.getitem. simpl.
    change (Z.to_nat 6) with 6%nat.
    destruct (pico !! 6%nat) as [c|]; [by intros [= ->]|done].
  - apply map_each_Forall2 in Hrun1.
    eapply Forall2_impl; [exact Hrun1|]. intros name val Hcell. simpl in Hcell.
    bind_inv Hcell. rename a into entry. exists entry. split; [|done].
    revert Hrun2. unfold dict_get. destruct (info !! name) as [e|]; [|done].
    by intros [= ->].
Qed.

Lemma pico_cells_padded names info src data cells :
  data ∈ src.*2 →
  pico_cells names info (max_series_len d_pico src * (1 + length names)) data = Ok cells →
  pico_padded names info (max_series_len d_pico src) data cells.
Proof.
  intros Hin Hrun. apply pico_cells_shape in Hrun. unfold pico_padded.
  destruct (d_pico data) as [[|pico series]|] eqn:Hp; [done| |done].
  destruct Hrun as (blocks & Hb & ->). exists blocks. split.
  - apply map_each_Forall2 in Hb. eapply Forall2_impl; [exact Hb|].
    intros x y. apply pico_block_spec.
  - f_equal. by rewrite Nat.mul_sub_distr_r.
Qed.

(** The rewritten sample carries the date and the slot value of the sample. *)
Lemma rewritten_sample_block `{FloatOps} log q q' :
  rewritten log q q' → sample_block log q [q_date q'; q_vload q'].
Proof.
  intros (_ & Hdate & Hval). exists (q_vload q'). split; [by rewrite Hdate|].
  unfold slot_value. destruct (q_vload q) as [|c v] eqn:Hv; simpl in *; [done|].
  destruct Hval as (fval & Hf & ->). unfold to_fval in Hf. bind_inv Hf.
  rename a into x. exists x. split; [done|]. destruct log.
  - by exists fval.
  - by inversion Hf.
Qed.

Lemma qpcr_cells_padded `{FloatOps} log max_len data series' cells :
  qpcr_cells log (4 + max_len * 2) (d_qpcr data) = Ok (series', cells) →
  qpcr_padded log max_len data cells.
Proof.
  intros Hrun. apply qpcr_cells_shape in Hrun. unfold qpcr_padded.
  destruct (d_qpcr data) as [|q series]; [by destruct Hrun|].
  destruct Hrun as (Hall & acc & slen & _ & ->).
  exists (derived_cells acc slen), (map (fun q' => [q_date q'; q_vload q']) series').
  split_and!; [apply derived_cells_length| |].
  - apply Forall2_fmap_r. eapply Forall2_impl; [exact Hall|].
    intros x y. apply rewritten_sample_block.
  - unfold slot_cells. do 3 f_equal. lia.
Qed.

(** C4: a patient with [k] repeated measurements in a family gets the [k] slot
    blocks of the series in source order followed by [max - k] slot blocks of
    sentinels, [max] being the longest series of the store; a patient with no
    series in the family gets the sentinel in every column of the family. *)
Theorem series_are_padded `{FloatOps} (pico_names : list string)
    (pico_info : gmap string pico_entry) (log : bool) (st st1 st2 : state)
    (id : string) (data : patient) (row : list string) :
  aligned st →
  add_pico_data pico_names pico_info st = Ok st1 →
  add_qpcr_data log st1 = Ok st2 →
  od_get id (src_data st) = Some data →
  od_get id (mira_data st) = Some row →
  ∃ pico_part qpcr_part,
    od_get id (mira_data st2) = Some ((row ++ pico_part) ++ qpcr_part) ∧
    pico_padded pico_names pico_info (max_series_len d_pico (src_data st)) data
                pico_part ∧
    qpcr_padded log (max_series_len (fun d => Some (d_qpcr d)) (src_data st)) data
                qpcr_part.
Proof.
  intros Hal Hpico Hqpcr Hs Hm.
  destruct (add_pico_data_rows _ _ _ _ Hal Hpico) as (Hs1 & _ & cs1 & Hcs1 & Hm1).
  destruct (add_pico_data_aligned _ _ _ _ Hal Hpico) as [Hal1 _].
  destruct (extended_row _ _ _ _ _ _ _ Hal Hcs1 Hm1 Hs Hm) as (pico_part & Hp & Hrow1).
  destruct (add_qpcr_data_rows _ _ _ Hal1 Hqpcr) as (_ & _ & cs2 & Hcs2 & Hm2).
  rewrite <- Hs1 in Hs.
  destruct (extended_row _ _ _ _ _ _ _ Hal1 Hcs2 Hm2 Hs Hrow1) as (qpcr_part & Hq & Hrow2).
  exists pico_part, qpcr_part. split_and!; [done| |].
  - apply pico_cells_padded; [|done]. rewrite Hs1 in Hs.
    apply od_get_Some_elem in Hs. apply list_elem_of_fmap. by exists (id, data).
  - unfold qpcr_row_cells in Hq. bind_inv Hq. destruct a as [series' cells].
    inversion Hq; subst. rewrite Hs1 in Hrun. by eapply qpcr_cells_padded.
Qed.

Lemma series_are_padded_witness :
  ∃ st1 st2 derived,
    aligned Cohort.uneven_series ∧
    add_pico_data ["ALB"] {[ "ALB" := mk_pico "Albumin [g/dL]" 7 ]} Cohort.uneven_series
      = Ok st1 ∧
    add_qpcr_data false st1 = Ok st2 ∧
    length derived = 4%nat ∧
    od_get "B2" (mira_data st2) =
      Some ((["B2"; "0"] ++ ["2014-06-02"; "7.5"; sentinel; sentinel]) ++
            derived ++ ["d4"; "1000.0"; "d5"; ""; sentinel; sentinel]) ∧
    od_get "C3" (mira_data st2) =
      Some ((["C3"; "0"] ++ replicate 4 sentinel) ++ replicate 10 sentinel).
Proof.
  assert (aligned Cohort.uneven_series) as Hal.
  { split_and!; [|reflexivity|repeat constructor].
    unfold od_wf, od_keys. simpl. apply (bool_decide_unpack _). vm_compute. exact I. }
  destruct (add_pico_data ["ALB"] {[ "ALB" := mk_pico "Albumin [g/dL]" 7 ]}
              Cohort.uneven_series) as [st1|e] eqn:E1;
    [|run_ok E1].
  destruct (add_qpcr_data false st1) as [st2|e] eqn:E2.
  - destruct (series_are_padded _ _ false _ _ _ "B2" _ ["B2"; "0"] Hal E1 E2
                eq_refl eq_refl) as (pp & qp & Hrow & Hp & Hq).
    destruct (series_are_padded _ _ false _ _ _ "C3" _ ["C3"; "0"] Hal E1 E2
                eq_refl eq_refl) as (pp' & qp' & Hrow' & Hp' & Hq').
    unfold pico_padded, qpcr_padded in Hp, Hq, Hp', Hq'.
    simpl in Hp, Hq, Hp', Hq'. subst pp' qp'.
    destruct Hp as (blocks & Hblocks & ->).
    destruct Hq as (derived & pairs & Hlen & Hpairs & ->).
    exists st1, st2, derived.
    split; [exact Hal|]. split; [reflexivity|]. split; [exact E2|].
    split; [exact Hlen|]. split; [|exact Hrow'].
    apply Forall2_cons_inv_l in Hblocks as (b & bs & Hb & Hbs & ->).
    apply Forall2_nil_inv_l in Hbs as ->.
    destruct Hb as (date & vals & -> & Hdate & Hvals).
    injection Hdate as <-.
    apply Forall2_cons_inv_l in Hvals as (val & vs & (entry & Hentry & Hval) & Hvs & ->).
    apply Forall2_nil_inv_l in Hvs as ->.
    vm_compute in Hentry. injection Hentry as <-.
    vm_compute in Hval. injection Hval as <-.
    apply Forall2_cons_inv_l in Hpairs as (p1 & ps & (c1 & -> & Hc1) & Hps & ->).
    apply Forall2_cons_inv_l in Hps as (p2 & ps' & (c2 & -> & Hc2) & Hps' & ->).
    apply Forall2_nil_inv_l in Hps' as ->.
    destruct Hc1 as (x & Hx & ->). change (c2 = "") in Hc2. subst c2.
    vm_compute in Hx. injection Hx as <-.
    rewrite Hrow. vm_compute. reflexivity.
  - assert (is_ok (add_pico_data ["ALB"] {[ "ALB" := mk_pico "Albumin [g/dL]" 7 ]}
                     Cohort.uneven_series ≫= add_qpcr_data false) = true) as Hok
      by (vm_compute; reflexivity).
    rewrite E1 in Hok. simpl in Hok. rewrite E2 in Hok. discriminate Hok.
Defined.

(** ** Log mode rewrites the per-sample values *)

Lemma pairs_lookup {A} (f g : A → string) (xs : list A) i x :
  xs !! i = Some x →
  concat (map (fun x => [f x; g x]) xs) !! (2 * i)%nat = Some (f x) ∧
  concat (map (fun x => [f x; g x]) xs) !! (2 * i + 1)%nat = Some (g x).
Proof.
  revert i. induction xs as [|x' xs IH]; intros i Hi; [done|].
  destruct i as [|i]; simpl in *.
  - by inversion Hi; subst.
  - replace (i + S (i + 0))%nat with (S (2 * i)) by lia.
    replace (i + S (i + 0) + 1)%nat with (S (2 * i + 1)) by lia.
    simpl. by apply IH.
Qed.

Lemma qpcr_declare_vars log_str days st :
  variables (foldl (fun st i => qpcr_declare_day log_str i st) st days) =
  variables st ++
  concat (map (fun i => ["DOPCR_" +:+ Py.str i; "PCR_" +:+ Py.str i]) days).
Proof.
  revert st. induction days as [|i days IH]; intros st; simpl.
  - by rewrite app_nil_r.
  - rewrite IH. unfold qpcr_declare_day. simpl. by rewrite <- !app_assoc.
Qed.

(** The variables that the viral-load phase declares, in order. *)
Lemma add_qpcr_data_variables `{FloatOps} log st st' :
  add_qpcr_data log st = Ok st' →
  variables st' =
    variables st ++ ["PCR"; "PCR_MAX"; "PCR_MIN"; "PCR_AVE"] ++
    concat (map (fun i => ["DOPCR_" +:+ Py.str i; "PCR_" +:+ Py.str i])
                (seq 1 (max_series_len (fun d => Some (d_qpcr d)) (src_data st)))).
Proof.
  unfold add_qpcr_data. intros Hrun. bind_inv Hrun. destruct a as [src mira].
  inversion Hrun; subst st'. simpl. rewrite qpcr_declare_vars. simpl.
  by rewrite <- !app_assoc.
Qed.

Lemma qpcr_rewrite_lookup `{FloatOps} log count src src' j id data :
  map_each (qpcr_rewrite log count) src = Ok src' →
  src !! j = Some (id, data) →
  ∃ series' cells,
    qpcr_cells log count (d_qpcr data) = Ok (series', cells) ∧
    src' !! j = Some (id, with_qpcr series' data).
Proof.
  intros Hrun Hj. destruct (map_each_lookup _ _ _ _ _ Hrun Hj) as (p & Hp & Hj').
  unfold qpcr_rewrite in Hp. bind_inv Hp. destruct a as [series' cells].
  inversion Hp; subst. by exists series', cells.
Qed.

(** C10: with the log flag set, the value column PCR_(i+1) of a patient holds
    [log10(1 + value)] of the patient's sample [i], because the stored series
    is rewritten before the per-slot columns are emitted; a sample with an
    empty value stays empty and is written as the sentinel. *)
Theorem log_mode_rewrites_slot_values `{FloatOps} (st st' : state) (id : string)
    (data : patient) (row : list string) (i : nat) (q : qpcr_sample) :
  aligned st →
  add_qpcr_data true st = Ok st' →
  od_get id (src_data st) = Some data →
  od_get id (mira_data st) = Some row →
  d_qpcr data !! i = Some q →
  let col := (length (variables st) + (4 + (2 * i + 1)))%nat in
  variables st' !! col = Some ("PCR_" +:+ Py.str (S i)) ∧
  ∃ row' data',
    od_get id (mira_data st') = Some row' ∧
    od_get id (src_data st') = Some data' ∧
    if Py.truthy (q_vload q)
    then ∃ x y, float_of_str (q_vload q) = Ok x ∧ log10_1p x = Ok y ∧
                row' !! col = Some (float_str y) ∧
                q_vload <$> d_qpcr data' !! i = Some (float_str y)
    else row' !! col = Some "" ∧
         render_cell <$> row' !! col = Some sentinel ∧
         q_vload <$> d_qpcr data' !! i = Some "".
Proof.
  intros Hal Hrun Hs Hm Hq. cbv zeta.
  set (max_len := max_series_len (fun d => Some (d_qpcr d)) (src_data st)).
  destruct (add_qpcr_data_rows _ _ _ Hal Hrun) as (Hsrc & _ & cellss & Hcs & Hmira).
  fold max_len in Hsrc, Hcs.
  destruct (extended_row _ _ _ _ _ _ _ Hal Hcs Hmira Hs Hm) as (cells & Hc & Hrow').
  destruct (aligned_position _ _ _ _ Hal Hs Hm) as (j & Hsj & Hmj).
  destruct (qpcr_rewrite_lookup _ _ _ _ _ _ _ Hsrc Hsj) as (series' & cells' & Hqc & Hsj').
  unfold qpcr_row_cells in Hc. rewrite Hqc in Hc. simpl in Hc. inversion Hc; subst cells'.
  assert (length row = length (variables st)) as Hlen.
  { destruct Hal as (_ & _ & Hw). rewrite Forall_forall in Hw.
    apply (Hw (id, row)). by eapply list_elem_of_lookup_2. }
  assert (i < max_len)%nat as Hi.
  { apply lookup_lt_Some in Hq.
    assert (length (d_qpcr data) ≤ max_len)%nat; [|lia].
    apply (max_series_len_ge (fun d => Some (d_qpcr d)) (src_data st) data); [|done].
    apply list_elem_of_fmap. exists (id, data). split; [done|].
    by eapply list_elem_of_lookup_2. }
  split.
  { rewrite (add_qpcr_data_variables _ _ _ Hrun). fold max_len.
    rewrite lookup_app_r by lia. rewrite Nat.add_comm, Nat.add_sub.
    change (4 + (2 * i + 1))%nat with (length ["PCR"; "PCR_MAX"; "PCR_MIN"; "PCR_AVE"]
                                        + (2 * i + 1))%nat.
    rewrite lookup_app_r by lia. rewrite Nat.add_comm, Nat.add_sub.
    apply (pairs_lookup (fun i => "DOPCR_" +:+ Py.str i) (fun i => "PCR_" +:+ Py.str i)).
    by rewrite lookup_seq_lt. }
  pose proof (qpcr_cells_shape _ _ _ _ _ Hqc) as Hshape.
  destruct (d_qpcr data) as [|q0 series] eqn:Hseries; [done|].
  destruct Hshape as (Hall & acc & slen & _ & Hcells).
  destruct (Forall2_lookup_l _ _ _ _ _ Hall Hq) as (q' & Hq' & Hrw).
  assert (cells !! (4 + (2 * i + 1))%nat = Some (q_vload q')) as Hcell.
  { rewrite Hcells. rewrite lookup_app_r by (rewrite derived_cells_length; lia).
    rewrite derived_cells_length, Nat.add_comm, Nat.add_sub.
    rewrite lookup_app_l.
    - by apply slot_cells_lookup.
    - rewrite slot_cells_length. apply lookup_lt_Some in Hq'. lia. }
  assert ((row ++ cells) !! (length (variables st) + (4 + (2 * i + 1)))%nat
          = Some (q_vload q')) as Hcol.
  { rewrite lookup_app_r by lia. rewrite <- Hlen, Nat.add_comm, Nat.add_sub. done. }
  exists (row ++ cells), (with_qpcr series' data). split; [done|]. split.
  { apply (od_lookup_get _ j); [|done]. destruct Hal as (Hwf & _ & _).
    unfold od_wf. by rewrite (qpcr_rewrite_keys _ _ _ _ Hsrc). }
  change (d_qpcr (with_qpcr series' data)) with series'. rewrite Hq', Hcol. simpl.
  destruct Hrw as (_ & _ & Hv). destruct (Py.truthy (q_vload q)).
  - destruct Hv as (fval & Hf & Hv). unfold to_fval in Hf. bind_inv Hf.
    exists a, fval. by rewrite Hv.
  - by rewrite Hv.
Qed.

Lemma log_mode_rewrites_slot_values_witness :
  ∃ st' row' data',
    aligned Cohort.two_patients ∧
    add_qpcr_data true Cohort.two_patients = Ok st' ∧
    variables st' !! 11%nat = Some "PCR_3" ∧
    od_get "A1" (mira_data st') = Some row' ∧
    od_get "A1" (src_data st') = Some data' ∧
    ∃ x y, float_of_str "99" = Ok x ∧ log10_1p x = Ok y ∧
           row' !! 11%nat = Some (float_str y) ∧
           q_vload <$> d_qpcr data' !! 2%nat = Some (float_str y).
Proof.
  assert (aligned Cohort.two_patients) as Hal.
  { split_and!; [|reflexivity|repeat constructor].
    unfold od_wf, od_keys. simpl. apply (bool_decide_unpack _). vm_compute. exact I. }
  destruct (add_qpcr_data true Cohort.two_patients) as [st'|e] eqn:E;
    [|run_ok E].
  destruct (log_mode_rewrites_slot_values Cohort.two_patients st' "A1" _ ["A1"; "1"]
              2 (mk_sample "3" "d3" "99") Hal E eq_refl eq_refl eq_refl)
    as (Hvar & row' & data' & Hrow & Hdata & Hval).
  exists st', row', data'.
  cbn [Py.truthy q_vload] in Hval.
  split_and!; [exact Hal|reflexivity| |exact Hrow|exact Hdata|exact Hval].
  vm_compute in Hvar. vm_compute. exact Hvar.
Defined.

(** ** Derived viral-load statistics *)

(** C1 (fails on the code): the derived columns PCR, PCR_MAX, PCR_MIN and
    PCR_AVE are meant to be the first value, maximum, minimum and mean of the
    non-empty readings.  [add_qpcr_data] tests [if first_qpcr:], which is
    false for a first reading of zero as well as for None: a series whose only
    reading converts to zero gets four sentinels, and a zero first reading
    followed by a non-zero one is dropped from first, maximum and minimum
    while it still counts in the divisor of the mean. *)
Theorem zero_reading_is_lost `{FloatOps} (log : bool) (count : nat)
    (idx date v idx1 date1 v1 : string) (x x1 : float) :
  Py.truthy v = true → to_fval log v = Ok x → float_bool x = false →
  Py.truthy v1 = true → to_fval log v1 = Ok x1 → float_bool x1 = true →
  qpcr_cells log count [mk_sample idx date v] =
    Ok ([mk_sample idx date (float_str x)],
        [sentinel; sentinel; sentinel; sentinel] ++ [date; float_str x] ++
        replicate (count - 4 - 2) sentinel) ∧
  qpcr_cells log count [mk_sample idx date v; mk_sample idx1 date1 v1] =
    Ok ([mk_sample idx date (float_str x); mk_sample idx1 date1 (float_str x1)],
        [float_str x1; float_str x1; float_str x1; float_str (float_div x1 2)] ++
        [date; float_str x; date1; float_str x1] ++
        replicate (count - 4 - 4) sentinel).
Proof.
  intros Hv Hx Hz Hv1 Hx1 Hnz. unfold qpcr_cells. simpl.
  rewrite Hv, Hx. simpl. rewrite Hv1, Hx1. simpl.
  rewrite Hz. unfold derived_cells. simpl. by rewrite Hnz.
Qed.

Lemma zero_reading_is_lost_witness :
  qpcr_cells false 8 [mk_sample "1" "d1" "0"] =
    Ok ([mk_sample "1" "d1" "0.0"],
        [sentinel; sentinel; sentinel; sentinel; "d1"; "0.0"; sentinel; sentinel]) ∧
  qpcr_cells false 8 [mk_sample "1" "d1" "0"; mk_sample "2" "d2" "5"] =
    Ok ([mk_sample "1" "d1" "0.0"; mk_sample "2" "d2" "5.0"],
        ["5.0"; "5.0"; "5.0"; "2.5"; "d1"; "0.0"; "d2"; "5.0"]).
Proof.
  exact (zero_reading_is_lost false 8 "1" "d1" "0" "2" "d2" "5"
           (ExactFloat.of_Z 0) (ExactFloat.of_Z 5)
           eq_refl eq_refl eq_refl eq_refl eq_refl eq_refl).
Defined.

(** ** Closed vocabulary of the coded variables *)

Lemma for_each_raises {A S} (body : A → S → result S) xs x s :
  x ∈ xs → (∀ t, is_ok (body x t) = false) → is_ok (for_each body xs s) = false.
Proof.
  intros Hx Hbody. destruct (for_each body xs s) as [s'|e] eqn:Hrun; [|done].
  destruct (for_each_ok_step _ _ _ _ _ Hrun Hx) as (s1 & s2 & Hs).
  specialize (Hbody s1). by rewrite Hs in Hbody.
Qed.

Lemma map_each_raises {A B} (f : A → result B) xs x :
  x ∈ xs → is_ok (f x) = false → is_ok (map_each f xs) = false.
Proof.
  intros Hx Hf. destruct (map_each f xs) as [ys|e] eqn:Hrun; [|done].
  destruct (map_each_ok_elem _ _ _ _ Hrun Hx) as (y & Hy). by rewrite Hy in Hf.
Qed.

(** C2 (fails on the code): a raw value absent from the code map is replaced by
    the empty cell in [add_demo_data], but [add_case_data] indexes the code map
    without the membership test: the lookup raises KeyError and the run aborts. *)
Theorem case_unmapped_value_aborts (case_dict : list (Z * var_info)) (st : state)
    (id : string) (data : patient) (col : Z) (var : var_info)
    (idict : gmap string string) (val : string) :
  (id, data) ∈ src_data st →
  (col, var) ∈ case_dict →
  v_idict var = Some idict →
  raw_cell (d_case data) col = Ok val →
  idict !! val = None →
  case_cell data (col, var) = Raise KeyError ∧
  is_ok (add_case_data case_dict st) = false ∧
  (∀ data', d_demo data' = d_case data → demo_cell data' (col, var) = Ok "").
Proof.
  intros Hdata Hvar Hidict Hraw Hval.
  assert (case_cell data (col, var) = Raise KeyError) as Hcell.
  { unfold case_cell. simpl. rewrite Hraw, Hidict. simpl. unfold dict_get.
    by rewrite Hval. }
  split_and!; [done| |].
  - unfold add_case_data.
    destruct (declare_vars_frame case_dict st) as (Hs & _ & _). rewrite Hs.
    match goal with |- is_ok (?m ≫= _) = false => assert (is_ok m = false) as Hloop end.
    { apply (for_each_raises _ _ (id, data)); [done|]. intros mira. simpl.
      destruct (od_item id mira); [|done]. simpl.
      assert (is_ok (map_each (case_cell data) case_dict) = false) as Hm.
      { apply (map_each_raises _ _ (col, var)); [done|]. by rewrite Hcell. }
      by destruct (map_each (case_cell data) case_dict). }
    by destruct (for_each _ _ _).
  - intros data' Hd. unfold demo_cell. simpl. rewrite Hd, Hraw, Hidict. simpl.
    by rewrite Hval.
Qed.

Lemma case_unmapped_value_aborts_witness :
  case_cell (mk_patient "Epos" None None None (Some ["EP1"; "Maybe"]) None [])
            (1%Z, mk_var "FEVER" "Fever" "Clinical" "Symptoms" "category"
                         (Some "1:Yes;0:No")
                         (Some (<["No" := "0"]> (<["Yes" := "1"]> {[ "" := "" ]}))))
    = Raise KeyError.
Proof.
  set (data := mk_patient "Epos" None None None (Some ["EP1"; "Maybe"]) None []).
  set (var := mk_var "FEVER" "Fever" "Clinical" "Symptoms" "category"
                     (Some "1:Yes;0:No")
                     (Some (<["No" := "0"]> (<["Yes" := "1"]> {[ "" := "" ]})))).
  refine (proj1 (case_unmapped_value_aborts [(1%Z, var)]
                   (with_src [("EP1", data)] init_state) "EP1" data 1%Z var
                   (<["No" := "0"]> (<["Yes" := "1"]> {[ "" := "" ]})) "Maybe"
                   _ _ eq_refl eq_refl _)).
  - simpl. apply list_elem_of_singleton. reflexivity.
  - apply list_elem_of_singleton. reflexivity.
  - vm_compute. reflexivity.
Defined.

(** ** Cluster codes *)

Lemma split_no_sep (sep : ascii) (s : string) :
  (∀ i, String.get i s ≠ Some sep) → Py.split sep s = [s].
Proof.
  induction s as [|c s IH]; intros Hno; simpl; [done|].
  rewrite bool_decide_eq_false_2.
  - rewrite IH; [done|]. intros i. apply (Hno (S i)).
  - intros ->. by apply (Hno 0%nat).
Qed.

(** C7 (fails on the code): a compound code is decoded as [cluster.extra], each
    absent part defaulting to empty; but [load_cluster_data] reads [parts[1]]
    unconditionally, so for a code with no dot the decoding raises IndexError
    and the load aborts instead of taking the defaults. *)
Theorem cluster_code_without_dot_aborts (code : string) :
  (∀ i, String.get i code ≠ Some "."%char) →
  decode_cluster code = Raise IndexError ∧
  ∀ header id x, load_cluster_data [header; [id; x; code]] = Raise IndexError.
Proof.
  intros Hno.
  assert (decode_cluster code = Raise IndexError) as Hdec.
  { unfold decode_cluster. by rewrite (split_no_sep _ _ Hno). }
  split; [done|]. intros header id x. unfold load_cluster_data. simpl.
  unfold cluster_row. simpl. by rewrite Hdec.
Qed.

Lemma cluster_code_without_dot_aborts_witness :
  decode_cluster "2" = Raise IndexError ∧
  ∀ header id x, load_cluster_data [header; [id; x; "2"]] = Raise IndexError.
Proof.
  apply (cluster_code_without_dot_aborts "2").
  intros [|[|i]]; simpl; discriminate.
Defined.

(** ** Malformed dictionary rows *)

Lemma unpack_pair_raises p :
  length (Py.split ":" p) ≠ 2%nat → unpack_pair p = Raise ValueError.
Proof. unfold unpack_pair. by destruct (Py.split ":" p) as [|a [|b [|c l]]]. Qed.

Lemma parse_idict_raises rstr p :
  p ∈ Py.split ";" rstr → p ≠ "" → length (Py.split ":" p) ≠ 2%nat →
  is_ok (parse_idict rstr) = false.
Proof.
  intros Hp Hne Hlen. unfold parse_idict. apply (for_each_raises _ _ p); [done|].
  intros m. unfold idict_part. apply truthy_nonempty in Hne. rewrite Hne.
  by rewrite (unpack_pair_raises _ Hlen).
Qed.

Lemma dict_row_raises row dict :
  malformed_dict_row row → is_ok (dict_row row dict) = false.
Proof.
  intros [r0 rest -> Hint | Hfew | rstr p Hlen Hrstr Hp Hne Hsplit]; unfold dict_row.
  - simpl. by destruct (Py.int r0).
  - destruct row as [|a [|b [|c [|d [|e [|f row]]]]]]; simpl in *; try lia;
      try done; by destruct (Py.int a).
  - destruct row as [|a [|b [|c [|d [|e [|f [|g [|h row]]]]]]]]; try done.
    simpl in Hrstr. inversion Hrstr; subst g. simpl.
    destruct (Py.int a); [simpl|done].
    pose proof (parse_idict_raises _ _ Hp Hne Hsplit) as Hraise.
    by destruct (parse_idict rstr).
Qed.

(** C8 as the code has it: [load_dict] raises, and returns no dictionary, when
    some row of the file has a position field that is not an integer literal,
    or fewer than six fields, or exactly seven fields and a code spec with a
    non-empty part that does not split at colons into exactly two. *)
Theorem malformed_dict_row_aborts (rows : list (list string)) (row : list string) :
  row ∈ rows → malformed_dict_row row → ∃ e, load_dict rows = Raise e.
Proof.
  intros Hrow Hbad.
  assert (is_ok (load_dict rows) = false) as Hraise.
  { unfold load_dict. apply (for_each_raises _ _ row); [done|].
    intros dict. by apply dict_row_raises. }
  destruct (load_dict rows) as [d|e]; [done|]. by exists e.
Qed.

Lemma malformed_dict_row_aborts_witness :
  ∃ e, load_dict [["3"; "SEX"; "Sex"; "Demographics"; "Basic"; "category";
                   "1:Male;0:Female"];
                  ["4"; "AGE"; "Age"; "Demographics"; "Basic"; "category";
                   "1:Young;Old"]] = Raise e.
Proof.
  apply (malformed_dict_row_aborts _
           ["4"; "AGE"; "Age"; "Demographics"; "Basic"; "category"; "1:Young;Old"]).
  - apply list_elem_of_In. right. left. reflexivity.
  - apply (bad_code_pair _ "1:Young;Old" "Old"); [reflexivity|reflexivity| | |].
    + apply list_elem_of_In. right. left. reflexivity.
    + discriminate.
    + simpl. discriminate.
Defined.

(** The claim as written fails: a row of eight fields is loaded although its
    seventh field has a part that is no pair; the entry has neither the code
    spec nor a code map. *)
Lemma long_row_loses_its_code_spec :
  "bad" ∈ Py.split ";" "1:Male;bad" ∧
  length (Py.split ":" "bad") ≠ 2%nat ∧
  load_dict [["4"; "SEX"; "Sex"; "Demographics"; "Basic"; "category"; "1:Male;bad";
              "note"]]
  = Ok [(4%Z, mk_var "SEX" "Sex" "Demographics" "Basic" "category" None None)].
Proof.
  split_and!.
  - apply list_elem_of_In. right. left. reflexivity.
  - simpl. discriminate.
  - vm_compute. reflexivity.
Qed.

(** ** Code maps *)

(** The entries [load_dict] builds: the code map is the parse of the retained
    code spec, and both are present or absent together. *)
Lemma load_dict_entries rows dict col info :
  load_dict rows = Ok dict → (col, info) ∈ dict →
  match v_idict info with
  | Some idict => ∃ r, v_ranges info = Some r ∧ parse_idict r = Ok idict
  | None => v_ranges info = None
  end.
Proof.
  unfold load_dict. intros Hrun Hin.
  revert col info Hin.
  eapply (for_each_invariant
           (fun d : list (Z * var_info) =>
              ∀ col info, (col, info) ∈ d →
                match v_idict info with
                | Some idict => ∃ r, v_ranges info = Some r ∧ parse_idict r = Ok idict
                | None => v_ranges info = None
                end) dict_row rows); [| |exact Hrun].
  - intros row d d' _ Hd Hstep col info Hin. unfold dict_row in Hstep.
    do 7 bind_inv Hstep. case_bool_decide.
    + do 2 bind_inv Hstep. inversion Hstep; subst d'.
      apply od_set_elem in Hin as [[-> ->]|Hin]; [|by apply (Hd col)]. simpl. by eauto.
    + inversion Hstep; subst d'.
      apply od_set_elem in Hin as [[-> ->]|Hin]; [|by apply (Hd col)]. done.
  - intros col info []%elem_of_nil.
Qed.

Lemma parse_idict_empty_key r idict :
  parse_idict r = Ok idict → is_Some (idict !! "").
Proof.
  unfold parse_idict. intros Hrun.
  eapply (for_each_invariant (fun m : gmap string string => is_Some (m !! "")));
    [| |exact Hrun].
  - intros p m m' _ Hm Hstep. unfold idict_part in Hstep.
    destruct (Py.truthy p); [|by inversion Hstep; subst].
    bind_inv Hstep. destruct a as [value key]. inversion Hstep; subst m'.
    destruct (decide (key = "")) as [->|Hne].
    + rewrite lookup_insert_eq. by eauto.
    + by rewrite lookup_insert_ne.
  - rewrite lookup_singleton_eq. by eauto.
Qed.

Lemma parse_idict_empty_value r idict :
  parse_idict r = Ok idict →
  (∀ p code, p ∈ Py.split ";" r → unpack_pair p ≠ Ok (code, "")) →
  idict !! "" = Some "".
Proof.
  unfold parse_idict. intros Hrun Hlabels.
  eapply (for_each_invariant (fun m : gmap string string => m !! "" = Some ""));
    [| |exact Hrun].
  - intros p m m' Hp Hm Hstep. unfold idict_part in Hstep.
    destruct (Py.truthy p); [|by inversion Hstep; subst].
    bind_inv Hstep. destruct a as [value key]. inversion Hstep; subst m'.
    rewrite lookup_insert_ne; [done|]. intros ->. by apply (Hlabels p value).
  - apply lookup_singleton_eq.
Qed.

(** C9 as the code has it: every code map built by [load_dict] has the empty
    string as a key, so for a patient with no case-notification row the lookup
    of the empty raw value never fails for any variable of the dictionary; the
    cell is empty unless a pair of the variable's code spec has an empty label,
    in which case the map sends the empty string to that pair's code. *)
Theorem empty_cell_lookup_never_fails (rows : list (list string))
    (dict : list (Z * var_info)) (data : patient) :
  load_dict rows = Ok dict →
  Py.truthy_list (d_case data) = false →
  ∃ cells,
    map_each (case_cell data) dict = Ok cells ∧
    ∀ i col info, dict !! i = Some (col, info) →
      match v_idict info with
      | Some idict =>
          is_Some (idict !! "") ∧ cells !! i = idict !! "" ∧
          (no_empty_label info → cells !! i = Some "")
      | None => cells !! i = Some ""
      end.
Proof.
  intros Hload Hcase.
  set (cell := fun e : Z * var_info =>
                 match v_idict e.2 with
                 | Some idict => default "" (idict !! "")
                 | None => ""
                 end).
  assert (∀ e, e ∈ dict → case_cell data e = Ok (cell e)) as Hcell.
  { intros [col info] Hin. unfold case_cell, raw_cell, cell. rewrite Hcase. simpl.
    pose proof (load_dict_entries _ _ _ _ Hload Hin) as Hentry.
    destruct (v_idict info) as [idict|]; [|done].
    destruct Hentry as (r & _ & Hparse).
    destruct (parse_idict_empty_key _ _ Hparse) as [v Hv].
    unfold dict_get. by rewrite Hv. }
  exists (map cell dict). split; [by apply map_each_total|].
  intros i col info Hi. rewrite list_lookup_fmap, Hi. simpl. unfold cell. simpl.
  pose proof (load_dict_entries _ _ col info Hload) as Hentry.
  destruct (v_idict info) as [idict|]; [|done].
  destruct Hentry as (r & Hr & Hparse); [by eapply list_elem_of_lookup_2|].
  destruct (parse_idict_empty_key _ _ Hparse) as [v Hv]. rewrite Hv. simpl.
  split_and!; [by eauto|done|]. intros Hlabels.
  rewrite <- Hv. apply (parse_idict_empty_value _ _ Hparse).
  intros p code Hp. by apply (Hlabels r p code).
Qed.

Lemma empty_cell_lookup_never_fails_witness :
  ∃ cells,
    map_each (case_cell (mk_patient "Eneg" None None None None None []))
             [(1%Z, mk_var "FEVER" "Fever" "Clinical" "Symptoms" "category"
                           (Some "1:Yes;0:No")
                           (Some (<["No" := "0"]> (<["Yes" := "1"]> {[ "" := "" ]}))))]
      = Ok cells ∧
    cells !! 0%nat = Some "".
Proof.
  destruct (empty_cell_lookup_never_fails
              [["1"; "FEVER"; "Fever"; "Clinical"; "Symptoms"; "category"; "1:Yes;0:No"]]
              [(1%Z, mk_var "FEVER" "Fever" "Clinical" "Symptoms" "category"
                            (Some "1:Yes;0:No")
                            (Some (<["No" := "0"]> (<["Yes" := "1"]> {[ "" := "" ]}))))]
              (mk_patient "Eneg" None None None None None [])
              eq_refl eq_refl) as (cells & Hcells & Hall).
  exists cells. split; [exact Hcells|].
  destruct (Hall 0%nat _ _ eq_refl) as (_ & Hcell & _). rewrite Hcell.
  vm_compute. reflexivity.
Defined.

(** The claim as written fails: a pair with an empty label overrides the entry
    for the empty string. *)
Lemma empty_label_overrides_empty_key :
  ¬ (∀ rows dict col info idict,
       load_dict rows = Ok dict → (col, info) ∈ dict → v_idict info = Some idict →
       idict !! "" = Some "").
Proof.
  intros Hclaim.
  specialize (Hclaim [["1"; "FEVER"; "Fever"; "Clinical"; "Symptoms"; "category"; "9:"]]
                     _ 1%Z _ _ eq_refl (list_elem_of_here _ _) eq_refl).
  vm_compute in Hclaim. discriminate Hclaim.
Qed.

(** ** The exported dictionary *)

Lemma int_raises_ValueError s e : Py.int s = Raise e → e = ValueError.
Proof.
  assert (∀ t, Py.literal_value t = Raise e → e = ValueError) as Hu.
  { intros t. unfold Py.literal_value.
    destruct (Py.digitpart_value _ _ _); [done|by intros [= <-]]. }
  unfold Py.int.
  destruct (String.rev (Py.skip_space (String.rev (Py.skip_space s)))) as [|c t];
    [apply Hu|].
  destruct c as [[] [] [] [] [] [] [] []]; try apply Hu.
  destruct (Py.literal_value t) eqn:Ht; [done|]. simpl. intros [= <-]. by eapply Hu.
Qed.

Lemma dict_row_bad_position t rest dict :
  is_ok (Py.int t) = false → dict_row (t :: rest) dict = Raise ValueError.
Proof.
  intros Hint. unfold dict_row. simpl.
  destruct (Py.int t) as [z|e] eqn:He; [done|].
  by rewrite (int_raises_ValueError _ _ He).
Qed.

Lemma dict_export_row_spec st var r :
  var_ranges st !! var = Some r → Py.truthy r = true →
  ∀ row, dict_export_row st var = Ok row → ∃ title type, row = [title; type; r].
Proof.
  intros Hr Ht row. unfold dict_export_row. rewrite Hr, Ht. intros Hrun.
  do 2 bind_inv Hrun. inversion Hrun. by eauto.
Qed.

(** C6 as the code has it: the dictionary CSV that [save_dict] writes has rows
    [title, type[, codeSpec]] and is not input for [load_dict], which raises
    ValueError on a first field that is not an integer literal.  What survives
    the export is the raw code spec: a variable whose recorded range string is
    the non-empty spec [r] of a dictionary entry is written as [title, type, r],
    and parsing [r] as [load_dict] parses a seventh field gives that entry's
    code map. *)
Theorem code_spec_survives_export (drows : list (list string))
    (dict : list (Z * var_info)) (col : Z) (info : var_info) (r : string)
    (st : state) (rows : list (list string)) (i : nat) (var : string) :
  load_dict drows = Ok dict → (col, info) ∈ dict →
  v_ranges info = Some r → Py.truthy r = true →
  save_dict st = Ok rows →
  variables st !! i = Some var → var_ranges st !! var = Some r →
  (∃ title type, rows !! i = Some [title; type; r]) ∧
  (∃ idict, v_idict info = Some idict ∧ parse_idict r = Ok idict) ∧
  (∀ t rest others, rows = (t :: rest) :: others → is_ok (Py.int t) = false →
                    load_dict rows = Raise ValueError).
Proof.
  intros Hload Hin Hr Ht Hsave Hvar Hrange. split_and!.
  - unfold save_dict in Hsave.
    destruct (map_each_lookup _ _ _ _ _ Hsave Hvar) as (row & Hrow & Hi).
    destruct (dict_export_row_spec _ _ _ Hrange Ht _ Hrow) as (title & type & ->).
    by exists title, type.
  - pose proof (load_dict_entries _ _ _ _ Hload Hin) as Hentry.
    destruct (v_idict info) as [idict|]; [|congruence].
    destruct Hentry as (r' & Hr' & Hparse). exists idict. split; [done|]. congruence.
  - intros t rest others -> Hint. unfold load_dict. rewrite for_each_cons.
    by rewrite dict_row_bad_position.
Qed.

Lemma code_spec_survives_export_witness :
  ∃ title type idict,
    save_dict (declare_vars
                 [(3%Z, mk_var "SEX" "Sex" "Demographics" "Basic" "category"
                               (Some "1:Male;0:Female")
                               (Some (<["Female" := "0"]>
                                        (<["Male" := "1"]> {[ "" := "" ]}))))]
                 init_state) = Ok [[title; type; "1:Male;0:Female"]] ∧
    parse_idict "1:Male;0:Female" = Ok idict ∧
    load_dict [[title; type; "1:Male;0:Female"]] = Raise ValueError.
Proof.
  set (info := mk_var "SEX" "Sex" "Demographics" "Basic" "category"
                      (Some "1:Male;0:Female")
                      (Some (<["Female" := "0"]> (<["Male" := "1"]> {[ "" := "" ]})))).
  destruct (code_spec_survives_export
              [["3"; "SEX"; "Sex"; "Demographics"; "Basic"; "category";
                "1:Male;0:Female"]]
              [(3%Z, info)] 3%Z info "1:Male;0:Female"
              (declare_vars [(3%Z, info)] init_state)
              [["Sex"; "category"; "1:Male;0:Female"]] 0 "SEX"
              eq_refl (list_elem_of_here _ _) eq_refl eq_refl eq_refl eq_refl eq_refl)
    as (_ & (idict & _ & Hparse) & Hreject).
  exists "Sex", "category", idict. split_and!; [reflexivity|exact Hparse|].
  apply (Hreject "Sex" ["category"; "1:Male;0:Female"] []); reflexivity.
Defined.

(** The claim as written fails: [load_dict] rejects the dictionary that the run
    on the example cohort exports. *)
Lemma exported_dictionary_is_rejected :
  ∃ st rows,
    aggregate false false Cohort.tables = Ok st ∧
    save_dict st = Ok rows ∧
    load_dict rows = Raise ValueError.
Proof.
  assert ((st ← aggregate false false Cohort.tables; rows ← save_dict st;
           load_dict rows) = Raise ValueError) as Hrun by (vm_compute; reflexivity).
  assert (is_ok (st ← aggregate false false Cohort.tables; save_dict st) = true)
    as Hok by (vm_compute; reflexivity).
  destruct (aggregate false false Cohort.tables) as [st|e]; [|discriminate Hok].
  simpl in Hrun, Hok. destruct (save_dict st) as [rows|e] eqn:S; [|discriminate Hok].
  exists st, rows. split_and!; [reflexivity|exact S|exact Hrun].
Qed.

(** ** Declarations and metadata *)

Lemma declares_trans G st1 st2 st3 :
  declares G st1 st2 → declares G st2 st3 → declares G st1 st3.
Proof. intros H12 H23. induction H23; [done|by constructor..]. Qed.

Lemma declares_with_mira G st st' mira :
  declares G st st' → declares G st (with_mira mira st').
Proof. intros Hd. exact (declares_rows G st st' (src_data st') mira Hd). Qed.

Lemma declare_var_declares G entry st :
  (∀ r, v_ranges entry.2 = Some r → G r) → declares G st (declare_var entry st).
Proof.
  intros HG. unfold declare_var. destruct (v_ranges entry.2) as [r|].
  - apply declares_ranges; [|by apply HG]. apply declares_add. constructor.
  - apply declares_add. constructor.
Qed.

Lemma declare_vars_declares G dict st :
  (∀ entry r, entry ∈ dict → v_ranges entry.2 = Some r → G r) →
  declares G st (declare_vars dict st).
Proof.
  revert st. induction dict as [|e dict IH]; intros st HG; simpl; [constructor|].
  eapply declares_trans.
  - apply (declare_var_declares G e st). intros r. apply HG. by left.
  - apply IH. intros entry r Hin. apply HG. by right.
Qed.

Lemma for_each_declares {A} G (body : A → state → result state) xs st st' :
  (∀ x s s', body x s = Ok s' → declares G s s') →
  for_each body xs st = Ok st' → declares G st st'.
Proof.
  intros Hbody Hrun.
  eapply (for_each_invariant (declares G st)); [|constructor|exact Hrun].
  intros x s s' _ Hs Hx. eapply declares_trans; [exact Hs|]. by eapply Hbody.
Qed.

Lemma foldl_declares {A} G (f : state → A → state) xs st :
  (∀ x s, declares G s (f s x)) → declares G st (foldl f st xs).
Proof.
  intros Hf. revert st. induction xs as [|x xs IH]; intros st; simpl; [constructor|].
  eapply declares_trans; [apply Hf|apply IH].
Qed.

Lemma add_demo_data_declares G dict st st' :
  G "label" → G "1:Positive;0:Negative" →
  (∀ entry r, entry ∈ dict → v_ranges entry.2 = Some r → G r) →
  add_demo_data dict st = Ok st' → declares G st st'.
Proof.
  intros H1 H2 HG Hrun. unfold add_demo_data in Hrun. bind_inv Hrun.
  inversion Hrun; subst st'. apply declares_with_mira.
  eapply declares_trans; [|by apply declare_vars_declares].
  apply declares_ranges; [|done]. apply declares_add.
  apply declares_ranges; [|done]. apply declares_add. constructor.
Qed.

Lemma add_case_data_declares G dict st st' :
  (∀ entry r, entry ∈ dict → v_ranges entry.2 = Some r → G r) →
  add_case_data dict st = Ok st' → declares G st st'.
Proof.
  intros HG Hrun. unfold add_case_data in Hrun. bind_inv Hrun.
  inversion Hrun; subst st'. apply declares_with_mira.
  by apply declare_vars_declares.
Qed.

Lemma add_pico_data_declares G names info st st' :
  add_pico_data names info st = Ok st' → declares G st st'.
Proof.
  intros Hrun. unfold add_pico_data in Hrun. do 2 bind_inv Hrun.
  inversion Hrun; subst st'. apply declares_with_mira.
  eapply for_each_declares; [|exact Hrun0].
  intros i s s' Hday. unfold pico_declare_day in Hday.
  eapply declares_trans; [apply declares_add; constructor|].
  eapply for_each_declares; [|exact Hday].
  intros name t t' Hname. unfold pico_declare_name in Hname. bind_inv Hname.
  inversion Hname; subst t'. apply declares_add. constructor.
Qed.

Lemma add_qpcr_data_declares `{FloatOps} G log st st' :
  add_qpcr_data log st = Ok st' → declares G st st'.
Proof.
  intros Hrun. unfold add_qpcr_data in Hrun. bind_inv Hrun. destruct a as [src mira].
  inversion Hrun; subst st'. apply declares_rows.
  eapply declares_trans; [|apply foldl_declares].
  - do 4 apply declares_add. constructor.
  - intros i s. unfold qpcr_declare_day. do 2 apply declares_add. constructor.
Qed.

Lemma add_seq_data_declares G snp_vars snp_data af_vars af_data cl_vars cl_data st st' :
  G "1:Yes;0:No" → G "1:Cluster 1;2:Cluster 2;3:Cluster 3" →
  G "1:Sub-cluster a;2:Sub-cluster b;3:Sub-cluster c" →
  add_seq_data snp_vars snp_data af_vars af_data cl_vars cl_data st = Ok st' →
  declares G st st'.
Proof.
  intros H1 H2 H3 Hrun. unfold add_seq_data in Hrun. do 7 bind_inv Hrun.
  inversion Hrun; subst st'. apply declares_with_mira.
  apply declares_add. apply declares_ranges; [|done]. apply declares_add.
  apply declares_add. apply declares_ranges; [|done]. apply declares_add.
  eapply declares_trans; [|apply foldl_declares].
  - apply foldl_declares. intros p s. unfold seq_declare_snp.
    apply declares_ranges; [|done]. apply declares_add. constructor.
  - intros p s. unfold seq_declare_af. apply declares_add. constructor.
Qed.

(** The code specs that a run can record: the ones written in the script and
    the ones of the two variable dictionaries. *)
Lemma aggregate_declares `{FloatOps} (G : string → Prop) seq log i st :
  G "label" → G "1:Positive;0:Negative" → G "1:Yes;0:No" →
  G "1:Cluster 1;2:Cluster 2;3:Cluster 3" →
  G "1:Sub-cluster a;2:Sub-cluster b;3:Sub-cluster c" →
  (∀ rows dict entry r,
     rows = in_demo_dict i ∨ rows = in_case_dict i →
     load_dict rows = Ok dict → entry ∈ dict → v_ranges entry.2 = Some r → G r) →
  aggregate seq log i = Ok st →
  ∃ src, declares G (with_src src init_state) st.
Proof.
  intros H1 H2 H3 H4 H5 HG Hrun. unfold aggregate in Hrun.
  bind_inv Hrun. rename a into ld, Hrun0 into Hld.
  assert (load_dict (in_demo_dict i) = Ok (ld_demo_dict ld) ∧
          load_dict (in_case_dict i) = Ok (ld_case_dict ld)) as [Hdd Hcd].
  { unfold load_all in Hld. do 6 bind_inv Hld.
    destruct seq; [bind_inv Hld|]; inversion Hld; subst; done. }
  exists (ld_src ld).
  bind_inv Hrun. apply (add_demo_data_declares G) in Hrun0; [|done|done|].
  2:{ intros entry r. apply (HG (in_demo_dict i)); [by left|done]. }
  bind_inv Hrun. apply (add_case_data_declares G) in Hrun1.
  2:{ intros entry r. apply (HG (in_case_dict i)); [by right|done]. }
  bind_inv Hrun. apply (add_pico_data_declares G) in Hrun2.
  bind_inv Hrun. apply (add_qpcr_data_declares G) in Hrun3.
  assert (declares G (with_src (ld_src ld) init_state) a2) as Hd.
  { repeat (eapply declares_trans; [|eassumption]). constructor. }
  destruct (ld_clusters ld) as [[cl_vars cl_data]|].
  - apply (add_seq_data_declares G) in Hrun; [|done..].
    by eapply declares_trans.
  - by inversion Hrun; subst.
Qed.

Lemma od_set_append_perm {V} (names : V → list string) (d : list (string * V))
    (k : string) (empty new : V) (x : string) :
  names empty = [] →
  names new ≡ₚ names (default empty (od_get k d)) ++ [x] →
  concat (map (fun p => names p.2) (od_set k new d)) ≡ₚ
  concat (map (fun p => names p.2) d) ++ [x].
Proof.
  intros Hempty. induction d as [|[k' v'] d IH]; simpl; intros Hnew.
  - rewrite Hempty in Hnew. simpl in Hnew. by rewrite app_nil_r.
  - destruct (decide (k = k')) as [->|Hne]; simpl.
    + simpl in Hnew. rewrite Hnew, <- !app_assoc.
      apply Permutation_app_head, Permutation_app_comm.
    + rewrite (IH Hnew). by rewrite <- app_assoc.
Qed.

Lemma add_variable_hierarchy name title type gname tname st :
  hierarchy_names (var_groups (add_variable name title type gname tname st)) ≡ₚ
  hierarchy_names (var_groups st) ++ [name].
Proof.
  unfold add_variable, hierarchy_names. simpl.
  apply (od_set_append_perm (fun g : list (string * list string) => concat (map snd g))
           (var_groups st) gname []); [done|].
  destruct (od_get gname (var_groups st)) as [group|]; simpl.
  - apply (od_set_append_perm (fun t : list string => t) group tname []); [done|].
    by destruct (od_get tname group).
  - done.
Qed.

Lemma declares_metadata G st st' :
  declares G st st' → metadata_complete st → metadata_complete st'.
Proof.
  intros Hd Hst. induction Hd as [|st' name title type gname tname _ IH|
                                  st' name ranges _ IH _|st' src mira _ IH]; try done.
  destruct IH as [Hperm Hmeta]. split.
  - rewrite add_variable_hierarchy. simpl. by rewrite Hperm.
  - intros var. simpl. rewrite elem_of_app, list_elem_of_singleton.
    intros [Hvar| ->].
    + destruct (Hmeta var Hvar) as [Ht Hy].
      destruct (decide (name = var)) as [->|Hne].
      * rewrite !lookup_insert_eq. by eauto.
      * by rewrite !lookup_insert_ne.
    + rewrite !lookup_insert_eq. by eauto.
Qed.

Lemma aggregate_metadata `{FloatOps} seq log i st :
  aggregate seq log i = Ok st → metadata_complete st.
Proof.
  intros Hrun.
  destruct (aggregate_declares (fun _ => True) seq log i st) as [src Hd]; [done..|].
  apply (declares_metadata _ _ _ Hd). split; [done|].
  intros var []%elem_of_nil.
Qed.

(** The group hierarchy of a finished run lists exactly the declared
    variables: each declaration put its name into one table of one group. *)
Theorem hierarchy_lists_the_variables `{FloatOps} (seq log : bool) (i : inputs)
    (st : state) :
  aggregate seq log i = Ok st →
  hierarchy_names (var_groups st) ≡ₚ variables st.
Proof. intros Hrun. by destruct (aggregate_metadata _ _ _ _ Hrun). Qed.

Lemma hierarchy_lists_the_variables_witness :
  ∃ st, aggregate true false Cohort.tables = Ok st ∧
        hierarchy_names (var_groups st) ≡ₚ variables st.
Proof.
  destruct (aggregate true false Cohort.tables) as [st|e] eqn:E.
  - exists st. split; [reflexivity|]. exact (hierarchy_lists_the_variables _ _ _ _ E).
  - run_ok E.
Defined.

Lemma dict_export_row_exact st var title type :
  var_titles st !! var = Some title → var_types st !! var = Some type →
  dict_export_row st var =
    Ok (match var_ranges st !! var with
        | Some r => if bool_decide (r = "") then [title; type] else [title; type; r]
        | None => [title; type]
        end).
Proof.
  intros Ht Hy. unfold dict_export_row, dict_get. rewrite Ht, Hy. simpl.
  destruct (var_ranges st !! var) as [r|]; [|done]. by destruct r.
Qed.

(** After a run that ends normally [save_dict] cannot fail: it writes one row
    per declared variable, in the order of the variables; the row holds the
    title and the type recorded for the variable, followed by its range string
    exactly when one is recorded and is not empty. *)
Theorem save_dict_writes_every_variable `{FloatOps} (seq log : bool) (i : inputs)
    (st : state) :
  aggregate seq log i = Ok st →
  ∃ rows, save_dict st = Ok rows ∧
          length rows = length (variables st) ∧
          ∀ k var, variables st !! k = Some var →
            ∃ title type,
              var_titles st !! var = Some title ∧
              var_types st !! var = Some type ∧
              rows !! k =
                Some (match var_ranges st !! var with
                      | Some r => if bool_decide (r = "") then [title; type]
                                  else [title; type; r]
                      | None => [title; type]
                      end).
Proof.
  intros Hrun. destruct (aggregate_metadata _ _ _ _ Hrun) as [_ Hmeta].
  unfold save_dict. destruct (map_each (dict_export_row st) (variables st))
    as [rows|e] eqn:Hrows.
  - exists rows. split; [done|]. split; [by apply map_each_length in Hrows|].
    intros k var Hk. destruct (map_each_lookup _ _ _ _ _ Hrows Hk) as (row & Hrow & Hi).
    destruct (Hmeta var) as [[title Ht] [type Hy]]; [by eapply list_elem_of_lookup_2|].
    exists title, type. split_and!; [done..|].
    rewrite (dict_export_row_exact _ _ _ _ Ht Hy) in Hrow. inversion Hrow; subst row.
    exact Hi.
  - exfalso.
    assert (is_ok (map_each (dict_export_row st) (variables st)) = true) as Hok.
    { clear Hrows. induction (variables st) as [|var vars IH]; [done|].
      rewrite map_each_cons.
      destruct (Hmeta var) as [[title Ht] [type Hy]]; [by left|].
      rewrite (dict_export_row_exact _ _ _ _ Ht Hy). simpl.
      destruct (map_each (dict_export_row st) vars); [done|].
      apply IH. intros v Hv. apply Hmeta. by right. }
    by rewrite Hrows in Hok.
Qed.

Lemma save_dict_writes_every_variable_witness :
  ∃ st rows, aggregate true false Cohort.tables = Ok st ∧
             save_dict st = Ok rows ∧ length rows = length (variables st) ∧
             rows !! 1%nat = Some ["Diagnosis"; "category"; "1:Positive;0:Negative"] ∧
             rows !! 3%nat = Some ["Outcome"; "String"].
Proof.
  assert ((st ← aggregate true false Cohort.tables;
           Ok (variables st !! 1%nat, var_titles st !! "DIAG", var_types st !! "DIAG",
               var_ranges st !! "DIAG",
               (variables st !! 3%nat, var_titles st !! "OUT", var_types st !! "OUT",
                var_ranges st !! "OUT")))
          = Ok (Some "DIAG", Some "Diagnosis", Some "category",
                Some "1:Positive;0:Negative",
                (Some "OUT", Some "Outcome", Some "String", None))) as Hmeta
    by (vm_compute; reflexivity).
  destruct (aggregate true false Cohort.tables) as [st|e] eqn:E; [|discriminate Hmeta].
  simpl in Hmeta. injection Hmeta as Hv1 Ht1 Hy1 Hr1 Hv3 Ht3 Hy3 Hr3.
  destruct (save_dict_writes_every_variable _ _ _ _ E) as (rows & Hrows & Hlen & Hall).
  exists st, rows. split; [reflexivity|]. split; [exact Hrows|]. split; [exact Hlen|].
  destruct (Hall _ _ Hv1) as (title1 & type1 & Ht1' & Hy1' & Hrow1).
  destruct (Hall _ _ Hv3) as (title3 & type3 & Ht3' & Hy3' & Hrow3).
  rewrite Ht1 in Ht1'. rewrite Hy1 in Hy1'. rewrite Hr1 in Hrow1.
  rewrite Ht3 in Ht3'. rewrite Hy3 in Hy3'. rewrite Hr3 in Hrow3.
  injection Ht1' as <-. injection Hy1' as <-. injection Ht3' as <-. injection Hy3' as <-.
  split; [exact Hrow1|exact Hrow3].
Defined.

(** ** What the loaders store *)

Lemma getitem_nat {A} (l : list A) (n : nat) (x : A) :
  Py.getitem l (Z.of_nat n) = Ok x ↔ l !! n = Some x.
Proof.
  unfold Py.getitem. rewrite (proj2 (Z.leb_le 0 (Z.of_nat n))) by lia.
  rewrite (proj2 (Z.leb_le 0 (Z.of_nat n))) by lia. rewrite Nat2Z.id.
  destruct (l !! n); split; congruence.
Qed.

Lemma getitem_lit {A} (l : list A) (z : Z) (n : nat) (x : A) :
  z = Z.of_nat n → Py.getitem l z = Ok x → l !! n = Some x.
Proof. intros ->. apply getitem_nat. Qed.

Lemma for_each_snoc {A S} (body : A → S → result S) xs x s s' :
  for_each body (xs ++ [x]) s = Ok s' →
  ∃ s1, for_each body xs s = Ok s1 ∧ body x s1 = Ok s'.
Proof.
  rewrite for_each_app. intros Hrun. bind_inv Hrun. exists a. split; [done|].
  simpl in Hrun. by destruct (body x a).
Qed.

Lemma master_row_record ignore_id row src src' id :
  master_row ignore_id row src = Ok src' →
  od_get id src' =
    match admitted ignore_id id row with
    | None => od_get id src
    | Some (group, sample) =>
        match od_get id src with
        | Some data =>
            Some (mk_patient (d_group data) (d_outcome data) (d_sex data)
                             (d_demo data) (d_case data) (d_pico data)
                             (d_qpcr data ++ [sample]))
        | None => Some (mk_patient group None None None None None [sample])
        end
    end.
Proof.
  unfold master_row, admitted. intros Hrun. bind_inv Hrun. rename a into rid.
  apply (getitem_lit _ _ 1%nat) in Hrun0; [|done]. rewrite Hrun0.
  case_bool_decide as Hign.
  { inversion Hrun; subst. destruct (decide (rid = id)) as [->|Hne].
    - rewrite bool_decide_eq_true_2 by done. simpl.
      by rewrite bool_decide_eq_false_2 by (by intros Hn; apply Hn).
    - by rewrite bool_decide_eq_false_2 by congruence. }
  do 5 bind_inv Hrun.
  apply (getitem_lit _ _ 3%nat) in Hrun1; [|done].
  apply (getitem_lit _ _ 5%nat) in Hrun2; [|done].
  apply (getitem_lit _ _ 8%nat) in Hrun3; [|done].
  apply (getitem_lit _ _ 10%nat) in Hrun5; [|done].
  rewrite Hrun1, Hrun2, Hrun3, Hrun5.
  destruct (decide (rid = id)) as [->|Hne].
  - rewrite bool_decide_eq_true_2 by done. rewrite bool_decide_eq_true_2 by done. simpl.
    destruct (Py.truthy a3); simpl in Hrun; [|by inversion Hrun; subst].
    destruct (od_get id src); inversion Hrun; subst; by rewrite od_get_set_eq.
  - rewrite bool_decide_eq_false_2 by congruence. simpl.
    destruct (Py.truthy a3); simpl in Hrun; [|by inversion Hrun; subst].
    destruct (od_get rid src); inversion Hrun; subst; by rewrite od_get_set_ne.
Qed.

(** The store after [load_master]: the record of an identifier holds the
    samples of its admitted master rows in file order, the group of the first
    of them, and nothing else. *)
Theorem load_master_records (ignore_id : list string) (rows : list (list string))
    (src : list (string * patient)) (id : string) :
  load_master ignore_id rows [] = Ok src →
  od_get id src = master_record (omap (admitted ignore_id id) (tail rows)).
Proof.
  unfold load_master. intros Hrun. bind_inv Hrun.
  apply skip_header_tail in Hrun0 as <-. revert src Hrun.
  induction a as [|row body IH] using rev_ind; intros src Hrun.
  - by inversion Hrun.
  - apply for_each_snoc in Hrun as (src1 & Hbody & Hrow).
    rewrite (master_row_record _ _ _ _ id Hrow), (IH _ Hbody), omap_app. simpl.
    destruct (admitted ignore_id id row) as [[group sample]|]; simpl.
    + destruct (omap (admitted ignore_id id) body) as [|[g s] l]; simpl; [done|].
      by rewrite fmap_app.
    + by rewrite app_nil_r.
Qed.

Lemma load_master_records_witness :
  ∃ src, load_master ["X9"] (in_master Cohort.tables) [] = Ok src ∧
         od_get "EP1" src =
           Some (mk_patient "Epos" None None None None None
                   [mk_sample "1" "2014-06-01" "1000";
                    mk_sample "2" "2014-06-03" "4000"]).
Proof.
  destruct (load_master ["X9"] (in_master Cohort.tables) []) as [src|e] eqn:E.
  - exists src. split; [reflexivity|].
    exact (load_master_records _ _ _ "EP1" E).
  - run_ok E.
Defined.

(** A loader that updates the record named by the cell at [col], row by row. *)
Lemma keyed_loader (col : nat) (upd : patient → list string → patient)
    (step : list string → list (string * patient) → result (list (string * patient))) :
  (∀ row src src', step row src = Ok src' →
     ∃ rid, row !! col = Some rid ∧
            src' = match od_get rid src with
                   | Some data => od_set rid (upd data row) src
                   | None => src
                   end) →
  ∀ body src0 src id,
    for_each step body src0 = Ok src →
    od_get id src = (fun d0 => foldl upd d0 (rows_of col id body)) <$> od_get id src0.
Proof.
  intros Hstep body. induction body as [|row body IH] using rev_ind;
    intros src0 src id Hrun.
  - inversion Hrun; subst. by destruct (od_get id src).
  - apply for_each_snoc in Hrun as (src1 & Hbody & Hrow).
    destruct (Hstep _ _ _ Hrow) as (rid & Hrid & ->).
    unfold rows_of. rewrite filter_app. fold (rows_of col id body).
    destruct (decide (rid = id)) as [->|Hne].
    + rewrite filter_cons_True by done. rewrite filter_nil.
      pose proof (IH _ _ id Hbody) as Hid.
      destruct (od_get id src1) as [data|] eqn:Hget.
      * rewrite od_get_set_eq. destruct (od_get id src0); [|done].
        simpl in *. inversion Hid; subst. by rewrite foldl_app.
      * rewrite Hget. by destruct (od_get id src0).
    + rewrite filter_cons_False by congruence. rewrite filter_nil, app_nil_r.
      rewrite <- (IH _ _ id Hbody).
      destruct (od_get rid src1); [by rewrite od_get_set_ne|done].
Qed.

Lemma demo_row_step row src src' :
  demo_row row src = Ok src' →
  ∃ rid, row !! 1%nat = Some rid ∧
         src' = match od_get rid src with
                | Some data => od_set rid (demo_update data row) src
                | None => src
                end.
Proof.
  unfold demo_row. intros Hrun. bind_inv Hrun.
  apply (getitem_lit _ _ 1%nat) in Hrun0; [|done]. exists a. split; [done|].
  destruct (od_get a src) as [data|]; [|by inversion Hrun].
  do 2 bind_inv Hrun.
  apply (getitem_lit _ _ 3%nat) in Hrun1; [|done].
  apply (getitem_lit _ _ 7%nat) in Hrun2; [|done].
  inversion Hrun; subst. unfold demo_update. by rewrite Hrun1, Hrun2.
Qed.

Lemma case_row_step row src src' :
  case_row row src = Ok src' →
  ∃ rid, row !! 0%nat = Some rid ∧
         src' = match od_get rid src with
                | Some data => od_set rid (case_update data row) src
                | None => src
                end.
Proof.
  unfold case_row. intros Hrun. bind_inv Hrun.
  apply (getitem_lit _ _ 0%nat) in Hrun0; [|done]. exists a. split; [done|].
  destruct (od_get a src) as [data|]; by inversion Hrun.
Qed.

Lemma pico_row_step row src src' :
  pico_row row src = Ok src' →
  ∃ rid, row !! 3%nat = Some rid ∧
         src' = match od_get rid src with
                | Some data => od_set rid (pico_update data row) src
                | None => src
                end.
Proof.
  unfold pico_row. intros Hrun. bind_inv Hrun.
  apply (getitem_lit _ _ 3%nat) in Hrun0; [|done]. exists a. split; [done|].
  destruct (od_get a src) as [data|]; [|by inversion Hrun].
  inversion Hrun; subst. unfold pico_update. by destruct (d_pico data).
Qed.

Lemma foldl_demo_update d0 l :
  foldl demo_update d0 l =
    match last l with Some row => demo_update d0 row | None => d0 end.
Proof.
  induction l as [|row l IH] using rev_ind; [done|].
  rewrite foldl_app, last_snoc, IH. simpl. by destruct (last l).
Qed.

Lemma foldl_case_update d0 l :
  foldl case_update d0 l =
    match last l with Some row => case_update d0 row | None => d0 end.
Proof.
  induction l as [|row l IH] using rev_ind; [done|].
  rewrite foldl_app, last_snoc, IH. simpl. by destruct (last l).
Qed.

Lemma foldl_pico_update d0 l :
  foldl pico_update d0 l =
    match l with
    | [] => d0
    | _ => mk_patient (d_group d0) (d_outcome d0) (d_sex d0) (d_demo d0) (d_case d0)
                      (Some (default [] (d_pico d0) ++ l)) (d_qpcr d0)
    end.
Proof.
  induction l as [|row l IH] using rev_ind; [done|].
  rewrite foldl_app, IH. simpl. destruct l as [|r l]; simpl.
  - reflexivity.
  - unfold pico_update. simpl. by rewrite <- app_assoc.
Qed.

(** [load_demo]: a record that exists takes the demographics row, the sex and
    the outcome of the last row of the table that names it; a record that no
    row names is unchanged, and nothing else of a record changes. *)
Theorem load_demo_last_row_wins (rows : list (list string))
    (src0 src : list (string * patient)) (id : string) :
  load_demo rows src0 = Ok src →
  od_get id src =
    (fun d0 => match last (rows_of 1 id (tail rows)) with
               | Some row => demo_update d0 row
               | None => d0
               end) <$> od_get id src0.
Proof.
  unfold load_demo. intros Hrun. bind_inv Hrun.
  apply skip_header_tail in Hrun0 as <-.
  rewrite (keyed_loader 1 demo_update demo_row demo_row_step _ _ _ id Hrun).
  destruct (od_get id src0); [|done]. simpl. by rewrite foldl_demo_update.
Qed.

Lemma load_demo_last_row_wins_witness :
  ∃ src,
    load_demo [["h"]; ["1"; "A1"; "x"; "Male"; "30"; "y"; "z"; "Died"];
                      ["2"; "A1"; "x"; "Female"; "31"; "y"; "z"; "Discharged"]]
              (src_data Cohort.two_patients) = Ok src ∧
    (d_sex <$> od_get "A1" src) = Some (Some "Female") ∧
    (d_outcome <$> od_get "B2" src) = Some None.
Proof.
  destruct (load_demo [["h"]; ["1"; "A1"; "x"; "Male"; "30"; "y"; "z"; "Died"];
                       ["2"; "A1"; "x"; "Female"; "31"; "y"; "z"; "Discharged"]]
                      (src_data Cohort.two_patients)) as [src|e] eqn:E.
  - exists src. split; [reflexivity|].
    rewrite (load_demo_last_row_wins _ _ _ "A1" E).
    rewrite (load_demo_last_row_wins _ _ _ "B2" E). split; reflexivity.
  - run_ok E.
Defined.

(** [load_case]: a record that exists takes the last case-notification row that
    names it; nothing else changes. *)
Theorem load_case_last_row_wins (rows : list (list string))
    (src0 src : list (string * patient)) (id : string) :
  load_case rows src0 = Ok src →
  od_get id src =
    (fun d0 => match last (rows_of 0 id (tail rows)) with
               | Some row => case_update d0 row
               | None => d0
               end) <$> od_get id src0.
Proof.
  unfold load_case. intros Hrun. bind_inv Hrun.
  apply skip_header_tail in Hrun0 as <-.
  rewrite (keyed_loader 0 case_update case_row case_row_step _ _ _ id Hrun).
  destruct (od_get id src0); [|done]. simpl. by rewrite foldl_case_update.
Qed.

Lemma load_case_last_row_wins_witness :
  ∃ src,
    load_case [["h"]; ["A1"; "Yes"]; ["ZZ"; "No"]; ["A1"; "No"]]
              (src_data Cohort.two_patients) = Ok src ∧
    (d_case <$> od_get "A1" src) = Some (Some ["A1"; "No"]) ∧
    od_get "ZZ" src = None.
Proof.
  destruct (load_case [["h"]; ["A1"; "Yes"]; ["ZZ"; "No"]; ["A1"; "No"]]
                      (src_data Cohort.two_patients)) as [src|e] eqn:E.
  - exists src. split; [reflexivity|].
    rewrite (load_case_last_row_wins _ _ _ "A1" E).
    rewrite (load_case_last_row_wins _ _ _ "ZZ" E). split; reflexivity.
  - run_ok E.
Defined.

(** [load_pico_data]: the panel rows that name a record are appended to its
    series in file order; a record that no row names keeps its series (None
    when it had none). *)
Theorem load_pico_data_appends (rows : list (list string))
    (src0 src : list (string * patient)) (id : string) :
  load_pico_data rows src0 = Ok src →
  od_get id src =
    (fun d0 => match rows_of 3 id (tail rows) with
               | [] => d0
               | panels =>
                   mk_patient (d_group d0) (d_outcome d0) (d_sex d0) (d_demo d0)
                              (d_case d0) (Some (default [] (d_pico d0) ++ panels))
                              (d_qpcr d0)
               end) <$> od_get id src0.
Proof.
  unfold load_pico_data. intros Hrun. bind_inv Hrun.
  apply skip_header_tail in Hrun0 as <-.
  rewrite (keyed_loader 3 pico_update pico_row pico_row_step _ _ _ id Hrun).
  destruct (od_get id src0); [|done]. simpl. rewrite foldl_pico_update.
  by destruct (rows_of 3 id _).
Qed.

Lemma load_pico_data_appends_witness :
  ∃ src,
    load_pico_data [["h"]; ["a"; "b"; "c"; "B2"; "d"; "e"; "2014-06-09"; "6.1"]]
                   (src_data Cohort.two_patients) = Ok src ∧
    (d_pico <$> od_get "B2" src) =
      Some (Some [["a"; "b"; "c"; "B2"; "d"; "e"; "2014-06-02"; "7.5"];
                  ["a"; "b"; "c"; "B2"; "d"; "e"; "2014-06-09"; "6.1"]]) ∧
    (d_pico <$> od_get "A1" src) = Some None.
Proof.
  destruct (load_pico_data
              [["h"]; ["a"; "b"; "c"; "B2"; "d"; "e"; "2014-06-09"; "6.1"]]
              (src_data Cohort.two_patients)) as [src|e] eqn:E.
  - exists src. split; [reflexivity|].
    rewrite (load_pico_data_appends _ _ _ "B2" E).
    rewrite (load_pico_data_appends _ _ _ "A1" E). split; reflexivity.
  - run_ok E.
Defined.

(** ** Identifier normalizer *)

Lemma normalize_id_cons c s :
  normalize_id (String c s) =
    if Py.is_digit c then String "-" (String c s)
    else match search_digit s with
         | Some _ => String c (normalize_id s)
         | None => String c s
         end.
Proof.
  unfold normalize_id. simpl. destruct (Py.is_digit c); simpl.
  - unfold String.append. simpl. do 2 f_equal.
    induction s as [|b s IH]; simpl; [done|]. by f_equal.
  - destruct (search_digit s) as [pos|]; simpl; done.
Qed.

(** [normalize_id] inserts one dash immediately before the first digit and
    prints nothing; an identifier without a digit is returned unchanged and
    the warning is printed. *)
Theorem normalize_id_spec (id : string) :
  (∃ pre c suf,
     id = pre +:+ String c suf ∧ no_digit pre ∧ Py.is_digit c = true ∧
     normalize_id id = pre +:+ String "-" (String c suf) ∧
     normalize_id_warning id = []) ∨
  (no_digit id ∧ normalize_id id = id ∧
   normalize_id_warning id = ["  Warning: patient ID is malformed: " +:+ id]).
Proof.
  assert ((∃ pre c suf,
             id = pre +:+ String c suf ∧ no_digit pre ∧ Py.is_digit c = true ∧
             normalize_id id = pre +:+ String "-" (String c suf) ∧
             is_Some (search_digit id)) ∨
          (no_digit id ∧ normalize_id id = id ∧ search_digit id = None)) as H.
  { induction id as [|c s IH].
    - right. split_and!; [by intros [|i] c Hc|done|done].
    - rewrite normalize_id_cons. simpl. destruct (Py.is_digit c) eqn:Hc.
      + left. exists "", c, s. split_and!; [done|by intros [|i] ? ?|done|done|by eauto].
      + destruct IH as [(pre & c' & suf & -> & Hpre & Hc' & Hn & [pos Hpos])
                        |(Hno & Hn & Hnone)].
        * left. exists (String c pre), c', suf. rewrite Hpos, Hn. simpl.
          split_and!; [done| |done|done|by eauto].
          intros [|i] d Hd; simpl in Hd; [by inversion Hd; subst|by eapply Hpre].
        * right. rewrite Hnone. simpl. split_and!; [|done|done].
          intros [|i] d Hd; simpl in Hd; [by inversion Hd; subst|by eapply Hno]. }
  unfold normalize_id_warning.
  destruct H as [(pre & c & suf & ? & ? & ? & ? & [pos Hpos])|(? & ? & Hnone)].
  - left. exists pre, c, suf. by rewrite Hpos.
  - right. by rewrite Hnone.
Qed.

Lemma normalize_id_keeps_digit id :
  is_Some (search_digit id) →
  is_Some (search_digit (normalize_id id)) ∧
  String.length (normalize_id id) = S (String.length id).
Proof.
  induction id as [|c s IH]; intros [pos Hpos]; [done|].
  rewrite normalize_id_cons. simpl in Hpos. destruct (Py.is_digit c) eqn:Hc.
  - simpl. rewrite Hc. by eauto.
  - destruct (search_digit s) as [p|] eqn:Hs; [|done].
    destruct IH as [[q Hq] Hlen]; [by eauto|]. simpl. rewrite Hc, Hq, Hlen. by eauto.
Qed.

(** [normalize_id] is not idempotent: an identifier that has a digit, also one
    that already has its dash, gets one more dash at every application. *)
Theorem normalize_id_not_idempotent (id : string) :
  is_Some (search_digit id) →
  String.length (normalize_id (normalize_id id)) = (String.length id + 2)%nat ∧
  normalize_id (normalize_id id) ≠ normalize_id id.
Proof.
  intros Hd. destruct (normalize_id_keeps_digit id Hd) as [Hd1 Hl1].
  destruct (normalize_id_keeps_digit _ Hd1) as [_ Hl2].
  split; [lia|]. intros Heq. rewrite Heq in Hl2. lia.
Qed.

Lemma normalize_id_not_idempotent_witness :
  normalize_id "G3670" = "G-3670" ∧
  String.length (normalize_id (normalize_id "G3670")) = 7%nat ∧
  normalize_id (normalize_id "G3670") ≠ normalize_id "G3670".
Proof.
  split; [reflexivity|].
  apply (normalize_id_not_idempotent "G3670"). exists 1%nat. reflexivity.
Defined.

(** ** Cluster table *)

Lemma split_app_sep (sep : ascii) (c rest : string) :
  (∀ i, String.get i c ≠ Some sep) →
  Py.split sep (c +:+ String sep rest) = c :: Py.split sep rest.
Proof.
  induction c as [|a c IH]; intros Hno; simpl.
  - by rewrite bool_decide_eq_true_2.
  - rewrite bool_decide_eq_false_2.
    + change (Py.split sep (c +:+ String sep rest)) with
        (Py.split sep (c +:+ String sep rest)) in IH.
      fold (String.append c (String sep rest)). rewrite IH; [done|].
      intros i. apply (Hno (S i)).
    + intros ->. by apply (Hno 0%nat).
Qed.

(** A compound code [cluster.extra] is decoded into the cluster id, the first
    three characters of [extra], each empty when absent, except that the
    sub-cluster mutation count is "0" when a sub-cluster id is present and a
    third character is not. *)
Theorem decode_cluster_with_dot (cluster extra : string) :
  (∀ i, String.get i cluster ≠ Some "."%char) →
  (∀ i, String.get i extra ≠ Some "."%char) →
  decode_cluster (cluster +:+ "." +:+ extra) =
    Ok (cluster, char_or_empty extra 0, char_or_empty extra 1,
        match String.get 1 extra, String.get 2 extra with
        | Some _, Some c => String c EmptyString
        | Some _, None => "0"
        | None, _ => ""
        end).
Proof.
  intros Hc He. unfold decode_cluster.
  change (cluster +:+ "." +:+ extra) with (cluster +:+ String "." extra).
  rewrite (split_app_sep _ _ _ Hc), (split_no_sep _ _ He). simpl.
  by destruct extra as [|a [|b [|d rest]]].
Qed.

Lemma decode_cluster_with_dot_witness :
  decode_cluster ("2" +:+ "." +:+ "1a") = Ok ("2", "1", "a", "0") ∧
  decode_cluster ("3" +:+ "." +:+ "") = Ok ("3", "", "", "").
Proof.
  split.
  - apply (decode_cluster_with_dot "2" "1a"); intros [|[|[|i]]]; simpl; discriminate.
  - apply (decode_cluster_with_dot "3" ""); intros [|[|[|i]]]; simpl; discriminate.
Defined.

Lemma table_set_keys var id v (d d' : gmap string (gmap string string)) P :
  table_set var id v d = Ok d' → P id →
  (∀ var inner k, d !! var = Some inner → is_Some (inner !! k) → P k) →
  ∀ var inner k, d' !! var = Some inner → is_Some (inner !! k) → P k.
Proof.
  unfold table_set, dict_get. intros Hrun Hid Hd var' inner k Hvar Hk.
  destruct (d !! var) as [old|] eqn:Hold; [|done]. simpl in Hrun.
  inversion Hrun; subst d'. clear Hrun.
  destruct (decide (var = var')) as [->|Hne].
  - rewrite lookup_insert_eq in Hvar. inversion Hvar; subst inner.
    destruct (decide (id = k)) as [->|Hnk]; [done|].
    rewrite lookup_insert_ne in Hk by done. by eapply Hd.
  - rewrite lookup_insert_ne in Hvar by done. by eapply Hd.
Qed.

(** Every patient key of the cluster data is a normalized identifier: the
    tables never hold an identifier as it is written in the cluster file. *)
Theorem cluster_ids_are_normalized (rows : list (list string))
    (cl_vars : list (string * string)) (cl_data : gmap string (gmap string string))
    (var id : string) (inner : gmap string string) :
  load_cluster_data rows = Ok (cl_vars, cl_data) →
  cl_data !! var = Some inner → is_Some (inner !! id) →
  ∃ row raw, row ∈ tail rows ∧ row !! 0%nat = Some raw ∧ id = normalize_id raw.
Proof.
  unfold load_cluster_data. intros Hrun. do 2 bind_inv Hrun. inversion Hrun; subst.
  apply skip_header_tail in Hrun0 as <-. revert var inner id.
  eapply (for_each_invariant
            (fun d : gmap string (gmap string string) =>
               ∀ var inner id, d !! var = Some inner → is_Some (inner !! id) →
                 ∃ row raw, row ∈ a ∧ row !! 0%nat = Some raw ∧ id = normalize_id raw));
    [| |exact Hrun1].
  - intros row d d' Hrow Hd Hstep. unfold cluster_row in Hstep.
    bind_inv Hstep. apply (getitem_lit _ _ 0%nat) in Hrun0; [|done].
    do 2 bind_inv Hstep. destruct a2 as [[[cv cm] sv] sm]. do 3 bind_inv Hstep.
    set (P := fun id : string =>
                ∃ row raw, row ∈ a ∧ row !! 0%nat = Some raw ∧ id = normalize_id raw).
    assert (P (normalize_id a0)) as Hid by (unfold P; eauto).
    apply (table_set_keys _ _ _ _ _ P Hstep Hid).
    apply (table_set_keys _ _ _ _ _ P Hrun6 Hid).
    apply (table_set_keys _ _ _ _ _ P Hrun5 Hid).
    apply (table_set_keys _ _ _ _ _ P Hrun4 Hid). exact Hd.
  - intros var inner id Hvar [v Hv]. unfold cl_data_init in Hvar.
    repeat (rewrite lookup_insert in Hvar; case_decide;
            [inversion Hvar; subst; by rewrite lookup_empty in Hv|]).
    by rewrite lookup_empty in Hvar.
Qed.

Lemma cluster_ids_are_normalized_witness :
  ∃ row raw, row ∈ tail (in_clusters Cohort.tables) ∧
             row !! 0%nat = Some raw ∧ "EP-1" = normalize_id raw.
Proof.
  assert (is_ok (r ← load_cluster_data (in_clusters Cohort.tables);
                 inner ← dict_get "CLUST" r.2; dict_get "EP-1" inner) = true) as Hok
    by (vm_compute; reflexivity).
  destruct (load_cluster_data (in_clusters Cohort.tables)) as [[cl_vars cl_data]|e] eqn:E;
    [|discriminate Hok].
  simpl in Hok. unfold dict_get in Hok.
  destruct (cl_data !! "CLUST") as [inner|] eqn:Hvar; [|discriminate Hok].
  simpl in Hok. destruct (inner !! "EP-1") as [v|] eqn:Hid; [|discriminate Hok].
  exact (cluster_ids_are_normalized _ _ _ "CLUST" "EP-1" inner E Hvar
           (ex_intro _ v Hid)).
Defined.

(** ** Sequencing cells *)

Lemma seq_column_get data var (mira mira' : list (string * list string)) id :
  seq_column data var mira = Ok mira' →
  od_get id mira' = (fun row => row ++ [seq_cell data id var]) <$> od_get id mira.
Proof.
  unfold seq_column. revert mira'.
  induction mira as [|[k row] mira IH]; intros mira' Hrun.
  - by inversion Hrun.
  - rewrite map_each_cons in Hrun. do 2 bind_inv Hrun. inversion Hrun; subst. clear Hrun.
    bind_inv Hrun0. inversion Hrun0; subst. clear Hrun0. simpl.
    destruct (decide (id = k)) as [->|Hne]; [|by apply IH].
    simpl. unfold seq_cell. unfold dict_get in Hrun.
    destruct (data !! var) as [inner|]; [|done]. inversion Hrun; subst.
    by destruct (a1 !! k).
Qed.

Lemma seq_columns_get data vars (mira mira' : list (string * list string)) id :
  for_each (seq_column data) vars mira = Ok mira' →
  od_get id mira' = (fun row => row ++ map (seq_cell data id) vars) <$> od_get id mira.
Proof.
  revert mira. induction vars as [|var vars IH]; intros mira Hrun; simpl in Hrun.
  - inversion Hrun; subst. destruct (od_get id mira'); simpl; [|done].
    by rewrite app_nil_r.
  - bind_inv Hrun. rewrite (IH _ Hrun), (seq_column_get _ _ _ _ id Hrun0).
    destruct (od_get id mira); simpl; [|done]. by rewrite <- app_assoc.
Qed.

(** [add_seq_data] excludes nobody: every row keeps its place and gets one cell
    per SNP, allele-frequency and cluster variable, the value recorded for the
    patient or the empty cell when there is none. *)
Theorem add_seq_data_cells (snp_vars af_vars cl_vars : list (string * string))
    (snp_data af_data cl_data : gmap string (gmap string string))
    (st st' : state) (id : string) :
  add_seq_data snp_vars snp_data af_vars af_data cl_vars cl_data st = Ok st' →
  od_keys (mira_data st') = od_keys (mira_data st) ∧
  od_get id (mira_data st') =
    (fun row => row ++ map (seq_cell snp_data id) (od_keys snp_vars)
                    ++ map (seq_cell af_data id) (od_keys af_vars)
                    ++ map (seq_cell cl_data id) (od_keys cl_vars))
    <$> od_get id (mira_data st).
Proof.
  unfold add_seq_data. intros Hrun.
  destruct (seq_declare_snp_frame snp_vars st) as (_ & Hm1 & _).
  destruct (seq_declare_af_frame af_vars
              (foldl (fun st p => seq_declare_snp p st) st snp_vars)) as (_ & Hm2 & _).
  do 4 bind_inv Hrun. simpl in Hrun.
  bind_inv Hrun. rename a3 into m1, Hrun4 into H1.
  bind_inv Hrun. rename a3 into m2, Hrun4 into H2.
  bind_inv Hrun. rename a3 into m3, Hrun4 into H3.
  inversion Hrun; subst st'. clear Hrun. simpl.
  rewrite Hm2, Hm1 in H1. split.
  - rewrite (proj1 (seq_columns_spec _ _ _ _ H3)), (proj1 (seq_columns_spec _ _ _ _ H2)).
    apply (proj1 (seq_columns_spec _ _ _ _ H1)).
  - rewrite (seq_columns_get _ _ _ _ id H3), (seq_columns_get _ _ _ _ id H2),
      (seq_columns_get _ _ _ _ id H1).
    destruct (od_get id (mira_data st)); simpl; [|done]. by rewrite <- !app_assoc.
Qed.

Lemma add_seq_data_cells_witness :
  ∃ st',
    add_seq_data [("SNP10", "SNP @10")] {[ "SNP10" := {[ "A1" := "1" ]} ]} [] ∅
                 cl_vars_init cl_data_init Cohort.two_patients = Ok st' ∧
    od_get "A1" (mira_data st') = Some ["A1"; "1"; "1"; ""; ""; ""; ""] ∧
    od_get "B2" (mira_data st') = Some ["B2"; "0"; ""; ""; ""; ""; ""].
Proof.
  destruct (add_seq_data [("SNP10", "SNP @10")] {[ "SNP10" := {[ "A1" := "1" ]} ]} [] ∅
              cl_vars_init cl_data_init Cohort.two_patients) as [st'|e] eqn:E;
    [|run_ok E].
  exists st'. split; [reflexivity|].
  rewrite (proj2 (add_seq_data_cells _ _ _ _ _ _ _ _ "A1" E)).
  rewrite (proj2 (add_seq_data_cells _ _ _ _ _ _ _ _ "B2" E)).
  split; vm_compute; reflexivity.
Defined.

(** ** Derived statistics when the first reading is not zero *)

Section qpcr_statistics.
Context `{FloatOps}.

Lemma foldl_stats_step (x a b c : float) (xs : list float) :
  float_bool x = true →
  foldl stats_step (Some (mk_stats x a b c)) xs =
    Some (mk_stats x (foldl py_max a xs) (foldl py_min b xs) (foldl float_add c xs)).
Proof.
  intros Hx. revert a b c. induction xs as [|y xs IH]; intros a b c; simpl; [done|].
  rewrite Hx. apply IH.
Qed.

(** The four derived cells of a non-empty series: sentinels when no sample has
    a value; otherwise, provided the first converted value is not zero, the
    first value, the maximum, the minimum and the mean of the converted values
    of the samples that have one, all computed after the conversion. *)
Theorem derived_statistics (log : bool) (count : nat) (q : qpcr_sample)
    (series series' : list qpcr_sample) (cells : list string) (fvals : list float) :
  qpcr_cells log count (q :: series) = Ok (series', cells) →
  map_each (to_fval log) (readings (q :: series)) = Ok fvals →
  match fvals with
  | [] => take 4 cells = [sentinel; sentinel; sentinel; sentinel]
  | x :: xs =>
      float_bool x = true →
      take 4 cells =
        [float_str x; float_str (foldl py_max x xs); float_str (foldl py_min x xs);
         float_str (float_div (foldl float_add x xs) (S (length xs)))]
  end.
Proof.
  intros Hrun Hf. apply qpcr_cells_shape in Hrun as (_ & acc & slen & Hscan & ->).
  apply scan_series_spec in Hscan as (_ & fvals' & Hf' & -> & ->).
  rewrite Hf in Hf'. inversion Hf'; subst fvals'. clear Hf'.
  destruct fvals as [|x xs]; simpl; [done|].
  intros Hx. rewrite (foldl_stats_step x x x x xs Hx). simpl. by rewrite Hx.
Qed.

End qpcr_statistics.

Lemma derived_statistics_witness :
  ∃ series' cells,
    qpcr_cells false 8 [mk_sample "1" "d1" "1000"; mk_sample "2" "d2" "4000"]
      = Ok (series', cells) ∧
    take 4 cells = ["1000.0"; "4000.0"; "1000.0"; "2500.0"].
Proof.
  destruct (qpcr_cells false 8 [mk_sample "1" "d1" "1000"; mk_sample "2" "d2" "4000"])
    as [[series' cells]|e] eqn:E; [|run_ok E].
  exists series', cells. split; [reflexivity|].
  exact (derived_statistics false 8 _ _ _ _
           [ExactFloat.of_Z 1000; ExactFloat.of_Z 4000] E eq_refl eq_refl).
Defined.

(** ** The written table *)

Lemma render_cell_nonempty c : render_cell c ≠ "".
Proof. unfold render_cell. by destruct c. Qed.

(** The data file of a finished run is rectangular and has no empty cell: a
    header of the variable names, then one row per patient of the store, each
    as long as the header, an empty cell being written as the sentinel and any
    other cell as it is. *)
Theorem saved_table_is_rectangular `{FloatOps} (seq log : bool) (i : inputs)
    (st : state) :
  aggregate seq log i = Ok st →
  ∃ body,
    (save_data st).1 = variables st :: body ∧
    body = map (fun p => map render_cell p.2) (mira_data st) ∧
    length body = length (src_data st) ∧
    Forall (fun row => length row = length (variables st) ∧
                       Forall (fun c => c ≠ "") row) body.
Proof.
  intros Hrun. destruct (aggregate_aligned _ _ _ _ Hrun) as [(_ & Hk & Hw) _].
  exists (map (fun p => map render_cell p.2) (mira_data st)). split_and!.
  - unfold save_data. simpl. f_equal. by rewrite <- list_fmap_compose.
  - done.
  - rewrite length_map. unfold od_keys in Hk.
    by rewrite <- (length_fmap fst (mira_data st)), Hk, length_fmap.
  - apply Forall_fmap. eapply Forall_impl; [exact Hw|]. simpl. intros p Hp.
    split; [by rewrite length_map|]. apply Forall_fmap, Forall_true.
    intros c. apply render_cell_nonempty.
Qed.

Lemma saved_table_is_rectangular_witness :
  ∃ st body,
    aggregate true false Cohort.tables = Ok st ∧
    (save_data st).1 = variables st :: body ∧
    length body = length (src_data st).
Proof.
  destruct (aggregate true false Cohort.tables) as [st|e] eqn:E; [|run_ok E].
  destruct (saved_table_is_rectangular _ _ _ _ E) as (body & Hfile & _ & Hlen & _).
  exists st, body. split; [reflexivity|]. split; [exact Hfile|exact Hlen].
Defined.

(** ** The converters' dictionary reader *)

Lemma foldl_insert_other {A} (f g : A → string) (l : list A) (m : gmap string string) k :
  k ∉ f <$> l →
  foldl (fun m q => <[f q := g q]> m) m l !! k = m !! k.
Proof.
  revert m. induction l as [|q l IH]; intros m Hk; simpl; [done|].
  rewrite fmap_cons, not_elem_of_cons in Hk. destruct Hk as [Hne Hk].
  rewrite IH by done. by rewrite lookup_insert_ne.
Qed.

Lemma foldl_insert_lookup {A} (f g : A → string) (l : list A) (m : gmap string string) p :
  NoDup (f <$> l) → p ∈ l →
  foldl (fun m q => <[f q := g q]> m) m l !! f p = Some (g p).
Proof.
  revert m. induction l as [|q l IH]; intros m Hnd Hp; simpl.
  - by apply elem_of_nil in Hp.
  - rewrite fmap_cons in Hnd. apply NoDup_cons in Hnd as [Hq Hnd].
    apply elem_of_cons in Hp as [->|Hp]; [|by apply IH].
    rewrite foldl_insert_other by done. apply lookup_insert_eq.
Qed.

Lemma idict_parts_run pieces (pairs : list (string * string)) m :
  Forall2 (fun p cl => Py.split ":" p = [cl.1; cl.2]) pieces pairs →
  for_each idict_part pieces m = Ok (foldl (fun m cl => <[cl.2 := cl.1]> m) m pairs).
Proof.
  intros Hall. revert m. induction Hall as [|p [c l] pieces pairs Hp _ IH]; intros m;
    simpl; [done|].
  simpl in Hp.
  assert (idict_part p m = Ok (<[l := c]> m)) as ->.
  { unfold idict_part, unpack_pair. rewrite Hp.
    assert (Py.truthy p = true) as -> by (by destruct p). done. }
  simpl. apply IH.
Qed.

Lemma code_pieces_run pieces (pairs : list (string * string)) m :
  Forall2 (fun p cl => Py.split ":" p = [cl.1; cl.2]) pieces pairs →
  for_each Convert.code_piece pieces m
    = Ok (foldl (fun m cl => <[cl.1 := cl.2]> m) m pairs).
Proof.
  intros Hall. revert m. induction Hall as [|p [c l] pieces pairs Hp _ IH]; intros m;
    simpl; [done|].
  simpl in Hp.
  assert (Convert.code_piece p m = Ok (<[c := l]> m)) as ->.
  { unfold Convert.code_piece. by rewrite Hp. }
  simpl. apply IH.
Qed.

(** The converters decode what the aggregation encoded: for a code spec whose
    pieces are [code:label] pairs with distinct codes and distinct labels, the
    code map of [load_dict] sends each label to its code and the code map of
    the converters' reader sends that code back to the label. *)
Theorem read_codes_inverts_idict (spec : string) (pairs : list (string * string)) :
  Forall2 (fun p cl => Py.split ":" p = [cl.1; cl.2]) (Py.split ";" spec) pairs →
  NoDup pairs.*1 → NoDup pairs.*2 →
  ∃ idict codes,
    parse_idict spec = Ok idict ∧ Convert.read_codes spec = Ok codes ∧
    ∀ code label, (code, label) ∈ pairs →
                  idict !! label = Some code ∧ codes !! code = Some label.
Proof.
  intros Hall Hcodes Hlabels. eexists _, _. split_and!.
  - unfold parse_idict. by apply idict_parts_run.
  - unfold Convert.read_codes. by apply code_pieces_run.
  - intros code label Hin. split.
    + by apply (foldl_insert_lookup snd fst pairs _ (code, label)).
    + by apply (foldl_insert_lookup fst snd pairs _ (code, label)).
Qed.

Lemma read_codes_inverts_idict_witness :
  ∃ idict codes,
    parse_idict "1:Male;0:Female" = Ok idict ∧
    Convert.read_codes "1:Male;0:Female" = Ok codes ∧
    idict !! "Female" = Some "0" ∧ codes !! "0" = Some "Female".
Proof.
  destruct (read_codes_inverts_idict "1:Male;0:Female" [("1", "Male"); ("0", "Female")])
    as (idict & codes & Hi & Hc & Hall).
  - repeat constructor.
  - apply (bool_decide_unpack _). vm_compute. exact I.
  - apply (bool_decide_unpack _). vm_compute. exact I.
  - exists idict, codes. split; [exact Hi|]. split; [exact Hc|].
    apply (Hall "0" "Female"). apply list_elem_of_In. right. left. reflexivity.
Defined.

Lemma dictionary_row_category title type spec d :
  Convert.lower type = "category" →
  Convert.dictionary_row [title; type; spec] d =
    (codes ← Convert.read_codes spec;
     Ok (Convert.mk_dictionary (Convert.long_names d ++ [title])
                               (Convert.var_types d ++ [type])
                               (Convert.code_dict d ++ [codes]))).
Proof. intros Htype. unfold Convert.dictionary_row. simpl. by rewrite Htype. Qed.

(** The converters' reader indexes the second part of every piece of a code
    spec: a piece without a colon, such as the empty piece that a trailing
    semicolon leaves, makes it raise IndexError for a category variable. *)
Theorem reader_rejects_piece_without_colon (spec p : string)
    (rows : list (list string)) (title type : string) :
  p ∈ Py.split ";" spec → (∀ i, String.get i p ≠ Some ":"%char) →
  Convert.lower type = "category" → [title; type; spec] ∈ rows →
  Convert.read_codes spec = Raise IndexError ∧
  is_ok (Convert.read_dictionary rows) = false.
Proof.
  intros Hp Hno Htype Hrow.
  assert (∀ m, Convert.code_piece p m = Raise IndexError) as Hpiece.
  { intros m. unfold Convert.code_piece. by rewrite (split_no_sep _ _ Hno). }
  assert (∀ pieces m, p ∈ pieces →
            for_each Convert.code_piece pieces m = Raise IndexError) as Hloop.
  { induction pieces as [|q pieces IH]; intros m Hin; [by apply elem_of_nil in Hin|].
    rewrite for_each_cons. destruct (Convert.code_piece q m) as [m'|e] eqn:Hq.
    - simpl. apply IH. apply elem_of_cons in Hin as [->|Hin]; [|done].
      by rewrite Hpiece in Hq.
    - simpl. f_equal. unfold Convert.code_piece in Hq.
      destruct (Py.split ":" q) as [|a [|b l]]; by inversion Hq. }
  assert (Convert.read_codes spec = Raise IndexError) as Hcodes by (by apply Hloop).
  split; [done|].
  unfold Convert.read_dictionary. apply (for_each_raises _ _ [title; type; spec]); [done|].
  intros d. rewrite dictionary_row_category by done. by rewrite Hcodes.
Qed.

Lemma reader_rejects_piece_without_colon_witness :
  is_ok (parse_idict "1:Yes;0:No;") = true ∧
  Convert.read_codes "1:Yes;0:No;" = Raise IndexError ∧
  is_ok (Convert.read_dictionary [["Fever"; "category"; "1:Yes;0:No;"]]) = false.
Proof.
  split; [reflexivity|].
  apply (reader_rejects_piece_without_colon "1:Yes;0:No;" "" _ "Fever" "category").
  - apply list_elem_of_In. right. right. left. reflexivity.
  - intros i. destruct i; discriminate.
  - reflexivity.
  - apply list_elem_of_In. left. reflexivity.
Defined.

(** ** The conversion of the data rows *)

Lemma read_dictionary_lengths rows d0 d :
  for_each Convert.dictionary_row rows d0 = Ok d →
  length (Convert.long_names d) = (length (Convert.long_names d0) + length rows)%nat ∧
  length (Convert.var_types d) = (length (Convert.var_types d0) + length rows)%nat ∧
  length (Convert.code_dict d) = (length (Convert.code_dict d0) + length rows)%nat.
Proof.
  revert d0. induction rows as [|row rows IH]; intros d0 Hrun; simpl in Hrun.
  - inversion Hrun; subst. simpl. split_and!; lia.
  - bind_inv Hrun. destruct (IH _ Hrun) as (-> & -> & ->).
    unfold Convert.dictionary_row in Hrun0. do 3 bind_inv Hrun0.
    inversion Hrun0; subst. simpl. rewrite !length_app. simpl. split_and!; lia.
Qed.

Lemma getitem_in_range {A} (l : list A) (n : nat) :
  (n < length l)%nat → ∃ x, Py.getitem l (Z.of_nat n) = Ok x.
Proof.
  intros Hn. destruct (lookup_lt_is_Some_2 l n Hn) as [x Hx].
  exists x. by apply getitem_nat.
Qed.

Lemma getitem_out_of_range {A} (l : list A) (n : nat) :
  (length l ≤ n)%nat → Py.getitem l (Z.of_nat n) = Raise IndexError.
Proof.
  intros Hn. unfold Py.getitem. rewrite (proj2 (Z.leb_le 0 (Z.of_nat n))) by lia.
  rewrite (proj2 (Z.leb_le 0 (Z.of_nat n))) by lia. rewrite Nat2Z.id.
  by rewrite lookup_ge_None_2.
Qed.

Lemma convert_cell_in_range d ms md index value :
  (index < length (Convert.var_types d))%nat →
  (index < length (Convert.code_dict d))%nat →
  is_ok (Convert.convert_cell d ms md index value) = true.
Proof.
  intros Ht Hc. unfold Convert.convert_cell.
  destruct (getitem_in_range _ _ Ht) as [type ->].
  destruct (getitem_in_range _ _ Hc) as [codes ->]. simpl.
  by case_bool_decide.
Qed.

Lemma convert_cell_error d ms md index value e :
  Convert.convert_cell d ms md index value = Raise e → e = IndexError.
Proof.
  assert (∀ A (l : list A) z e', Py.getitem l z = Raise e' → e' = IndexError) as Hget.
  { intros A l z e'. unfold Py.getitem. repeat case_match; congruence. }
  unfold Convert.convert_cell.
  destruct (Py.getitem (Convert.var_types d) _) as [type|e1] eqn:H1; simpl;
    [|intros [= <-]; by eapply Hget].
  case_bool_decide; simpl; [|done].
  destruct (Py.getitem (Convert.code_dict d) _) as [codes|e2] eqn:H2; simpl;
    [done|intros [= <-]; by eapply Hget].
Qed.

Lemma map_each_first_error {A B} (f : A → result B) xs e0 :
  (∀ x e, f x = Raise e → e = e0) →
  is_ok (map_each f xs) = false → map_each f xs = Raise e0.
Proof.
  intros Herr. induction xs as [|x xs IH]; [done|]. rewrite map_each_cons.
  destruct (f x) as [y|e] eqn:Hx; simpl.
  - destruct (map_each f xs) as [ys|e]; [done|]. intros _.
    specialize (IH eq_refl). by inversion IH.
  - intros _. by rewrite (Herr _ _ Hx).
Qed.

Lemma map_each_all_ok {A B} (f : A → result B) xs :
  (∀ x, x ∈ xs → is_ok (f x) = true) → ∃ ys, map_each f xs = Ok ys.
Proof.
  induction xs as [|x xs IH]; intros Hok; [by exists []|]. rewrite map_each_cons.
  destruct (f x) as [y|e] eqn:Hx.
  - destruct IH as [ys ->]; [intros z Hz; apply Hok; by right|]. by eexists.
  - specialize (Hok x (list_elem_of_here _ _)). by rewrite Hx in Hok.
Qed.

(** makecsv.py converts a data row exactly when it is no longer than the
    dictionary: the converted row then has the length of the row; a longer row
    raises IndexError. *)
Theorem convert_row_shape (dict_rows : list (list string)) (d : Convert.dictionary)
    (miss_src miss_dst : string) (row : list string) :
  Convert.read_dictionary dict_rows = Ok d →
  ((length row ≤ length dict_rows)%nat →
   ∃ out, Convert.convert_row d miss_src miss_dst row = Ok out ∧
          length out = length row) ∧
  ((length dict_rows < length row)%nat →
   Convert.convert_row d miss_src miss_dst row = Raise IndexError).
Proof.
  intros Hd. apply read_dictionary_lengths in Hd as (_ & Ht & Hc). simpl in Ht, Hc.
  unfold Convert.convert_row. split; intros Hlen.
  - destruct (map_each_all_ok
                (fun p => Convert.convert_cell d miss_src miss_dst p.1 p.2)
                (zip (seq 0 (length row)) row)) as [out Hout].
    + intros [index value] Hin. apply convert_cell_in_range; simpl.
      * apply elem_of_zip_l, elem_of_seq in Hin. lia.
      * apply elem_of_zip_l, elem_of_seq in Hin. lia.
    + exists out. split; [done|]. apply map_each_length in Hout.
      rewrite Hout, length_zip, length_seq. lia.
  - apply map_each_first_error.
    + intros p e. apply convert_cell_error.
    + destruct (lookup_lt_is_Some_2 row (length dict_rows) Hlen) as [value Hv].
      apply (map_each_raises _ _ (length dict_rows, value)).
      * apply list_elem_of_lookup. exists (length dict_rows).
        apply lookup_zip_with_Some. exists (length dict_rows), value.
        split_and!; [done| |done]. by apply lookup_seq_lt.
      * unfold Convert.convert_cell. simpl.
        rewrite (getitem_out_of_range (Convert.var_types d)); [done|lia].
Qed.

Lemma convert_row_shape_witness :
  (∃ out,
     Convert.convert_row
       (Convert.mk_dictionary ["Patient ID"; "Diagnosis"] ["String"; "category"]
                              [∅; <["0" := "Negative"]> {[ "1" := "Positive" ]}])
       sentinel "" ["EP1"; "1"] = Ok out ∧
     length out = 2%nat) ∧
  Convert.convert_row
    (Convert.mk_dictionary ["Patient ID"; "Diagnosis"] ["String"; "category"]
                           [∅; <["0" := "Negative"]> {[ "1" := "Positive" ]}])
    sentinel "" ["EP1"; "1"; "extra"] = Raise IndexError.
Proof.
  assert (Convert.read_dictionary
            [["Patient ID"; "String"; "label"];
             ["Diagnosis"; "category"; "1:Positive;0:Negative"]]
          = Ok (Convert.mk_dictionary ["Patient ID"; "Diagnosis"] ["String"; "category"]
                  [∅; <["0" := "Negative"]> {[ "1" := "Positive" ]}])) as Hd
    by (vm_compute; reflexivity).
  split.
  - apply (proj1 (convert_row_shape _ _ sentinel "" ["EP1"; "1"] Hd)). simpl. lia.
  - apply (proj2 (convert_row_shape _ _ sentinel "" ["EP1"; "1"; "extra"] Hd)).
    simpl. lia.
Defined.

(** ** The order of the columns *)

Lemma pico_declare_names_vars names info i st st' :
  for_each (pico_declare_name info i) names st = Ok st' →
  variables st' = variables st ++ map (fun name => name +:+ "_" +:+ Py.str i) names.
Proof.
  revert st. induction names as [|name names IH]; intros st Hrun; simpl in Hrun.
  - inversion Hrun. by rewrite app_nil_r.
  - bind_inv Hrun. rewrite (IH _ Hrun).
    unfold pico_declare_name in Hrun0. bind_inv Hrun0. inversion Hrun0; subst.
    simpl. by rewrite <- app_assoc.
Qed.

Lemma pico_declare_vars names info days st st' :
  for_each (pico_declare_day names info) days st = Ok st' →
  variables st' = variables st ++ concat (map (pico_day_vars names) days).
Proof.
  revert st. induction days as [|i days IH]; intros st Hrun; simpl in Hrun.
  - inversion Hrun. by rewrite app_nil_r.
  - bind_inv Hrun. rewrite (IH _ Hrun).
    unfold pico_declare_day in Hrun0. apply pico_declare_names_vars in Hrun0 as ->.
    simpl. by rewrite <- !app_assoc.
Qed.

Lemma add_demo_data_variables dict st st' :
  add_demo_data dict st = Ok st' →
  variables st' = variables st ++ ["GID"; "DIAG"] ++ map (fun e => v_name e.2) dict.
Proof.
  unfold add_demo_data. intros Hrun. bind_inv Hrun. inversion Hrun; subst st'. simpl.
  match goal with |- variables (declare_vars _ ?s) = _ =>
    destruct (declare_vars_frame dict s) as (_ & _ & ->) end.
  simpl. by rewrite <- !app_assoc.
Qed.

Lemma add_pico_data_variables names info st st' :
  add_pico_data names info st = Ok st' →
  variables st' =
    variables st ++
    concat (map (pico_day_vars names) (seq 1 (max_series_len d_pico (src_data st)))).
Proof.
  unfold add_pico_data. intros Hrun. do 2 bind_inv Hrun. inversion Hrun; subst st'.
  simpl. by eapply pico_declare_vars.
Qed.

Lemma seq_declare_snp_vars vars st :
  variables (foldl (fun st p => seq_declare_snp p st) st vars) =
  variables st ++ od_keys vars.
Proof.
  unfold od_keys. revert st. induction vars as [|p vars IH]; intros st; simpl.
  - by rewrite app_nil_r.
  - rewrite IH. simpl. by rewrite <- app_assoc.
Qed.

Lemma seq_declare_af_vars vars st :
  variables (foldl (fun st p => seq_declare_af p st) st vars) =
  variables st ++ od_keys vars.
Proof.
  unfold od_keys. revert st. induction vars as [|p vars IH]; intros st; simpl.
  - by rewrite app_nil_r.
  - rewrite IH. simpl. by rewrite <- app_assoc.
Qed.

Lemma add_seq_data_variables snp_vars snp_data af_vars af_data cl_vars cl_data st st' :
  add_seq_data snp_vars snp_data af_vars af_data cl_vars cl_data st = Ok st' →
  variables st' =
    variables st ++ od_keys snp_vars ++ od_keys af_vars ++
    ["CLUST"; "MCLUST"; "SCLUST"; "MSCLUST"].
Proof.
  unfold add_seq_data. intros Hrun. do 7 bind_inv Hrun. inversion Hrun; subst st'.
  simpl. rewrite seq_declare_af_vars, seq_declare_snp_vars.
  by rewrite <- !app_assoc.
Qed.

(** The header of the output: the variables of a finished run are, in this
    order, GID and DIAG, the names of the demographics dictionary, the names
    of the case-notification dictionary, one block per metabolic-panel slot,
    the four derived viral-load columns, one pair per qPCR slot and, when
    sequencing data are aggregated, the SNP, allele-frequency and cluster
    variables; the slot counts are the longest series of the loaded store. *)
Theorem column_order `{FloatOps} (seq log : bool) (i : inputs) (st : state) :
  aggregate seq log i = Ok st →
  ∃ ld,
    load_all seq i = Ok ld ∧
    variables st =
      ["GID"; "DIAG"] ++
      map (fun e => v_name e.2) (ld_demo_dict ld) ++
      map (fun e => v_name e.2) (ld_case_dict ld) ++
      concat (map (pico_day_vars (in_pico_names i))
                  (List.seq 1 (max_series_len d_pico (ld_src ld)))) ++
      ["PCR"; "PCR_MAX"; "PCR_MIN"; "PCR_AVE"] ++
      concat (map qpcr_day_vars
                  (List.seq 1 (max_series_len (fun d => Some (d_qpcr d)) (ld_src ld)))) ++
      (if seq
       then od_keys (in_snp_vars i) ++ od_keys (in_af_vars i) ++
            ["CLUST"; "MCLUST"; "SCLUST"; "MSCLUST"]
       else []).
Proof.
  unfold aggregate. intros Hrun. bind_inv Hrun. rename a into ld, Hrun0 into Hld.
  exists ld. split; [done|].
  destruct (load_all_store _ _ _ Hld) as [Hwf _].
  bind_inv Hrun. rename a into st1, Hrun0 into H1.
  pose proof (add_demo_data_variables _ _ _ H1) as Hv1.
  apply add_demo_data_aligned in H1 as [Hal1 Hs1]; [|done..].
  bind_inv Hrun. rename a into st2, Hrun0 into H2.
  destruct (add_case_data_rows _ _ _ Hal1 H2) as (_ & Hv2 & _).
  apply add_case_data_aligned in H2 as [Hal2 Hs2]; [|done].
  bind_inv Hrun. rename a into st3, Hrun0 into H3.
  pose proof (add_pico_data_variables _ _ _ _ H3) as Hv3.
  apply add_pico_data_aligned in H3 as [Hal3 Hs3]; [|done].
  bind_inv Hrun. rename a into st4, Hrun0 into H4.
  pose proof (add_qpcr_data_variables _ _ _ H4) as Hv4.
  assert (variables st4 =
          ["GID"; "DIAG"] ++ map (fun e => v_name e.2) (ld_demo_dict ld) ++
          map (fun e => v_name e.2) (ld_case_dict ld) ++
          concat (map (pico_day_vars (in_pico_names i))
                      (List.seq 1 (max_series_len d_pico (ld_src ld)))) ++
          ["PCR"; "PCR_MAX"; "PCR_MIN"; "PCR_AVE"] ++
          concat (map qpcr_day_vars
                      (List.seq 1 (max_series_len (fun d => Some (d_qpcr d))
                                                  (ld_src ld))))) as Hv.
  { rewrite Hv4, Hv3, Hv2, Hv1, Hs3, Hs2, Hs1. simpl. by rewrite <- !app_assoc. }
  assert (ld_clusters ld = None ↔ seq = false) as Hseq.
  { unfold load_all in Hld. do 6 bind_inv Hld.
    destruct seq; [bind_inv Hld|]; inversion Hld; subst; simpl; split; done. }
  destruct (ld_clusters ld) as [[cl_vars cl_data]|].
  - destruct seq; [|discriminate (proj2 Hseq eq_refl)].
    rewrite (add_seq_data_variables _ _ _ _ _ _ _ _ Hrun), Hv.
    by rewrite <- !app_assoc.
  - destruct seq; [discriminate (proj1 Hseq eq_refl)|].
    inversion Hrun; subst. rewrite Hv. by rewrite !app_nil_r.
Qed.

Lemma column_order_witness :
  ∃ st ld,
    aggregate true false Cohort.tables = Ok st ∧
    load_all true Cohort.tables = Ok ld ∧
    take 7 (variables st) =
      ["GID"; "DIAG"] ++
      map (fun e => v_name e.2) (ld_demo_dict ld) ++
      map (fun e => v_name e.2) (ld_case_dict ld) ++ ["DOPANEL_1"; "ALB_1"].
Proof.
  destruct (aggregate true false Cohort.tables) as [st|e] eqn:E; [|run_ok E].
  destruct (column_order _ _ _ _ E) as (ld & Hld & Hvars).
  exists st, ld. split; [reflexivity|]. split; [exact Hld|].
  assert ((ld ← load_all true Cohort.tables;
           Ok (map (fun e => v_name e.2) (ld_demo_dict ld),
               map (fun e => v_name e.2) (ld_case_dict ld),
               max_series_len d_pico (ld_src ld)))
          = Ok (["SEX"; "OUT"], ["FEVER"], 1%nat)) as Hvals
    by (vm_compute; reflexivity).
  rewrite Hld in Hvals. simpl in Hvals. injection Hvals as H1 H2 H3.
  rewrite Hvars, H1, H2, H3. vm_compute. reflexivity.
Defined.

(** ** Identity of the rows *)

Lemma demo_loop_other dict (src : list (string * patient)) m out id :
  for_each (demo_patient dict) src m = Ok out → id ∉ od_keys src →
  od_get id out = od_get id m.
Proof.
  revert m. induction src as [|[k d] src IH]; intros m Hrun Hid; simpl in Hrun.
  - by inversion Hrun.
  - unfold od_keys in Hid. simpl in Hid. apply not_elem_of_cons in Hid as [Hne Hid].
    bind_inv Hrun. bind_inv Hrun0. inversion Hrun0; subst. clear Hrun0.
    rewrite (IH _ Hrun Hid). by apply od_get_set_ne.
Qed.

Lemma demo_loop_get dict (src : list (string * patient)) m out id data :
  od_wf src → for_each (demo_patient dict) src m = Ok out →
  od_get id src = Some data →
  ∃ cells, map_each (demo_cell data) dict = Ok cells ∧
           od_get id out = Some ([id; diag_cell data] ++ cells).
Proof.
  revert m. induction src as [|[k d] src IH]; intros m Hwf Hrun Hget; [done|].
  unfold od_wf, od_keys in Hwf. simpl in Hwf. apply NoDup_cons in Hwf as [Hk Hwf].
  simpl in Hrun, Hget. bind_inv Hrun. bind_inv Hrun0. inversion Hrun0; subst.
  clear Hrun0. destruct (decide (id = k)) as [->|Hne].
  - inversion Hget; subst d. exists a0. split; [done|].
    rewrite (demo_loop_other _ _ _ _ k Hrun Hk). apply od_get_set_eq.
  - by eapply IH.
Qed.

Lemma qpcr_rewrite_get `{FloatOps} log count (src src' : list (string * patient)) id data :
  map_each (qpcr_rewrite log count) src = Ok src' →
  od_get id src' = Some data →
  ∃ data0, od_get id src = Some data0 ∧ d_group data = d_group data0.
Proof.
  revert src'. induction src as [|[k d] src IH]; intros src' Hrun Hget.
  - by inversion Hrun; subst.
  - rewrite map_each_cons in Hrun. bind_inv Hrun. rename a into p, Hrun0 into Hp.
    bind_inv Hrun. rename a into rest. inversion Hrun; subst src'. clear Hrun.
    unfold qpcr_rewrite in Hp. bind_inv Hp. destruct a as [s c]. simpl in Hp.
    inversion Hp; subst p. clear Hp. simpl in Hget |- *.
    destruct (decide (id = k)) as [->|Hne]; [|by eapply IH].
    inversion Hget; subst. by exists d.
Qed.

(** Every output row begins with the identifier of its patient and the
    diagnosis cell, "1" for the group Epos and "0" for any other group. *)
Theorem rows_start_with_id_and_diagnosis `{FloatOps} (seq log : bool) (i : inputs)
    (st : state) (id : string) (data : patient) :
  aggregate seq log i = Ok st →
  od_get id (src_data st) = Some data →
  ∃ rest, od_get id (mira_data st) = Some (id :: diag_cell data :: rest).
Proof.
  unfold aggregate. intros Hrun Hdata. bind_inv Hrun. rename a into ld, Hrun0 into Hld.
  destruct (load_all_store _ _ _ Hld) as [Hwf _].
  bind_inv Hrun. rename a into st1, Hrun0 into H1.
  bind_inv Hrun. rename a into st2, Hrun0 into H2.
  bind_inv Hrun. rename a into st3, Hrun0 into H3.
  bind_inv Hrun. rename a into st4, Hrun0 into H4.
  destruct (add_demo_data_aligned _ (with_src (ld_src ld) init_state) _
              Hwf eq_refl eq_refl H1) as [Hal1 Hs1].
  destruct (add_case_data_aligned _ _ _ Hal1 H2) as [Hal2 Hs2].
  destruct (add_pico_data_aligned _ _ _ _ Hal2 H3) as [Hal3 Hs3].
  destruct (add_qpcr_data_rows _ _ _ Hal3 H4) as (Hs4 & _ & cs4 & Hcs4 & Hm4).
  assert (src_data st = src_data st4 ∧
          ∀ row, od_get id (mira_data st4) = Some (id :: diag_cell data :: row) →
                 ∃ rest, od_get id (mira_data st) = Some (id :: diag_cell data :: rest))
    as [Hs5 Hlast].
  { destruct (ld_clusters ld) as [[cl_vars cl_data]|].
    - split.
      + unfold add_seq_data in Hrun. do 7 bind_inv Hrun. inversion Hrun; subst st. simpl.
        rewrite (proj1 (seq_declare_af_frame _ _)).
        by rewrite (proj1 (seq_declare_snp_frame _ _)).
      + intros row Hrow. rewrite (proj2 (add_seq_data_cells _ _ _ _ _ _ _ _ id Hrun)).
        rewrite Hrow. simpl. by eexists.
    - inversion Hrun; subst. split; [done|]. intros row Hrow. by exists row. }
  rewrite Hs5 in Hdata.
  destruct (qpcr_rewrite_get _ _ _ _ _ _ Hs4 Hdata) as (data0 & Hd0 & Hg).
  assert (diag_cell data = diag_cell data0) as Hdiag
    by (unfold diag_cell; by rewrite Hg).
  rewrite Hdiag in Hlast |- *.
  assert (∃ c1, od_get id (mira_data st1) = Some ([id; diag_cell data0] ++ c1))
    as [c1 Hr1].
  { unfold add_demo_data in H1. bind_inv H1. inversion H1; subst st1. simpl.
    match type of Hrun0 with for_each _ (src_data (declare_vars _ ?s)) _ = _ =>
      destruct (declare_vars_frame (ld_demo_dict ld) s) as (Hds & _ & _) end.
    rewrite Hds in Hrun0. simpl in Hrun0.
    rewrite Hs3, Hs2, Hs1 in Hd0. simpl in Hd0.
    destruct (demo_loop_get _ _ _ _ _ _ Hwf Hrun0 Hd0) as (c1 & _ & Hc1). by exists c1. }
  destruct (add_case_data_rows _ _ _ Hal1 H2) as (_ & _ & cs2 & Hcs2 & Hm2).
  destruct (add_pico_data_rows _ _ _ _ Hal2 H3) as (_ & _ & cs3 & Hcs3 & Hm3).
  pose proof Hd0 as Hd1. rewrite Hs3, Hs2 in Hd1.
  destruct (extended_row _ _ _ _ _ _ _ Hal1 Hcs2 Hm2 Hd1 Hr1) as (c2 & _ & Hr2).
  pose proof Hd0 as Hd2. rewrite Hs3 in Hd2.
  destruct (extended_row _ _ _ _ _ _ _ Hal2 Hcs3 Hm3 Hd2 Hr2) as (c3 & _ & Hr3).
  destruct (extended_row _ _ _ _ _ _ _ Hal3 Hcs4 Hm4 Hd0 Hr3) as (c4 & _ & Hr4).
  apply (Hlast (((c1 ++ c2) ++ c3) ++ c4)). rewrite Hr4. simpl.
  by rewrite <- !app_assoc.
Qed.

Lemma rows_start_with_id_and_diagnosis_witness :
  ∃ st data rest,
    aggregate true false Cohort.tables = Ok st ∧
    od_get "EN2" (src_data st) = Some data ∧
    od_get "EN2" (mira_data st) = Some ("EN2" :: diag_cell data :: rest).
Proof.
  destruct (aggregate true false Cohort.tables) as [st|e] eqn:E; [|run_ok E].
  destruct (od_get "EN2" (src_data st)) as [data|] eqn:D.
  - destruct (rows_start_with_id_and_diagnosis _ _ _ _ "EN2" data E D) as [rest Hrow].
    exists st, data, rest. split; [reflexivity|]. split; [exact D|exact Hrow].
  - assert (is_ok (st ← aggregate true false Cohort.tables;
                   match od_get "EN2" (src_data st) with
                   | Some _ => Ok tt
                   | None => Raise KeyError
                   end) = true) as Hok by (vm_compute; reflexivity).
    rewrite E in Hok. simpl in Hok. rewrite D in Hok. discriminate Hok.
Defined.

(** ** The variable dictionary as a dictionary *)

Lemma dict_row_wf row dict dict' :
  dict_row row dict = Ok dict' → od_wf dict → od_wf dict'.
Proof.
  unfold dict_row. intros Hrun Hwf. do 7 bind_inv Hrun. case_bool_decide.
  - do 2 bind_inv Hrun. inversion Hrun; subst. by apply od_set_wf.
  - inversion Hrun; subst. by apply od_set_wf.
Qed.

Lemma foldl_insert_last (pairs : list (string * string)) (m : gmap string string) label :
  foldl (fun m cl => <[cl.2 := cl.1]> m) m pairs !! label =
    match last (filter (fun cl => cl.2 = label) pairs) with
    | Some cl => Some cl.1
    | None => m !! label
    end.
Proof.
  induction pairs as [|[c l] pairs IH] using rev_ind; [done|].
  rewrite foldl_app, filter_app. simpl. rewrite filter_cons, filter_nil. simpl.
  destruct (decide (l = label)) as [->|Hne].
  - rewrite last_snoc. by rewrite lookup_insert_eq.
  - rewrite app_nil_r, lookup_insert_ne by done. apply IH.
Qed.

Lemma idict_parts_pairs pieces m m' :
  for_each idict_part pieces m = Ok m' →
  ∃ pairs : list (string * string),
    Forall2 (fun p cl => Py.split ":" p = [cl.1; cl.2])
            (filter (fun p => p ≠ "") pieces) pairs ∧
    m' = foldl (fun m cl => <[cl.2 := cl.1]> m) m pairs.
Proof.
  revert m. induction pieces as [|p pieces IH]; intros m Hrun.
  - inversion Hrun. by exists [].
  - rewrite for_each_cons in Hrun. bind_inv Hrun. rename a into m1.
    destruct (IH _ Hrun) as (pairs & Hall & ->). rewrite filter_cons.
    unfold idict_part in Hrun0. destruct p as [|c p].
    + simpl in Hrun0. inversion Hrun0; subst m1.
      destruct (decide ("" ≠ "")) as [Hne|_]; [done|]. by exists pairs.
    + simpl in Hrun0. bind_inv Hrun0. destruct a as [value key].
      inversion Hrun0; subst m1.
      destruct (decide (String c p ≠ "")) as [_|Heq]; [|by destruct Heq].
      exists ((value, key) :: pairs). split; [|done].
      constructor; [|done]. cbn [fst snd]. revert Hrun1. unfold unpack_pair.
      destruct (Py.split ":" (String c p)) as [|v [|k [|x l]]]; try done.
      by intros [= -> ->].
Qed.

(** [parse_idict] builds the code map of the spec. *)
Lemma parse_idict_code_map rstr idict :
  parse_idict rstr = Ok idict → code_map_of rstr idict.
Proof.
  unfold parse_idict. intros Hrun.
  destruct (idict_parts_pairs _ _ _ Hrun) as (pairs & Hall & ->).
  exists pairs. split; [done|]. intros label. rewrite foldl_insert_last.
  destruct (last _); [done|]. case_bool_decide as Hl.
  - subst label. apply lookup_singleton_eq.
  - by apply lookup_singleton_ne.
Qed.

Lemma dict_row_describes row dict dict' :
  dict_row row dict = Ok dict' →
  ∃ col info, row_position row = Some col ∧ describes row info ∧
              dict' = od_set col info dict.
Proof.
  unfold dict_row. intros Hrun. do 7 bind_inv Hrun.
  rename a into r0, a0 into col, a1 into name, a2 into alias, a3 into group,
         a4 into table, a5 into type.
  assert (row_position row = Some col) as Hpos.
  { apply (getitem_lit _ _ 0 _ eq_refl) in Hrun0. destruct row as [|x row]; [done|].
    simpl in Hrun0. inversion Hrun0; subst x. simpl. by rewrite Hrun1. }
  apply (getitem_lit _ _ 1 _ eq_refl) in Hrun2. apply (getitem_lit _ _ 2 _ eq_refl) in Hrun3.
  apply (getitem_lit _ _ 3 _ eq_refl) in Hrun4. apply (getitem_lit _ _ 4 _ eq_refl) in Hrun5.
  apply (getitem_lit _ _ 5 _ eq_refl) in Hrun6.
  case_bool_decide as Hlen.
  - do 2 bind_inv Hrun. rename a into rstr, a0 into idict. inversion Hrun; subst.
    apply (getitem_lit _ _ 6 _ eq_refl) in Hrun7. eexists col, _. split; [done|].
    split; [|done]. unfold describes. simpl. rewrite bool_decide_eq_true_2 by done.
    split_and!; [done..|]. exists rstr, idict. split_and!; [done..|].
    by apply parse_idict_code_map.
  - inversion Hrun; subst. eexists col, _. split; [done|]. split; [|done].
    unfold describes. simpl. by rewrite bool_decide_eq_false_2 by done.
Qed.

Lemma dict_rows_describe rows dict0 dict col :
  for_each dict_row rows dict0 = Ok dict →
  match last (rows_at col rows) with
  | Some row => ∃ info, od_get col dict = Some info ∧ describes row info
  | None => od_get col dict = od_get col dict0
  end.
Proof.
  revert dict. induction rows as [|row rows IH] using rev_ind; intros dict Hrun.
  - by inversion Hrun.
  - apply for_each_snoc in Hrun as (dict1 & Hrows & Hrow).
    specialize (IH _ Hrows).
    destruct (dict_row_describes _ _ _ Hrow) as (col' & info & Hpos & Hinfo & ->).
    unfold rows_at in *. rewrite filter_app, filter_cons, filter_nil.
    destruct (decide (row_position row = Some col)) as [Heq|Hne].
    + rewrite last_snoc. rewrite Hpos in Heq. inversion Heq; subst col'.
      exists info. split; [apply od_get_set_eq|done].
    + rewrite app_nil_r. rewrite Hpos in Hne.
      rewrite od_get_set_ne by congruence. exact IH.
Qed.

(** [load_dict] returns a dictionary with one entry per position that some row
    declares, and no other: the entry of a position is the one that the last
    row declaring it describes, so it has a code spec and a code map exactly
    when that row has seven fields. *)
Theorem load_dict_is_a_dictionary (rows : list (list string))
    (dict : list (Z * var_info)) :
  load_dict rows = Ok dict →
  od_wf dict ∧
  ∀ col, match last (rows_at col rows) with
         | Some row => ∃ info, od_get col dict = Some info ∧ describes row info
         | None => od_get col dict = None
         end.
Proof.
  intros Hload. split.
  - unfold load_dict in Hload.
    refine (for_each_invariant od_wf dict_row rows _ [] dict _ Hload).
    + intros row d d' _ Hd Hrow. by eapply dict_row_wf.
    + apply NoDup_nil_2.
  - intros col. apply (dict_rows_describe _ _ _ col) in Hload.
    by destruct (last (rows_at col rows)).
Qed.

Lemma load_dict_is_a_dictionary_witness :
  ∃ dict info,
    load_dict [["3"; "SEX"; "Sex"; "D"; "B"; "category"; "1:Male;0:Female"];
               ["7"; "OUT"; "Outcome"; "D"; "B"; "String"];
               ["3"; "GENDER"; "Gender"; "D"; "B"; "String"]] = Ok dict ∧
    od_wf dict ∧
    od_get 3%Z dict = Some info ∧ v_name info = "GENDER" ∧ v_ranges info = None ∧
    od_get 5%Z dict = None.
Proof.
  destruct (load_dict [["3"; "SEX"; "Sex"; "D"; "B"; "category"; "1:Male;0:Female"];
                       ["7"; "OUT"; "Outcome"; "D"; "B"; "String"];
                       ["3"; "GENDER"; "Gender"; "D"; "B"; "String"]])
    as [dict|e] eqn:E; [|run_ok E].
  destruct (load_dict_is_a_dictionary _ _ E) as [Hwf Hall].
  pose proof (Hall 3%Z) as H3. pose proof (Hall 5%Z) as H5.
  change (∃ info, od_get 3%Z dict = Some info ∧
                  describes ["3"; "GENDER"; "Gender"; "D"; "B"; "String"] info) in H3.
  change (od_get 5%Z dict = None) in H5.
  destruct H3 as (info & Hget & Hname & _ & _ & _ & _ & Hcodes).
  change (v_ranges info = None ∧ v_idict info = None) in Hcodes.
  exists dict, info. split; [reflexivity|]. split; [exact Hwf|].
  split; [exact Hget|]. split; [|split; [exact (proj1 Hcodes)|exact H5]].
  simpl in Hname. injection Hname as Hname. symmetry. exact Hname.
Defined.

(** ** The slot count is attained *)

(** When the slot count of a family is not zero, some patient of the store has
    a series of exactly that length: no slot is padding for everybody. *)
Theorem max_series_len_attained {A} (series : patient → option (list A))
    (src : list (string * patient)) :
  (0 < max_series_len series src)%nat →
  ∃ id data s, (id, data) ∈ src ∧ series data = Some s ∧
               length s = max_series_len series src.
Proof.
  unfold max_series_len.
  assert (∀ a : nat,
            let m := foldl (fun max_len (p : string * patient) =>
                              if Py.truthy_list (series p.2)
                              then match series p.2 with
                                   | Some s => Nat.max max_len (length s)
                                   | None => max_len
                                   end
                              else max_len) a src in
            m = a ∨ ∃ id data s, (id, data) ∈ src ∧ series data = Some s ∧
                                 length s = m) as Hfold.
  { induction src as [|[id data] src IH]; intros a; simpl; [by left|].
    match goal with |- context [foldl _ ?b src] => destruct (IH b) as [Heq|Hex] end.
    - simpl in Heq. rewrite Heq.
      destruct (series data) as [[|x s]|] eqn:Hs; simpl; [by left| |by left].
      destruct (Nat.max_spec a (S (length s))) as [[_ ->]|[_ ->]]; [|by left].
      right. exists id, data, (x :: s). split_and!; [by left|done|done].
    - right. destruct Hex as (id' & data' & s & Hin & Hs & Hlen).
      exists id', data', s. split_and!; [by right|done|done]. }
  intros Hpos. destruct (Hfold 0%nat) as [Hz|Hex]; [simpl in Hz; lia|done].
Qed.

Lemma max_series_len_attained_witness :
  ∃ id data s, (id, data) ∈ src_data Cohort.two_patients ∧
               Some (d_qpcr data) = Some s ∧ length s = 3%nat.
Proof.
  apply (max_series_len_attained (fun d => Some (d_qpcr d))
           (src_data Cohort.two_patients)).
  vm_compute. lia.
Defined.

(** ** The summary counts *)

Lemma summary_step_counts c p :
  let c' := summary_step c p in
  count_total c' = count_total c ∧
  (count_pos c' + count_neg c' = S (count_pos c + count_neg c))%nat ∧
  ((count_pos c = count_pos_male c + count_pos_fem c + count_pos_unk c)%nat →
   (count_pos c' = count_pos_male c' + count_pos_fem c' + count_pos_unk c')%nat) ∧
  ((count_neg c = count_neg_male c + count_neg_fem c + count_neg_unk c)%nat →
   (count_neg c' = count_neg_male c' + count_neg_fem c' + count_neg_unk c')%nat) ∧
  ((count_vload c + count_novload_fatal c + count_novload_nonfatal c
    ≤ count_known_out c)%nat →
   (count_vload c' + count_novload_fatal c' + count_novload_nonfatal c'
    ≤ count_known_out c')%nat) ∧
  ((count_known_out c ≤ count_pos c)%nat → (count_known_out c' ≤ count_pos c')%nat) ∧
  ((count_case c ≤ count_known_out c)%nat → (count_case c' ≤ count_known_out c')%nat) ∧
  ((count_pos_pico c ≤ count_known_out c)%nat →
   (count_pos_pico c' ≤ count_known_out c')%nat) ∧
  ((count_neg_pico c ≤ count_neg c)%nat → (count_neg_pico c' ≤ count_neg c')%nat).
Proof.
  cbv zeta. unfold summary_step, incr.
  generalize (bool_decide (d_group p.2 = "Epos")) as g,
             (bool_decide (d_sex p.2 = Some "Male")) as male,
             (bool_decide (d_sex p.2 = Some "Female")) as fem,
             (truthy_opt (d_outcome p.2)) as known,
             (existsb (fun qpcr => Py.truthy (q_vload qpcr)) (d_qpcr p.2)) as vload,
             (bool_decide (d_outcome p.2 = Some "Died")) as fatal,
             (bool_decide (d_outcome p.2 = Some "Discharged")) as nonfatal,
             (Py.truthy_list (d_case p.2)) as chart,
             (Py.truthy_list (d_pico p.2)) as panel.
  intros g male fem known vload fatal nonfatal chart panel.
  split_and!; destruct g; simpl;
    repeat match goal with
           | |- context [if ?b then _ else _] => is_var b; destruct b; simpl
           end; lia.
Qed.

(** The counts that [print_summary] prints are consistent: positive and
    negative cases partition the cohort, each splits into male, female and
    unknown, and the counts taken among the positive cases with a known
    outcome (viral load, clinical chart, metabolic panel, fatal and non-fatal
    without viral load) do not exceed their number. *)
Theorem summary_counts_add_up (src : list (string * patient)) :
  let c := print_summary src in
  count_total c = length src ∧
  (count_total c = count_pos c + count_neg c)%nat ∧
  (count_pos c = count_pos_male c + count_pos_fem c + count_pos_unk c)%nat ∧
  (count_neg c = count_neg_male c + count_neg_fem c + count_neg_unk c)%nat ∧
  (count_vload c + count_novload_fatal c + count_novload_nonfatal c
   ≤ count_known_out c)%nat ∧
  (count_known_out c ≤ count_pos c)%nat ∧
  (count_case c ≤ count_known_out c)%nat ∧
  (count_pos_pico c ≤ count_known_out c)%nat ∧
  (count_neg_pico c ≤ count_neg c)%nat.
Proof.
  cbv zeta. unfold print_summary.
  assert (∀ c0,
            let c := foldl summary_step c0 src in
            count_total c = count_total c0 ∧
            (count_pos c + count_neg c = count_pos c0 + count_neg c0 + length src)%nat ∧
            ((count_pos c0 = count_pos_male c0 + count_pos_fem c0 + count_pos_unk c0)%nat →
             (count_pos c = count_pos_male c + count_pos_fem c + count_pos_unk c)%nat) ∧
            ((count_neg c0 = count_neg_male c0 + count_neg_fem c0 + count_neg_unk c0)%nat →
             (count_neg c = count_neg_male c + count_neg_fem c + count_neg_unk c)%nat) ∧
            ((count_vload c0 + count_novload_fatal c0 + count_novload_nonfatal c0
              ≤ count_known_out c0)%nat →
             (count_vload c + count_novload_fatal c + count_novload_nonfatal c
              ≤ count_known_out c)%nat) ∧
            ((count_known_out c0 ≤ count_pos c0)%nat →
             (count_known_out c ≤ count_pos c)%nat) ∧
            ((count_case c0 ≤ count_known_out c0)%nat →
             (count_case c ≤ count_known_out c)%nat) ∧
            ((count_pos_pico c0 ≤ count_known_out c0)%nat →
             (count_pos_pico c ≤ count_known_out c)%nat) ∧
            ((count_neg_pico c0 ≤ count_neg c0)%nat →
             (count_neg_pico c ≤ count_neg c)%nat)) as Hfold.
  { induction src as [|p src IH]; intros c0; simpl.
    - split_and!; (done || lia).
    - destruct (IH (summary_step c0 p)) as (H1 & H2 & H3 & H4 & H5 & H6 & H7 & H8 & H9).
      destruct (summary_step_counts c0 p) as (G1 & G2 & G3 & G4 & G5 & G6 & G7 & G8 & G9).
      split_and!; [by rewrite H1|clear - H2 G2; simpl in *; lia|auto..]. }
  destruct (Hfold (mk_summary (length src) 0 0 0 0 0 0 0 0 0 0 0 0 0 0 0))
    as (H1 & H2 & H3 & H4 & H5 & H6 & H7 & H8 & H9). simpl in *.
  split_and!; [done|lia|auto with lia..].
Qed.

(** ** The project descriptor *)

Lemma config_line_spec line c c' :
  Convert.config_line line c = Ok c' →
  ∃ key val,
    Py.split "=" (Py.strip line) = [key; val] ∧
    Convert.data_name c' =
      (if bool_decide (key = "data.source") then val else Convert.data_name c) ∧
    Convert.dict_name c' =
      (if bool_decide (key = "data.dictionary") then val else Convert.dict_name c) ∧
    Convert.miss_src c' =
      (if bool_decide (key = "missing.string") then val else Convert.miss_src c).
Proof.
  unfold Convert.config_line. intros Hrun.
  destruct (Py.split "=" (Py.strip line)) as [|key [|val [|x l]]]; try done.
  inversion Hrun; subst. exists key, val. split; [done|].
  repeat case_bool_decide; simpl; done.
Qed.

(** The converters take from config.mira, for each of the three keys, the value
    of the last line that assigns it; without such a line the data and
    dictionary names are empty and the missing-value string is the sentinel. *)
Theorem read_config_last_line_wins (lines : list string) (c : Convert.config) :
  Convert.read_config lines = Ok c →
  Convert.data_name c = default "" (last (config_values "data.source" lines)) ∧
  Convert.dict_name c = default "" (last (config_values "data.dictionary" lines)) ∧
  Convert.miss_src c = default sentinel (last (config_values "missing.string" lines)).
Proof.
  unfold Convert.read_config. revert c.
  induction lines as [|line lines IH] using rev_ind; intros c Hrun.
  - by inversion Hrun.
  - apply for_each_snoc in Hrun as (c1 & Hc1 & Hline).
    destruct (IH _ Hc1) as (H1 & H2 & H3).
    destruct (config_line_spec _ _ _ Hline) as (key & val & Hsplit & -> & -> & ->).
    unfold config_values. rewrite !omap_app. simpl. rewrite Hsplit.
    fold (config_values "data.source" lines).
    fold (config_values "data.dictionary" lines).
    fold (config_values "missing.string" lines).
    repeat case_bool_decide; simpl; rewrite ?app_nil_r, ?last_snoc; simpl; done.
Qed.

Lemma read_config_last_line_wins_witness :
  ∃ c, Convert.read_config ["data.source=data.csv"; "missing.string=?";
                            "data.dictionary=dictionary.csv"; "missing.string=NA "]
         = Ok c ∧
       Convert.data_name c = "data.csv" ∧ Convert.miss_src c = "NA".
Proof.
  destruct (Convert.read_config
              ["data.source=data.csv"; "missing.string=?";
               "data.dictionary=dictionary.csv"; "missing.string=NA "])
    as [c|e] eqn:E; [|run_ok E].
  exists c. split; [reflexivity|].
  destruct (read_config_last_line_wins _ _ E) as (H1 & _ & H3).
  split; [exact H1|exact H3].
Defined.

(** ** Errors of the demographics phase *)

Lemma for_each_error {A S} (P : exn → Prop) (body : A → S → result S) xs s e :
  (∀ x t e', x ∈ xs → body x t = Raise e' → P e') →
  for_each body xs s = Raise e → P e.
Proof.
  revert s. induction xs as [|x xs IH]; intros s Hbody Hrun; simpl in Hrun; [done|].
  destruct (body x s) as [s'|e'] eqn:Hx; simpl in Hrun.
  - eapply IH; [|exact Hrun]. intros y t e'' Hy. apply Hbody. by right.
  - inversion Hrun; subst. eapply Hbody; [by left|exact Hx].
Qed.

Lemma map_each_error {A B} (P : exn → Prop) (f : A → result B) xs e :
  (∀ x e', x ∈ xs → f x = Raise e' → P e') → map_each f xs = Raise e → P e.
Proof.
  induction xs as [|x xs IH]; intros Hf Hrun; [done|]. rewrite map_each_cons in Hrun.
  destruct (f x) as [y|e'] eqn:Hx; simpl in Hrun.
  - destruct (map_each f xs) as [ys|e''] eqn:Hxs; simpl in Hrun; [done|].
    inversion Hrun; subst. apply IH; [|done]. intros z e3 Hz. apply Hf. by right.
  - inversion Hrun; subst. eapply Hf; [by left|exact Hx].
Qed.

Lemma demo_cell_error data col var e :
  demo_cell data (col, var) = Raise e →
  e = IndexError ∧
  ∃ row, d_demo data = Some row ∧ Py.getitem row col = Raise IndexError.
Proof.
  unfold demo_cell, raw_cell. simpl.
  destruct (d_demo data) as [[|x row]|]; simpl.
  - destruct (v_idict var) as [m|]; [by destruct (m !! "")|done].
  - destruct (Py.getitem (x :: row) col) as [val|e'] eqn:Hget; simpl.
    + destruct (v_idict var) as [m|]; [by destruct (m !! val)|done].
    + intros [= <-].
      assert (e' = IndexError) as ->.
      { revert Hget. unfold Py.getitem. repeat case_match; congruence. }
      split; [done|]. by exists (x :: row).
  - destruct (v_idict var) as [m|]; [by destruct (m !! "")|done].
Qed.

Lemma demo_loop_error demo_dict src mira e :
  for_each (demo_patient demo_dict) src mira = Raise e →
  e = IndexError ∧
  ∃ id data row col var,
    (id, data) ∈ src ∧ d_demo data = Some row ∧
    (col, var) ∈ demo_dict ∧ Py.getitem row col = Raise IndexError.
Proof.
  intros Hloop.
  eapply (for_each_error
            (fun e => e = IndexError ∧
                      ∃ id data row col var,
                        (id, data) ∈ src ∧ d_demo data = Some row ∧
                        (col, var) ∈ demo_dict ∧
                        Py.getitem row col = Raise IndexError)); [|exact Hloop].
  intros [id data] m e' Hin Hstep. simpl in Hstep.
  destruct (map_each (demo_cell data) demo_dict) as [cells|e''] eqn:Hcells; [done|].
  simpl in Hstep. inversion Hstep; subst e''.
  eapply (map_each_error
            (fun e => e = IndexError ∧
                      ∃ id data row col var,
                        (id, data) ∈ src ∧ d_demo data = Some row ∧
                        (col, var) ∈ demo_dict ∧
                        Py.getitem row col = Raise IndexError)); [|exact Hcells].
  intros [col var] e3 Hentry Hc.
  destruct (demo_cell_error _ _ _ _ Hc) as (-> & row & Hrow & Hget).
  split; [done|]. by exists id, data, row, col, var.
Qed.

(** The demographics phase translates every value with a closed vocabulary and
    cannot raise KeyError: it ends normally unless the demographics row of some
    patient has no cell at a position of the dictionary, and then it raises
    IndexError. *)
Theorem add_demo_data_fails_only_on_short_rows (demo_dict : list (Z * var_info))
    (st : state) :
  (∀ e, add_demo_data demo_dict st = Raise e →
        e = IndexError ∧
        ∃ id data row col var,
          (id, data) ∈ src_data st ∧ d_demo data = Some row ∧
          (col, var) ∈ demo_dict ∧ Py.getitem row col = Raise IndexError) ∧
  ((∀ id data row col var,
      (id, data) ∈ src_data st → d_demo data = Some row → (col, var) ∈ demo_dict →
      is_ok (Py.getitem row col) = true) →
   is_ok (add_demo_data demo_dict st) = true).
Proof.
  unfold add_demo_data.
  match goal with |- context [declare_vars demo_dict ?s] =>
    destruct (declare_vars_frame demo_dict s) as (Hs & _);
    generalize dependent (declare_vars demo_dict s) end.
  intros st3 Hs. simpl in Hs. rewrite Hs.
  destruct (for_each (demo_patient demo_dict) (src_data st) (mira_data st3))
    as [mira|e'] eqn:Hloop; simpl.
  - split; [done|done].
  - destruct (demo_loop_error _ _ _ _ Hloop)
      as (-> & id & data & row & col & var & Hin & Hrow & Hentry & Hget).
    split.
    + intros e [= <-]. split; [done|]. by exists id, data, row, col, var.
    + intros Hall. specialize (Hall id data row col var Hin Hrow Hentry).
      by rewrite Hget in Hall.
Qed.

Lemma add_demo_data_fails_only_on_short_rows_witness :
  add_demo_data [(9%Z, mk_var "AGE" "Age" "Demographics" "Basic" "int" None None)]
    (with_src [("A1", mk_patient "Epos" None None (Some ["1"; "A1"]) None None [])]
              init_state)
  = Raise IndexError.
Proof.
  destruct (add_demo_data
              [(9%Z, mk_var "AGE" "Age" "Demographics" "Basic" "int" None None)]
              (with_src [("A1", mk_patient "Epos" None None (Some ["1"; "A1"]) None
                                           None [])] init_state)) as [st|e] eqn:E.
  - vm_compute in E. discriminate E.
  - f_equal.
    exact (proj1 (proj1 (add_demo_data_fails_only_on_short_rows _ _) e E)).
Defined.
